(** * Rainbow HAT: user-space library, driver write paths and metronome timing

    A shallow embedding of the C sources of the Rainbow HAT project:
    - [RainbowHat]: the user-space library (rainbow_hat.c, rainbow_hat.h);
    - [Driver]: the LED and buzzer write paths and the button read path of
      the kernel module, from hex_to_int to rainbow_buzzer_write;
    - [Schedule]: two callers of rainbow_buzzer_write, interleaved at the
      mutex operations;
    - [Setup]: probing and removal of the two drivers, loading and
      unloading of the module;
    - [Metronome], [Sequencer], [Piano]: the timing arithmetic and one beat
      of metronome_led_sequence, one round of piano_simulation
      (user_space_app.c).
    The properties follow in the modules after [Sample].

    Conventions.  C integers are modelled as [Z]; every quantity the code
    computes stays far inside the range of its C type, the bounds are stated
    where a theorem depends on them.  C strings are [string] values holding
    the bytes before the terminating NUL.  A result of [None] stands for a
    behaviour C leaves undefined (use of a released handle, a read past the
    end of an array, a division by zero).  System calls are answered by an
    oracle that sees the history of calls made so far; every write, read
    and close is appended to that history.  Kernel log output (pr_info,
    pr_warn) and the debug_print macro, which expands to nothing, are left
    out. *)

From Stdlib Require Import ZArith List String Ascii Bool Lia.
From Stdlib Require Import DecimalString.
From Stdlib Require SpecFloat DecimalPos.
Import ListNotations.

Local Open Scope string_scope.
Local Open Scope Z_scope.

(** ** errno values used by the sources (Linux errno-base.h, errno.h) *)

Module Errno.
Definition EIO : Z := 5.
Definition ENOMEM : Z := 12.
Definition EFAULT : Z := 14.
Definition EBUSY : Z := 16.
Definition ENODEV : Z := 19.
Definition EINVAL : Z := 22.
Definition ERANGE : Z := 34.
Definition ERESTART : Z := 85.
Definition ERESTARTSYS : Z := 512.
End Errno.

(** ** C library helpers *)

Module CLib.

Definition strlen (s : string) : Z := Z.of_nat (String.length s).

(** [printf]'s %d conversion. *)
Definition fmt_d (z : Z) : string := NilZero.string_of_int (Z.to_int z).

(** [snprintf buf size "..."]: at most [size - 1] bytes are stored; the
    returned value is the length the full text would have had. *)
Definition snprintf (size : nat) (full : string) : Z * string :=
  (strlen full, substring 0 (size - 1) full).

(** [s[i]] for an index inside the buffer; the byte after the last
    character of a C string is the terminating NUL. *)
Definition char_at (s : string) (i : nat) : ascii :=
  match String.get i s with
  | Some c => c
  | None => Ascii.zero
  end.

(** Copy [data] over the first bytes of [buf], as a read into a buffer does. *)
Fixpoint overwrite (data buf : string) : string :=
  match data, buf with
  | EmptyString, _ => buf
  | String c data', EmptyString => String c (overwrite data' EmptyString)
  | String c data', String _ buf' => String c (overwrite data' buf')
  end.

(** The bytes of [s] from offset [n] on. *)
Fixpoint skip (n : nat) (s : string) : string :=
  match n, s with
  | O, _ => s
  | S _, EmptyString => EmptyString
  | S n', String _ s' => skip n' s'
  end.

End CLib.

Notation "x <- m ;; k" :=
  (match m with Some x => k | None => None end)
  (at level 61, m at next level, right associativity, only parsing).
Notation "' p <- m ;; k" :=
  (match m with Some p => k | None => None end)
  (at level 61, p pattern, m at next level, right associativity,
   only parsing).

(** ** The user-space library (rainbow_hat.c) *)

Module RainbowHat.
Import Errno CLib.

Definition MAX_AMOUNT_PINS : Z := 7.
Definition ERR_BUF_SIZE : Z := 256.
Definition LED_ARRAY_SIZE : Z := 70.

Definition COL_BLACK : string := "000000".
Definition PIN_NUMBERS : list Z := [0; 1; 2; 3; 4; 5; 6].
Definition BUTTON_NAMES : list ascii := ["A"; "B"; "C"]%char.

Record led_arg := {
  amount_colors : Z;
  colors : list string;
  amount_pins : Z;
  pins : list Z
}.

(** The three descriptors of [struct rainbow_hat_dev]; its four function
    pointers are set once by init_rainbow_hat to the functions below. *)
Record rainbow_hat_dev := {
  leds_fd : Z;
  buttons_fd : Z;
  buzzer_fd : Z
}.

(** A [rainbow_hat_dev *]: null, pointing to a live object, or left
    dangling by [free]. *)
Inductive dev_ptr :=
| NULL
| Live (d : rainbow_hat_dev)
| Freed.

(** What a [write] carries: the LED command text, or the bytes of an
    [unsigned long] frequency. *)
Inductive payload :=
| Text (s : string)
| ULong (v : Z).

Inductive event :=
| EvWrite (fd : Z) (p : payload)
| EvRead (fd : Z) (n : Z)
| EvClose (fd : Z)
| EvStdout (s : string)
| EvStderr (s : string).

(** The module variable [LED_ARRAY], the caller's error buffer and the
    calls made so far.  The caller is taken to supply a buffer: write_error
    hands [err_buff] to snprintf as it is. *)
Record world := {
  LED_ARRAY : string;
  err_buff : string;
  trace : list event
}.

Definition set_LED_ARRAY (s : string) (w : world) : world :=
  {| LED_ARRAY := s; err_buff := err_buff w; trace := trace w |}.
Definition set_err_buff (s : string) (w : world) : world :=
  {| LED_ARRAY := LED_ARRAY w; err_buff := s; trace := trace w |}.
Definition log (e : event) (w : world) : world :=
  {| LED_ARRAY := LED_ARRAY w; err_buff := err_buff w;
     trace := trace w ++ [e] |}.

Definition write_error (err_str : string) (w : world) : Z * world :=
  let '(result, stored) :=
    snprintf (Z.to_nat ERR_BUF_SIZE) (err_str ++ String "010" "") in
  let w1 := set_err_buff stored w in
  if result <? 0 then
    (1, log (EvStderr ("Error occurred during snprintf formatting."
                         ++ String "010" "")) w1)
  else if result >=? ERR_BUF_SIZE then
    (2, log (EvStderr ("Warning: snprintf output truncated. Needed size: "
                         ++ fmt_d result ++ String "010" "")) w1)
  else (0, w1).

Section Calls.

(** [write(fd, buf, n)] and [read(fd, buf, n)] as answered by the system,
    given the calls made so far.  A read answers with its return value and
    the bytes it stored. *)
Variable sys_write : list event -> Z -> payload -> Z.
Variable sys_read : list event -> Z -> Z -> Z * string.

Definition set_leds (led_fd : Z) (w : world) : Z * world :=
  if led_fd >=? 0 then
    let bytes_written := sys_write (trace w) led_fd (Text (LED_ARRAY w)) in
    let w1 := log (EvWrite led_fd (Text (LED_ARRAY w))) w in
    if bytes_written <? 0 then
      let msg :=
        if bytes_written =? - ENOMEM then "LED-Device: Insufficient memory!"
        else if bytes_written =? - ERESTART then "LED-Device: Device busy!"
        else if bytes_written =? - EFAULT then "LED-Device: Segmentation fault!"
        else if bytes_written =? - EINVAL then "LED-Device: Invalid argument!"
        else if bytes_written =? - EIO then "LED-Device: Device error!"
        else "LED-Device: Unexpected error occurred!" in
      (-1, snd (write_error msg w1))
    else (0, w1)
  else (-1, w).

(** The text one loop iteration of create_led_array formats into [tmp]. *)
Definition led_token (idx : Z) (pin : Z) (color : string) : string :=
  snd (snprintf 20
         ((if idx >? 0 then "," else "") ++ fmt_d pin ++ ":" ++ color)).

(** Index of the colour used for position [idx]. *)
Definition color_index (idx amount_leds amount_colors : Z) : Z :=
  if (amount_colors =? 1) || (amount_colors =? amount_leds)
  then Z.min idx (amount_colors - 1)
  else 0.

(** The [for] loop of create_led_array, [n] iterations from [idx] on. *)
Fixpoint led_array_loop (n : nat) (idx : Z) (pins : list Z)
    (amount_leds : Z) (hex_color : list string) (amount_colors : Z)
    (arr : string) : option (Z * string) :=
  match n with
  | O => Some (0, arr)
  | S n' =>
      pin <- nth_error pins (Z.to_nat idx) ;;
      color <- nth_error hex_color
                 (Z.to_nat (color_index idx amount_leds amount_colors)) ;;
      let tmp := led_token idx pin color in
      if strlen arr + strlen tmp >=? LED_ARRAY_SIZE
      then Some (-2, arr)
      else led_array_loop n' (idx + 1) pins amount_leds hex_color
             amount_colors (arr ++ tmp)
  end.

Definition create_led_array (pins : list Z) (amount_leds : Z)
    (hex_color : list string) (amount_colors : Z) (w : world)
    : option (Z * world) :=
  if (amount_leds >? MAX_AMOUNT_PINS) || (amount_colors >? MAX_AMOUNT_PINS)
     || (amount_leds <=? 0) || (amount_colors <=? 0)
  then
    Some (-1, log (EvStdout ("LEDS: " ++ fmt_d amount_leds ++ ", Colors: "
                               ++ fmt_d amount_colors)) w)
  else
    '(r, arr) <- led_array_loop (Z.to_nat amount_leds) 0 pins amount_leds
                   hex_color amount_colors "" ;;
    Some (r, set_LED_ARRAY arr w).

Definition led_light_on (dev : dev_ptr) (ledArg : led_arg) (w : world)
    : option (Z * world) :=
  match dev with
  | NULL =>
      Some (-1, snd (write_error
                       "LED-LIGHT-ON: Device-Error (Null-Pointer)!" w))
  | _ =>
      '(r, w1) <- create_led_array (pins ledArg) (amount_pins ledArg)
                    (colors ledArg) (amount_colors ledArg) w ;;
      if negb (r =? 0) then
        Some (-1, snd (write_error "LED-LIGHT-ON: Invalid argument!" w1))
      else
        match dev with
        | Live d => Some (set_leds (leds_fd d) w1)
        | _ => None
        end
  end.

Definition led_light_off (dev : dev_ptr) (w : world) : option (Z * world) :=
  match dev with
  | NULL =>
      Some (-1, snd (write_error
                       "LED-LIGHT-OFF: Device Error (Null-Pointer)!" w))
  | _ =>
      let ledArg := {| amount_pins := MAX_AMOUNT_PINS;
                       pins := PIN_NUMBERS;
                       amount_colors := 1;
                       colors := [COL_BLACK] |} in
      led_light_on dev ledArg w
  end.

Definition play_tone (dev : dev_ptr) (frequency : Z) (w : world)
    : option (Z * world) :=
  match dev with
  | NULL =>
      Some (-1, snd (write_error
                       "Buzzer-Device: Device Error (Null-Pointer)!" w))
  | Freed => None
  | Live d =>
      if buzzer_fd d >=? 0 then
        (* bytes_written = write(...) < 0; *)
        let bytes_written :=
          if sys_write (trace w) (buzzer_fd d) (ULong frequency) <? 0
          then 1 else 0 in
        let w1 := log (EvWrite (buzzer_fd d) (ULong frequency)) w in
        if bytes_written <? 0 then
          let msg :=
            if bytes_written =? - EINVAL
            then "Buzzer-Device: Invalid arguments!"
            else if bytes_written =? - EBUSY
            then "Buzzer-Device: Device busy!"
            else if bytes_written =? - EFAULT
            then "Buzzer-Device: Segmentation fault!"
            else if bytes_written =? - ERANGE
            then "Buzzer-Device: Invalid argument - validate frequency!"
            else "Buzzer-Device: Unexpected error occurred!" in
          Some (-1, snd (write_error msg w1))
        else Some (0, w1)
      else Some (-1, w)
  end.

(** The scan loop of get_active_button: [n] iterations from index [i] on,
    leaving at the first '1'. *)
Fixpoint scan_buttons (n i : nat) (btn_state : string) (btn_active : ascii)
    : ascii :=
  match n with
  | O => btn_active
  | S n' =>
      if Ascii.eqb (char_at btn_state i) "1"
      then nth i BUTTON_NAMES Ascii.zero
      else scan_buttons n' (S i) btn_state btn_active
  end.

(** Returns the value of the call, the byte left in [*btn_active] and the
    new state; [btn_active0] is what the caller's byte held before. *)
Definition get_active_button (dev : dev_ptr) (btn_active0 : ascii)
    (w : world) : option (Z * ascii * world) :=
  match dev with
  | NULL =>
      Some (-1, btn_active0,
            snd (write_error
                   "Button-Device: Device Error (Null-Pointer)!" w))
  | Freed => None
  | Live d =>
      let btn_state := "000" ++ String Ascii.zero "" in
      let btn_active := Ascii.zero in
      if buttons_fd d >=? 0 then
        let '(result, data) := sys_read (trace w) (buttons_fd d) 3 in
        let w1 := log (EvRead (buttons_fd d) 3) w in
        if result <? 0 then
          let msg :=
            if result =? - EINVAL then "Button-Device: Invalid argument!"
            else if result =? - EFAULT
            then "Button-Device: Segmentation Fault!"
            else "Button-Device: Unexpected Error occurred!" in
          Some (-1, btn_active, snd (write_error msg w1))
        else
          let btn_state := overwrite (substring 0 3 data) btn_state in
          Some (0, scan_buttons 3 0 btn_state btn_active, w1)
      else Some (-1, btn_active, w)
  end.

End Calls.

(** The three [if (fd >= 0) { close(fd); fd = -1; }] blocks of
    free_rainbow_hat. *)
Definition close_fd (fd : Z) (w : world) : Z * world :=
  if fd >=? 0 then (-1, log (EvClose fd) w) else (fd, w).

Definition close_endpoints (d : rainbow_hat_dev) (w : world)
    : rainbow_hat_dev * world :=
  let '(l, w1) := close_fd (leds_fd d) w in
  let '(b, w2) := close_fd (buttons_fd d) w1 in
  let '(z, w3) := close_fd (buzzer_fd d) w2 in
  ({| leds_fd := l; buttons_fd := b; buzzer_fd := z |}, w3).

(** free_rainbow_hat: the descriptors are closed and set to -1, then the
    object is released.  The assignment [rainbowHatDev = NULL] changes the
    function's own copy of the pointer only, so the caller's pointer is
    left dangling. *)
Definition free_rainbow_hat (dev : dev_ptr) (w : world)
    : option (dev_ptr * world) :=
  match dev with
  | NULL => Some (NULL, w)
  | Live d => Some (Freed, snd (close_endpoints d w))
  | Freed => None
  end.

(** The device files behind the three descriptors. *)
Definition BUTTONS_DEV : string := "/dev/rainbow_buttons".
Definition BUZZER_DEV : string := "/dev/rainbow_buzzer".
Definition LEDS_DEV : string := "/dev/rainbow_leds".

Section Open.

(** Whether [malloc] finds room for the handle, and the descriptor [open]
    answers for a device file, negative when it fails.  The three [open]
    calls are not entered in the history. *)
Variable malloc_ok : bool.
Variable sys_open : string -> Z.

(** The label [cleanup] of init_rainbow_hat. *)
Definition init_cleanup (dev : rainbow_hat_dev) (w : world)
    : option (dev_ptr * world) :=
  '(_, w1) <- free_rainbow_hat (Live dev) w ;;
  Some (NULL, w1).

Definition init_rainbow_hat (w : world) : option (dev_ptr * world) :=
  if negb malloc_ok then
    Some (NULL, snd (write_error "INIT: Insufficient memory!" w))
  else
    let dev := {| leds_fd := sys_open LEDS_DEV;
                  buttons_fd := sys_open BUTTONS_DEV;
                  buzzer_fd := sys_open BUZZER_DEV |} in
    if leds_fd dev <? 0 then
      init_cleanup dev (snd (write_error "LED device open failed" w))
    else if buttons_fd dev <? 0 then
      init_cleanup dev (snd (write_error "Buttons device open failed" w))
    else if buzzer_fd dev <? 0 then
      init_cleanup dev (snd (write_error "Buzzer device open failed" w))
    else Some (Live dev, w).

End Open.

End RainbowHat.

(** ** The kernel module: LED and buzzer write paths *)

Module Driver.
Import Errno CLib.

Definition NUMBER_LEDS : Z := 7.
Definition NUMBER_START_BYTES : nat := 4.
Definition NUMBER_BYTES_PER_LED : nat := 4.
Definition NUMBER_STOP_BYTES : nat := 4.
Definition MAX_EXPECTED_INPUT_LENGTH : Z := 70.
Definition LED_BRIGHTNESS : Z := 224.   (* 0xE0 *)
Definition MAX_BRIGHTNESS : Z := 31.    (* 0x1F *)
Definition INT_MAX : Z := 2147483647.

Record rgb_led := { r : Z; g : Z; b : Z }.

Definition code (c : ascii) : Z := Z.of_N (N_of_ascii c).

Definition hex_to_int (c : ascii) : Z :=
  if (code c >=? code "0") && (code c <=? code "9") then code c - code "0"
  else if (code c >=? code "a") && (code c <=? code "f")
  then 10 + code c - code "a"
  else if (code c >=? code "A") && (code c <=? code "F")
  then 10 + code c - code "A"
  else -1.

(** [strchr] on the C string starting at the head of [s]: the distance to
    the first [c], looking no further than the terminating NUL. *)
Fixpoint strchr_from (s : string) (c : ascii) : option nat :=
  match s with
  | EmptyString => None
  | String a s' =>
      if Ascii.eqb a c then Some O
      else if Ascii.eqb a Ascii.zero then None
      else option_map S (strchr_from s' c)
  end.

(** [strchr(buf + pos, c)] as an offset into [buf]. *)
Definition strchr (buf : string) (pos : nat) (c : ascii) : option nat :=
  option_map (Nat.add pos) (strchr_from (skip pos buf) c).

(** Leading decimal digits of [s]: their value on top of [acc], how many
    there were, and what follows them. *)
Fixpoint parse_digits (s : string) (acc : Z) (n : nat) : Z * nat * string :=
  match s with
  | EmptyString => (acc, n, s)
  | String c s' =>
      if (code c >=? code "0") && (code c <=? code "9")
      then parse_digits s' (10 * acc + (code c - code "0")) (S n)
      else (acc, n, s)
  end.

(** The kernel's [kstrtol(s, 10, &res)] on a string of at most nine bytes
    (so that no value overflows [long]): an optional sign, at least one
    digit, an optional final newline.  [inl] carries the parsed number,
    [inr] the error code. *)
Definition kstrtol (s : string) : Z + Z :=
  let '(neg, body) :=
    match s with
    | String "-" s' => (true, s')
    | String "+" s' => (false, s')
    | _ => (false, s)
    end in
  let '(v, n, rest) := parse_digits body 0 O in
  if Nat.eqb n O then inr (- EINVAL)
  else
    let rest := match rest with String "010" t => t | _ => rest end in
    match rest with
    | EmptyString => inl (if neg then - v else v)
    | _ => inr (- EINVAL)
    end.

(** The loop of parse_hex_color over [buf[i]], [n] digits still to read;
    [color] is an [unsigned int]. *)
Fixpoint parse_hex_loop (n i : nat) (buf : string) (color : Z) : Z * Z :=
  match n with
  | O => (0, color)
  | S n' =>
      let value := hex_to_int (char_at buf i) in
      if value <? 0 then (- EINVAL, color)
      else parse_hex_loop n' (S i) buf
             (Z.lor (Z.shiftl color 4 mod 2 ^ 32) value)
  end.

(** parse_hex_color on the text at offset [pos] of [buf]. *)
Definition parse_hex_color (buf : string) (pos : nat) : Z * Z :=
  parse_hex_loop 6 0 (skip pos buf) 0.

Fixpoint set_led (i : nat) (v : rgb_led) (leds : list rgb_led)
    : list rgb_led :=
  match leds, i with
  | [], _ => []
  | _ :: t, O => v :: t
  | h :: t, S i' => h :: set_led i' v t
  end.

(** The [while] loop of parse_led_colors; [curr] is an offset into the
    kernel copy [buf] of the [count] bytes written, which is followed by a
    NUL.  [None] only when [fuel] iterations were not enough. *)
Fixpoint parse_led_loop (fuel : nat) (leds : list rgb_led) (buf : string)
    (count : Z) (curr : nat) : option (Z * list rgb_led) :=
  match fuel with
  | O => None
  | S fuel' =>
      if (Z.of_nat curr <? count)
         && negb (Ascii.eqb (char_at buf curr) Ascii.zero)
      then
        match strchr buf curr ":" with
        | None => Some (- EINVAL, leds)
        | Some colon =>
            let len := (colon - curr)%nat in
            if Z.of_nat len >=? 10 then Some (- EINVAL, leds)
            else
              let led_num_str := substring curr len buf in
              match kstrtol led_num_str with
              | inr _ => Some (- EINVAL, leds)
              | inl led_num =>
                  if (led_num <? 0) || (led_num >=? NUMBER_LEDS)
                  then Some (- EINVAL, leds)
                  else
                    let curr1 := S colon in
                    let '(ret, color) := parse_hex_color buf curr1 in
                    if ret <? 0 then Some (- EINVAL, leds)
                    else
                      let leds1 :=
                        set_led (Z.to_nat led_num)
                          {| r := Z.land (Z.shiftr color 16) 255;
                             g := Z.land (Z.shiftr color 8) 255;
                             b := Z.land color 255 |} leds in
                      let curr2 := (curr1 + 6)%nat in
                      match strchr buf curr2 "," with
                      | Some next =>
                          if Z.of_nat next <? count
                          then parse_led_loop fuel' leds1 buf count (S next)
                          else Some (0, leds1)
                      | None => Some (0, leds1)
                      end
              end
        end
      else Some (0, leds)
  end.

Definition parse_led_colors (leds : list rgb_led) (buf : string) (count : Z)
    : option (Z * list rgb_led) :=
  parse_led_loop (S (String.length buf)) leds buf count 0.

(** What the kernel services used by the write paths answer. *)
Record kenv := {
  sizeof_ulong : Z;
  kmalloc_ok : bool;
  lock_interrupted : bool;
  copy_from_user_ok : bool;
  spi_sync_ret : Z;
  pwm_config_ret : Z
}.

(** [struct rainbow_spi_dev]: the LED table, whether the SPI device is
    there, and the frames handed to [spi_sync] so far. *)
Record rainbow_spi_dev := {
  leds : list rgb_led;
  spi : bool;
  frames : list (list Z)
}.

Definition led_frame (l : list rgb_led) : list Z :=
  repeat 0 NUMBER_START_BYTES
  ++ flat_map (fun x => [Z.lor LED_BRIGHTNESS MAX_BRIGHTNESS; b x; g x; r x]) l
  ++ repeat 255 NUMBER_STOP_BYTES.

Definition update_leds (env : kenv) (dev : rainbow_spi_dev)
    : Z * rainbow_spi_dev :=
  if negb (spi dev) then (- ENODEV, dev)
  else
    let dev1 := {| leds := leds dev; spi := spi dev;
                   frames := frames dev ++ [led_frame (leds dev)] |} in
    let ret := spi_sync_ret env in
    if ret <? 0 then (ret, dev1) else (0, dev1).

(** rainbow_leds_write for a buffer holding [count = strlen buf] bytes. *)
Definition rainbow_leds_write (env : kenv) (dev : rainbow_spi_dev)
    (buf : string) : option (Z * rainbow_spi_dev) :=
  let count := strlen buf in
  if count >? MAX_EXPECTED_INPUT_LENGTH then Some (- EINVAL, dev)
  else if negb (kmalloc_ok env) then Some (- ENOMEM, dev)
  else if lock_interrupted env then Some (- ERESTARTSYS, dev)
  else if negb (copy_from_user_ok env) then Some (- EFAULT, dev)
  else
    '(ret, leds1) <- parse_led_colors (leds dev) buf count ;;
    let dev1 := {| leds := leds1; spi := spi dev; frames := frames dev |} in
    if negb (ret =? 0) then Some (- EINVAL, dev1)
    else
      let '(ret2, dev2) := update_leds env dev1 in
      if negb (ret2 =? 0) then Some (- EIO, dev2)
      else Some (count, dev2).

Inductive pwm_op :=
| PwmDisable
| PwmConfig (duty_ns period_ns : Z)
| PwmEnable.

(** [struct rainbow_gpio_dev] as the buzzer sees it: whether its mutex is
    held, and the calls made on the PWM device. *)
Record rainbow_gpio_dev := {
  lock : bool;
  pwm : list pwm_op
}.

Definition set_lock (v : bool) (d : rainbow_gpio_dev) : rainbow_gpio_dev :=
  {| lock := v; pwm := pwm d |}.
Definition pwm_call (op : pwm_op) (d : rainbow_gpio_dev) : rainbow_gpio_dev :=
  {| lock := lock d; pwm := pwm d ++ [op] |}.

(** Unsigned division; there is no result for a zero divisor. *)
Definition udiv (a b : Z) : option Z :=
  if b =? 0 then None else Some (a / b).

Inductive entry :=
| Rejected (ret : Z)
| Entered (d : rainbow_gpio_dev).

(** rainbow_buzzer_write up to and including [mutex_trylock]. *)
Definition buzzer_trylock (env : kenv) (d : rainbow_gpio_dev) (count : Z)
    : entry :=
  if negb (count =? sizeof_ulong env) then Rejected (- EINVAL)
  else if lock d then Rejected (- EBUSY)
  else Entered (set_lock true d).

(** rainbow_buzzer_write after the mutex was taken; [user_freq] is the
    [unsigned long] found in the caller's buffer.  [None] stands for a
    division by zero. *)
Definition buzzer_locked (env : kenv) (d : rainbow_gpio_dev) (count : Z)
    (user_freq : Z) : option (Z * rainbow_gpio_dev) :=
  if negb (copy_from_user_ok env) then Some (- EFAULT, set_lock false d)
  else
    let freq := user_freq in
    if freq =? 0 then
      let d1 := pwm_call PwmDisable d in
      Some (count, set_lock false d1)
    else
      period <- udiv 1000000000 freq ;;
      if period >? INT_MAX then Some (- ERANGE, set_lock false d)
      else
        let d1 := pwm_call (PwmConfig (period / 2) period) d in
        let ret := pwm_config_ret env in
        if ret =? 0 then
          let d2 := pwm_call PwmEnable d1 in
          Some (count, set_lock false d2)
        else Some (ret, set_lock false d1).

Definition rainbow_buzzer_write (env : kenv) (d : rainbow_gpio_dev)
    (count : Z) (user_freq : Z) : option (Z * rainbow_gpio_dev) :=
  match buzzer_trylock env d count with
  | Rejected ret => Some (ret, d)
  | Entered d1 => buzzer_locked env d1 count user_freq
  end.

(** The loop of rainbow_buttons_read over the GPIO lines of the buttons,
    [n] of them still to read from line [i] on; [gpiod_get_value i] is what
    line [i] reads.  Answers the negative value that ended the loop, or 0,
    and the status bytes stored so far. *)
Fixpoint read_button_gpios (n i : nat) (gpiod_get_value : nat -> Z)
    (button_status : string) : Z * string :=
  match n with
  | O => (0, button_status)
  | S n' =>
      let gpio_val := gpiod_get_value i in
      if gpio_val <? 0 then (gpio_val, button_status)
      else
        read_button_gpios n' (S i) gpiod_get_value
          (button_status
           ++ String (if negb (gpio_val =? 0) then "0"%char else "1"%char) "")
  end.

(** rainbow_buttons_read for a caller's buffer of [len] bytes: the value
    returned, the bytes copied to that buffer, and the file offset
    afterwards. *)
Definition rainbow_buttons_read (copy_to_user_ok : bool)
    (gpiod_get_value : nat -> Z) (len offset : Z) : Z * string * Z :=
  if len <? 3 then (- EINVAL, "", offset)
  else
    let '(ret, button_status) := read_button_gpios 3 0 gpiod_get_value "" in
    if ret <? 0 then (ret, "", offset)
    else if negb copy_to_user_ok then (- EFAULT, "", offset)
    else (3, button_status, offset + 3).

End Driver.

(** ** The kernel module: probing, removal, loading and unloading *)

Module Setup.
Import Errno.

Definition DEVICE_NAME_BUZZER : string := "rainbow_buzzer".
Definition DEVICE_NAME_BUTTON : string := "rainbow_buttons".
Definition DEVICE_NAME_LED : string := "rainbow_leds".

(** What the module has registered with the kernel. *)
Inductive registration :=
| MiscDevice (name : string)
| SpiDriver
| PlatformDriver.

Definition same_registration (x y : registration) : bool :=
  match x, y with
  | MiscDevice a, MiscDevice b => String.eqb a b
  | SpiDriver, SpiDriver => true
  | PlatformDriver, PlatformDriver => true
  | _, _ => false
  end.

(** The registrations in force and whether the SPI device and the platform
    device carry driver data. *)
Record kernel := {
  registered : list registration;
  spi_drvdata : bool;
  platform_drvdata : bool
}.

Definition register (x : registration) (k : kernel) : kernel :=
  {| registered := registered k ++ [x];
     spi_drvdata := spi_drvdata k;
     platform_drvdata := platform_drvdata k |}.

Definition unregister (x : registration) (k : kernel) : kernel :=
  {| registered :=
       filter (fun y => negb (same_registration x y)) (registered k);
     spi_drvdata := spi_drvdata k;
     platform_drvdata := platform_drvdata k |}.

(** What the kernel services used while probing answer: the allocation,
    [devm_gpiod_get_array] (the error code of an error pointer, 0 when the
    pointer is none, and then the number of lines found, [None] for a null
    pointer), [devm_pwm_get] (the error code of an error pointer, or 0)
    and the [misc_register] calls. *)
Record probe_env := {
  devm_kzalloc_ok : bool;
  gpiod_array_err : Z;
  gpiod_array_ndescs : option Z;
  pwm_get_err : Z;
  misc_leds_ret : Z;
  misc_buttons_ret : Z;
  misc_buzzer_ret : Z
}.

Definition rainbow_hat_spi_driver_probe (env : probe_env) (k : kernel)
    : Z * kernel :=
  if negb (devm_kzalloc_ok env) then (- ENOMEM, k)
  else
    let err := misc_leds_ret env in
    if negb (err =? 0) then (err, k)
    else
      let k1 := register (MiscDevice DEVICE_NAME_LED) k in
      (0, {| registered := registered k1; spi_drvdata := true;
             platform_drvdata := platform_drvdata k1 |}).

Definition rainbow_hat_spi_driver_remove (k : kernel) : kernel :=
  if spi_drvdata k then unregister (MiscDevice DEVICE_NAME_LED) k else k.

Definition rainbow_hat_platform_driver_probe (env : probe_env) (k : kernel)
    : Z * kernel :=
  if negb (devm_kzalloc_ok env) then (- ENOMEM, k)
  else if negb (gpiod_array_err env =? 0) then (gpiod_array_err env, k)
  else if match gpiod_array_ndescs env with
          | None => true
          | Some ndescs => negb (ndescs =? 3)
          end
  then (- EINVAL, k)
  else
    let ret := misc_buttons_ret env in
    if negb (ret =? 0) then (ret, k)
    else
      let k1 := register (MiscDevice DEVICE_NAME_BUTTON) k in
      if negb (pwm_get_err env =? 0) then (pwm_get_err env, k1)
      else
        let ret := misc_buzzer_ret env in
        if negb (ret =? 0) then (ret, k1)
        else
          let k2 := register (MiscDevice DEVICE_NAME_BUZZER) k1 in
          (0, {| registered := registered k2;
                 spi_drvdata := spi_drvdata k2;
                 platform_drvdata := true |}).

Definition rainbow_hat_platform_driver_remove (k : kernel) : Z * kernel :=
  if platform_drvdata k then
    (0, unregister (MiscDevice DEVICE_NAME_BUZZER)
          (unregister (MiscDevice DEVICE_NAME_BUTTON) k))
  else (0, k).

(** rainbow_init and rainbow_exit; [spi_register_ret] and
    [platform_register_ret] are what the two registrations answer. *)
Definition rainbow_init (spi_register_ret platform_register_ret : Z)
    (k : kernel) : Z * kernel :=
  let err := spi_register_ret in
  if negb (err =? 0) then (err, k)
  else
    let k1 := register SpiDriver k in
    let err := platform_register_ret in
    if negb (err =? 0) then (err, unregister SpiDriver k1)
    else (0, register PlatformDriver k1).

Definition rainbow_exit (k : kernel) : kernel :=
  unregister PlatformDriver (unregister SpiDriver k).

End Setup.

(** ** The timing arithmetic of metronome_led_sequence (user_space_app.c) *)

Module Metronome.
Import SpecFloat.

Definition INT_MIN : Z := -2147483648.
Definition INT_MAX : Z := 2147483647.

Record timespec := { tv_sec : Z; tv_nsec : Z }.

(** The macro elapsed_time_us; C's [/] truncates towards zero. *)
Definition elapsed_time_us (start end_ : timespec) : Z :=
  (tv_sec end_ - tv_sec start) * 1000000
  + Z.quot (tv_nsec end_ - tv_nsec start) 1000.

(** A C [double] is an IEEE 754 binary64 number: 53 bits of precision,
    exponents below 1024, results rounded to nearest even. *)
Definition prec : Z := 53.
Definition emax : Z := 1024.

(** Conversion of an [int] to [double]; exact, an [int] has 32 bits. *)
Definition double_of_int (n : Z) : spec_float :=
  binary_normalize prec emax n 0 false.

(** The cast [(int) x] of a [double]: the fraction is dropped; there is no
    result when the value is not finite or does not fit an [int]. *)
Definition int_of_double (x : spec_float) : option Z :=
  match x with
  | S754_zero _ => Some 0
  | S754_finite s m e =>
      let mag := if e >=? 0 then Z.pos m * 2 ^ e
                 else Z.pos m / 2 ^ (- e) in
      let v := if s then - mag else mag in
      if (INT_MIN <=? v) && (v <=? INT_MAX) then Some v else None
  | _ => None
  end.

(** [const int beat_duration_us = (int) (60.0 / bpm * 1000000);] *)
Definition beat_duration_us (bpm : Z) : option Z :=
  int_of_double
    (SFmul prec emax (SFdiv prec emax (double_of_int 60) (double_of_int bpm))
           (double_of_int 1000000)).

Definition adjusted_sleep_duration_us (beat_duration_us operation_time_us : Z)
    : Z :=
  beat_duration_us - operation_time_us.

(** The [usleep] calls that end a beat: one, when the adjusted duration is
    positive, none otherwise. *)
Definition beat_sleep (beat_duration_us operation_time_us : Z) : list Z :=
  let adjusted :=
    adjusted_sleep_duration_us beat_duration_us operation_time_us in
  if adjusted >? 0 then [adjusted] else [].

(** The microseconds a beat sleeps after its LED operations, for a tempo
    and the two clock readings taken around them. *)
Definition remaining_sleep (bpm : Z) (start_time end_time : timespec)
    : option Z :=
  beat <- beat_duration_us bpm ;;
  Some (fold_right Z.add 0
          (beat_sleep beat (elapsed_time_us start_time end_time))).

End Metronome.

(** ** One beat of metronome_led_sequence (user_space_app.c) *)

Module Sequencer.
Import CLib RainbowHat Metronome.

Definition sleep_duration_us : Z := 100000.

(** The macro slice: the entries of [src] from index [start] up to, not
    including, index [end_]. *)
Definition slice (src : list Z) (start end_ : nat) : list Z :=
  firstn (end_ - start) (skipn start src).

(** The argument of leds_on in beat 1, 2 or 3 of a bar: the colour and the
    pins the [switch] selects. *)
Definition beat_arg (beat : Z) (color_beat_1 color_beat_2 : string)
    : led_arg :=
  let current_color := if beat =? 1 then color_beat_1 else color_beat_2 in
  let '(current_pins, current_amount_pins) :=
    if beat =? 1 then (PIN_NUMBERS, MAX_AMOUNT_PINS)
    else if beat =? 2
    then (slice PIN_NUMBERS 4 (Z.to_nat MAX_AMOUNT_PINS), 3)
    else (slice PIN_NUMBERS 0 3, 3) in
  {| amount_colors := 1; colors := [current_color];
     amount_pins := current_amount_pins; pins := current_pins |}.

Section Beat.

Variable sys_write : list event -> Z -> payload -> Z.

(** What [clock_gettime(CLOCK_MONOTONIC, ...)] reads, given the calls made
    so far. *)
Variable clock_gettime : list event -> timespec.

(** The body of the [for] loop over the beats, for a handle whose function
    pointers are those set by init_rainbow_hat.  Answers 0 when the beat
    was played and -1 when it left for [err_exit], the new state, and the
    durations handed to [usleep], in order. *)
Definition metronome_beat (dev : dev_ptr) (beat_duration_us beat : Z)
    (color_beat_1 color_beat_2 : string) (w : world)
    : option (Z * world * list Z) :=
  let start_time := clock_gettime (trace w) in
  '(on, w1) <- led_light_on sys_write dev
                 (beat_arg beat color_beat_1 color_beat_2) w ;;
  if on <? 0 then
    Some (-1, log (EvStderr ("LEDs On Error: " ++ err_buff w1
                               ++ String "010" "")) w1, [])
  else
    '(off, w2) <- led_light_off sys_write dev w1 ;;
    if off <? 0 then
      Some (-1, log (EvStderr ("LEDs Off Error: " ++ err_buff w2
                                 ++ String "010" "")) w2,
            [sleep_duration_us])
    else
      let end_time := clock_gettime (trace w2) in
      let operation_time_us := elapsed_time_us start_time end_time in
      Some (0, w2,
            sleep_duration_us
            :: beat_sleep beat_duration_us operation_time_us).

End Beat.

End Sequencer.

(** ** One round of piano_simulation (user_space_app.c) *)

Module Piano.
Import CLib RainbowHat.

(** An [int] handed to a parameter of type [unsigned long] of [bits] bits. *)
Definition ulong_of_int (bits x : Z) : Z := x mod 2 ^ bits.

Section Round.

Variable sys_write : list event -> Z -> payload -> Z.
Variable sys_read : list event -> Z -> Z -> Z * string.

(** Width of [unsigned long]. *)
Variable ulong_bits : Z.

(** A call [dev->play_tone(dev, freq, err_buff)] of the loop with the check
    of its result; [label] is the text printed when it fails. *)
Definition round_tone (dev : dev_ptr) (freq : Z) (label : string)
    (active_btn : ascii) (w : world) : option (Z * ascii * world * list Z) :=
  '(r, w1) <- play_tone sys_write dev (ulong_of_int ulong_bits freq) w ;;
  if r <? 0 then
    Some (-1, active_btn,
          log (EvStderr (label ++ err_buff w1 ++ String "010" "")) w1, [])
  else Some (0, active_btn, w1, [10000]).

(** The body of the [while] loop, for a handle whose function pointers are
    those set by init_rainbow_hat.  Answers 0 when the round came to its
    end and -1 when it left for [err_exit], the byte in [active_btn], the
    new state, and the durations handed to [usleep]. *)
Definition piano_round (dev : dev_ptr) (freq_a freq_b freq_c : Z)
    (active_btn0 : ascii) (w : world)
    : option (Z * ascii * world * list Z) :=
  '(r, active_btn, w1) <- get_active_button sys_read dev active_btn0 w ;;
  if r <? 0 then
    Some (-1, active_btn,
          log (EvStderr ("Error reading Button data: " ++ err_buff w1
                           ++ String "010" "")) w1, [])
  else if negb (Ascii.eqb active_btn Ascii.zero) then
    if Ascii.eqb active_btn "A" then
      round_tone dev freq_a
        "Error playing tone associated with button A: " active_btn w1
    else if Ascii.eqb active_btn "B" then
      round_tone dev freq_b
        "Error playing tone associated with button B: " active_btn w1
    else if Ascii.eqb active_btn "C" then
      round_tone dev freq_c
        "Error playing tone associated with button C: " active_btn w1
    else Some (0, active_btn, w1, [10000])
  else
    round_tone dev 0 "Error muting buzzer: " active_btn w1.

End Round.

End Piano.

(** ** Two writers on the buzzer endpoint, in any interleaving *)

Module Schedule.
Import Errno Driver.

(** Where a writer stands in rainbow_buzzer_write: about to try the mutex,
    inside the locked part, or back with a return value. *)
Inductive writer :=
| Calling (freq : Z)
| Holding (freq : Z)
| Returned (ret : Z).

Record system := {
  device : rainbow_gpio_dev;
  first : writer;
  second : writer
}.

(** One move of a writer: the trylock, which never waits, or the locked
    part up to the return. *)
Definition move (env : kenv) (g : rainbow_gpio_dev) (t : writer)
    : option (rainbow_gpio_dev * writer) :=
  match t with
  | Calling freq =>
      match buzzer_trylock env g (sizeof_ulong env) with
      | Rejected ret => Some (g, Returned ret)
      | Entered g1 => Some (g1, Holding freq)
      end
  | Holding freq =>
      match buzzer_locked env g (sizeof_ulong env) freq with
      | Some (ret, g') => Some (g', Returned ret)
      | None => None
      end
  | Returned _ => None
  end.

Inductive step (env : kenv) : system -> system -> Prop :=
| step_first (s : system) (g : rainbow_gpio_dev) (t : writer) :
    move env (device s) (first s) = Some (g, t) ->
    step env s {| device := g; first := t; second := second s |}
| step_second (s : system) (g : rainbow_gpio_dev) (t : writer) :
    move env (device s) (second s) = Some (g, t) ->
    step env s {| device := g; first := first s; second := t |}.

Inductive reachable (env : kenv) (s0 : system) : system -> Prop :=
| reach_start : reachable env s0 s0
| reach_step (s s' : system) :
    reachable env s0 s -> step env s s' -> reachable env s0 s'.

Definition start (g : rainbow_gpio_dev) (freq1 freq2 : Z) : system :=
  {| device := g; first := Calling freq1; second := Calling freq2 |}.

(** The mutex is held exactly while one writer is inside, and never by
    both. *)
Definition exclusive (s : system) : Prop :=
  match first s, second s with
  | Holding _, Holding _ => False
  | Holding _, _ | _, Holding _ => lock (device s) = true
  | _, _ => lock (device s) = false
  end.

(** A writer that is back either wrote its [count] bytes or was turned away
    with -EBUSY while the other one was inside (and that one then wrote). *)
Definition settled (env : kenv) (t other : writer) : Prop :=
  match t with
  | Returned ret =>
      ret = sizeof_ulong env
      \/ (ret = - EBUSY
          /\ match other with
             | Calling _ => False
             | Holding _ => True
             | Returned ret' => ret' = sizeof_ulong env
             end)
  | _ => True
  end.

End Schedule.

(** ** Reference definitions the theorems compare the code with *)

Module Reference.
Import CLib RainbowHat.

(** Decode as the specification words it: scan A, B, C in that order and
    name the first pressed one, or answer the NUL sentinel. *)
Definition first_pressed (a b c : ascii) : ascii :=
  if Ascii.eqb a "1" then "A"%char
  else if Ascii.eqb b "1" then "B"%char
  else if Ascii.eqb c "1" then "C"%char
  else Ascii.zero.

(** The command text for [pins], position [idx] onwards, when the colour of
    position [k] is [color_at k]: one token per pin, comma separated. *)
Fixpoint led_text (idx : Z) (pins : list Z) (color_at : Z -> string)
    : string :=
  match pins with
  | [] => ""
  | p :: t => led_token idx p (color_at idx) ++ led_text (idx + 1) t color_at
  end.

(** The colour create_led_array pairs with position [k] of a command. *)
Definition color_of (a : led_arg) (k : Z) : string :=
  nth (Z.to_nat (color_index k (amount_pins a) (amount_colors a)))
      (colors a) "".

(** The pins a command lists: the first [amount_pins] entries of its array. *)
Definition listed_pins (a : led_arg) : list Z :=
  firstn (Z.to_nat (amount_pins a)) (pins a).

Definition command_text (a : led_arg) : string :=
  led_text 0 (listed_pins a) (color_of a).

(** The same command with the first colour on every listed pin. *)
Definition first_color_text (a : led_arg) : string :=
  led_text 0 (listed_pins a) (fun _ => nth 0 (colors a) "").

(** Both counts within [1, MAX_AMOUNT_PINS] and covered by the arrays they
    describe. *)
Definition counts_ok (a : led_arg) : Prop :=
  1 <= amount_pins a <= MAX_AMOUNT_PINS
  /\ 1 <= amount_colors a <= MAX_AMOUNT_PINS
  /\ amount_pins a <= Z.of_nat (List.length (pins a))
  /\ amount_colors a <= Z.of_nat (List.length (colors a)).

(** "pin:000000" for every pin 0 .. 6, comma separated. *)
Definition all_black_text : string :=
  String.concat ","
    (map (fun p => fmt_d (Z.of_nat p) ++ ":" ++ "000000") (seq 0 7)).

(** Every character of [s] passes the test [P]. *)
Fixpoint all_chars (P : ascii -> bool) (s : string) : bool :=
  match s with
  | EmptyString => true
  | String c s' => P c && all_chars P s'
  end.

(** Neither a colon nor NUL. *)
Definition plain_char (c : ascii) : bool :=
  negb (Ascii.eqb c ":") && negb (Ascii.eqb c Ascii.zero).





(** A hexadecimal digit, as hex_to_int recognises it. *)
Definition is_hex (c : ascii) : bool := 0 <=? Driver.hex_to_int c.

(** Exactly six hexadecimal digits. *)
Definition hex6 (s : string) : bool :=
  Nat.eqb (String.length s) 6 && all_chars is_hex s.

(** An entry of a command the driver takes: the pin is a LED number and
    the colour is six hexadecimal digits. *)
Definition entry_ok (p : Z) (c : string) : Prop :=
  0 <= p < Driver.NUMBER_LEDS /\ hex6 c = true.

(** An entry the driver refuses: the pin is no LED number, or the colour
    does not begin with six hexadecimal digits. *)
Definition entry_refused (p : Z) (c : string) : Prop :=
  ~ 0 <= p < Driver.NUMBER_LEDS \/ hex6 (substring 0 6 c) = false.

(** Length of the separator create_led_array puts before the token of
    position [idx]. *)
Definition sep_len (idx : Z) : nat := if idx >? 0 then 1 else 0.

(** Two writes to the buzzer that overlap: the first has taken the mutex
    when the second one runs from start to end, then the first finishes.
    Answers the two return values and the final device state. *)
Definition overlapping_buzzer_writes (env : Driver.kenv)
    (g : Driver.rainbow_gpio_dev) (freq1 freq2 : Z)
    : option (Z * Z * Driver.rainbow_gpio_dev) :=
  let count := Driver.sizeof_ulong env in
  match Driver.buzzer_trylock env g count with
  | Driver.Entered g1 =>
      '(ret2, g2) <- Driver.rainbow_buzzer_write env g1 count freq2 ;;
      '(ret1, g3) <- Driver.buzzer_locked env g2 count freq1 ;;
      Some (ret1, ret2, g3)
  | Driver.Rejected ret1 =>
      '(ret2, g2) <- Driver.rainbow_buzzer_write env g count freq2 ;;
      Some (ret1, ret2, g2)
  end.

(** The beat duration the code computes for [n] beats per minute is the
    integer quotient 60000000 / n. *)
Definition agrees_with_quotient (n : nat) : bool :=
  match Metronome.beat_duration_us (Z.of_nat n) with
  | Some v => v =? 60000000 / Z.of_nat n
  | None => false
  end.

(** The system call reports a failure whenever the driver behind the
    endpoint answered a negative value. *)
Definition failure_reaches_caller {A : Type}
    (driver_answer : option (Z * A)) (write_answer : Z) : Prop :=
  forall ret st, driver_answer = Some (ret, st) -> ret < 0 -> write_answer < 0.

(** An operation failed and said why: a negative value and a new text in
    the error buffer. *)
Definition fails_with_message (res : option (Z * world)) (w : world) : Prop :=
  exists ret w', res = Some (ret, w') /\ ret < 0 /\ err_buff w' <> err_buff w.

End Reference.

(** ** Colours as text and as table entries; what a command asks for *)

Module Encoding.
Import CLib RainbowHat Reference.
Import Driver.

(** The character of the hexadecimal digit [v], in upper or lower case. *)
Definition hex_digit (upper : bool) (v : Z) : ascii :=
  ascii_of_N
    (Z.to_N (if v <? 10 then code "0" + v
             else (if upper then code "A" else code "a") + (v - 10))).

(** A byte as two hexadecimal digits, and a colour as "RRGGBB". *)
Definition hex_byte (upper : bool) (v : Z) : string :=
  String (hex_digit upper (v / 16)) (String (hex_digit upper (v mod 16)) "").

Definition hex_color (upper : bool) (x : rgb_led) : string :=
  hex_byte upper (r x) ++ hex_byte upper (g x) ++ hex_byte upper (b x).

Definition is_byte (v : Z) : Prop := 0 <= v < 256.

(** The table entry parse_led_colors stores for the number parse_hex_color
    found, and for the colour text that number is read from. *)
Definition led_of_value (color : Z) : rgb_led :=
  {| r := Z.land (Z.shiftr color 16) 255;
     g := Z.land (Z.shiftr color 8) 255;
     b := Z.land color 255 |}.

Definition led_of_color (c : string) : rgb_led :=
  led_of_value (snd (parse_hex_color c 0)).

(** The LED table after the entries of a command were stored one after the
    other, position [idx] onwards. *)
Fixpoint apply_entries (idx : Z) (pins : list Z) (color_at : Z -> string)
    (leds : list rgb_led) : list rgb_led :=
  match pins with
  | [] => leds
  | p :: t =>
      apply_entries (idx + 1) t color_at
        (set_led (Z.to_nat p) (led_of_color (color_at idx)) leds)
  end.

(** Every entry of the command is one the driver takes. *)
Definition all_entries_ok (a : led_arg) : Prop :=
  forall k, (k < List.length (listed_pins a))%nat ->
            entry_ok (nth k (listed_pins a) 0) (color_of a (Z.of_nat k)).

(** The byte of a button state at position [i]: what the read stored
    there, or the '0' the buffer held before. *)
Definition state_at (data : string) (i : nat) : ascii :=
  match String.get i (substring 0 3 data) with
  | Some c => c
  | None => "0"%char
  end.

(** The status byte rainbow_buttons_read stores for a line: '1' when the
    line reads 0. *)
Definition status_char (gpio_val : Z) : ascii :=
  if gpio_val =? 0 then "1"%char else "0"%char.

(** The first button whose line reads 0, the lines being active low. *)
Definition first_low (gpiod_get_value : nat -> Z) : ascii :=
  if gpiod_get_value 0%nat =? 0 then "A"%char
  else if gpiod_get_value 1%nat =? 0 then "B"%char
  else if gpiod_get_value 2%nat =? 0 then "C"%char
  else Ascii.zero.

(** The frequency a round of the piano plays for the button found. *)
Definition tone_for (freq_a freq_b freq_c : Z) (btn : ascii) : Z :=
  if Ascii.eqb btn "A" then freq_a
  else if Ascii.eqb btn "B" then freq_b
  else if Ascii.eqb btn "C" then freq_c
  else 0.

End Encoding.

(** ** Sample inputs *)

Module Sample.
Import CLib RainbowHat.

Definition w0 : world := {| LED_ARRAY := ""; err_buff := ""; trace := [] |}.

Definition dev345 : rainbow_hat_dev :=
  {| leds_fd := 3; buttons_fd := 4; buzzer_fd := 5 |}.

(** An endpoint that takes whatever is written to it. *)
Definition write_accepts (tr : list event) (fd : Z) (p : payload) : Z :=
  match p with
  | Text s => strlen s
  | ULong _ => 8
  end.

(** An endpoint whose writes fail with EBUSY. *)
Definition write_busy (tr : list event) (fd : Z) (p : payload) : Z :=
  - Errno.EBUSY.

(** A button endpoint reporting all three buttons pressed. *)
Definition read_all_pressed (tr : list event) (fd n : Z) : Z * string :=
  (3, "111").

Definition one_led (pin : Z) (color : string) : led_arg :=
  {| amount_colors := 1; colors := [color]; amount_pins := 1; pins := [pin] |}.

(** Pin 0, then pin 7, both red. *)
Definition zero_then_seven : led_arg :=
  {| amount_colors := 1; colors := ["FF0000"];
     amount_pins := 2; pins := [0; 7] |}.



(** Seven large pin numbers with two colours. *)
Definition wide_pins : led_arg :=
  {| amount_colors := 2; colors := ["FF0000"; "00FF00"];
     amount_pins := 7;
     pins := [1000000; 1000000; 1000000; 1000000; 1000000; 1000000; 1000000] |}.

(** Three pins with two colours. *)
Definition three_pins_two_colors : led_arg :=
  {| amount_colors := 2; colors := ["FF0000"; "00FF00"];
     amount_pins := 3; pins := [1; 2; 3] |}.

(** A 64-bit kernel whose services all succeed. *)
Definition env_ok : Driver.kenv :=
  {| Driver.sizeof_ulong := 8; Driver.kmalloc_ok := true;
     Driver.lock_interrupted := false; Driver.copy_from_user_ok := true;
     Driver.spi_sync_ret := 0; Driver.pwm_config_ret := 0 |}.

Definition buzzer_idle : Driver.rainbow_gpio_dev :=
  {| Driver.lock := false; Driver.pwm := [] |}.

Definition leds_dark : Driver.rainbow_spi_dev :=
  {| Driver.leds := repeat {| Driver.r := 0; Driver.g := 0; Driver.b := 0 |} 7;
     Driver.spi := true; Driver.frames := [] |}.


(** Pin 1 in red, pin 2 in green, then pin 1 again in blue. *)
Definition one_two_one : led_arg :=
  {| amount_colors := 3; colors := ["FF0000"; "00ff00"; "0000FF"];
     amount_pins := 3; pins := [1; 2; 1] |}.

(** A LED table in which every entry is grey. *)
Definition leds_grey : Driver.rainbow_spi_dev :=
  {| Driver.leds := repeat {| Driver.r := 9; Driver.g := 9; Driver.b := 9 |} 7;
     Driver.spi := true; Driver.frames := [] |}.

(** A button endpoint that stores two bytes only: A released, B pressed. *)
Definition read_two_bytes (tr : list event) (fd n : Z) : Z * string :=
  (2, "01").

(** Button lines on which only the line of B reads 0. *)
Definition lines_b_low (i : nat) : Z := if Nat.eqb i 1 then 0 else 1.

(** A button endpoint that answers what rainbow_buttons_read answers for
    those lines. *)
Definition read_b_low (tr : list event) (fd n : Z) : Z * string :=
  fst (Driver.rainbow_buttons_read true lines_b_low n 0).

(** A clock that advances by one second with every call made. *)
Definition clock_by_calls (tr : list event) : Metronome.timespec :=
  {| Metronome.tv_sec := Z.of_nat (List.length tr); Metronome.tv_nsec := 0 |}.

(** Nothing registered yet, no driver data attached. *)
Definition kernel_fresh : Setup.kernel :=
  {| Setup.registered := []; Setup.spi_drvdata := false;
     Setup.platform_drvdata := false |}.

(** Probing where everything succeeds, and where the PWM cannot be had. *)
Definition probe_ok : Setup.probe_env :=
  {| Setup.devm_kzalloc_ok := true; Setup.gpiod_array_err := 0;
     Setup.gpiod_array_ndescs := Some 3;
     Setup.pwm_get_err := 0; Setup.misc_leds_ret := 0;
     Setup.misc_buttons_ret := 0; Setup.misc_buzzer_ret := 0 |}.

Definition probe_no_pwm : Setup.probe_env :=
  {| Setup.devm_kzalloc_ok := true; Setup.gpiod_array_err := 0;
     Setup.gpiod_array_ndescs := Some 3;
     Setup.pwm_get_err := - Errno.ENODEV; Setup.misc_leds_ret := 0;
     Setup.misc_buttons_ret := 0; Setup.misc_buzzer_ret := 0 |}.

End Sample.

(** ** Facts about the user-space library *)

Module RainbowHatFacts.
Import CLib Errno RainbowHat Reference.

Lemma strlen_app (a b : string) : strlen (a ++ b) = strlen a + strlen b.
Proof.
  unfold strlen. induction a as [|c a IH]; simpl String.length.
  - reflexivity.
  - rewrite !Nat2Z.inj_succ. lia.
Qed.

Lemma strlen_nonneg (s : string) : 0 <= strlen s.
Proof. unfold strlen. lia. Qed.

Lemma append_assoc (a b c : string) : (a ++ b) ++ c = a ++ (b ++ c).
Proof. induction a as [|x a IH]; simpl; [reflexivity | now rewrite IH]. Qed.

Lemma append_empty_r (a : string) : a ++ "" = a.
Proof. induction a as [|x a IH]; simpl; [reflexivity | now rewrite IH]. Qed.

Lemma substring_length_le (n : nat) (s : string) :
  (String.length (substring 0 n s) <= String.length s)%nat.
Proof.
  revert s. induction n as [|n IH]; intros [|c s]; simpl; try lia.
  specialize (IH s). lia.
Qed.

Lemma substring_short (n : nat) (s : string) :
  (String.length s <= n)%nat -> substring 0 n s = s.
Proof.
  revert s. induction n as [|n IH]; intros [|c s]; simpl; intros H;
    try reflexivity; try lia.
  rewrite IH by lia. reflexivity.
Qed.

(** A message that fits the error buffer is stored whole, newline added, and
    nothing else changes. *)
Lemma write_error_fits (msg : string) (w : world) :
  strlen msg + 1 < ERR_BUF_SIZE ->
  write_error msg w = (0, set_err_buff (msg ++ String "010" "") w).
Proof.
  intros H. unfold write_error, snprintf.
  assert (L : strlen (msg ++ String "010" "") = strlen msg + 1)
    by (rewrite strlen_app; reflexivity).
  rewrite L.
  destruct (Z.ltb_spec (strlen msg + 1) 0) as [H0|_].
  { pose proof (strlen_nonneg msg). lia. }
  destruct (Z.geb_spec (strlen msg + 1) ERR_BUF_SIZE) as [H1|_]; [lia|].
  rewrite substring_short; [reflexivity|].
  unfold strlen, ERR_BUF_SIZE in *. lia.
Qed.

(** What set_leds does on an open descriptor: one write of [LED_ARRAY], the
    value -1 exactly when that write answers a negative number, and then a
    message in the error buffer. *)
Lemma set_leds_open sw (fd : Z) (w : world) :
  0 <= fd ->
  exists w',
    set_leds sw fd w
    = ((if sw (trace w) fd (Text (LED_ARRAY w)) <? 0 then -1 else 0), w')
    /\ LED_ARRAY w' = LED_ARRAY w
    /\ trace w' = (trace w ++ [EvWrite fd (Text (LED_ARRAY w))])%list
    /\ (0 <= sw (trace w) fd (Text (LED_ARRAY w)) -> err_buff w' = err_buff w)
    /\ (sw (trace w) fd (Text (LED_ARRAY w)) < 0 ->
        exists m, err_buff w' = "LED-Device: " ++ m).
Proof.
  intros Hfd. unfold set_leds.
  destruct (Z.geb_spec fd 0) as [_|]; [|lia].
  set (bw := sw (trace w) fd (Text (LED_ARRAY w))).
  destruct (Z.ltb_spec bw 0) as [Hneg|Hpos].
  - eexists. split; [reflexivity|].
    repeat match goal with
           | |- context [if ?c then _ else _] => destruct c
           end;
      rewrite write_error_fits by (vm_compute; reflexivity);
      simpl; (repeat split; try reflexivity; try lia; intros _; eexists; reflexivity).
  - eexists. split; [reflexivity|]. simpl.
    repeat split; try reflexivity; try lia.
Qed.

Lemma set_leds_closed sw (fd : Z) (w : world) :
  fd < 0 -> set_leds sw fd w = (-1, w).
Proof.
  intros H. unfold set_leds. destruct (Z.geb_spec fd 0); [lia|reflexivity].
Qed.

(** The position of the colour is always inside the colour array. *)
Lemma color_index_range (k al ac : Z) :
  0 <= k -> 1 <= ac -> 0 <= color_index k al ac < ac.
Proof.
  intros Hk Hac. unfold color_index.
  destruct ((ac =? 1) || (ac =? al)); lia.
Qed.

(** The loop of create_led_array appends the tokens one by one as long as
    the text stays below LED_ARRAY_SIZE. *)
Lemma led_array_loop_fits (al ac : Z) (hc : list string)
    (color_at : Z -> string) (ps : list Z) :
  forall (pre rest : list Z) (idx : Z) (arr : string),
    idx = Z.of_nat (List.length pre) ->
    (forall k, idx <= k < idx + Z.of_nat (List.length ps) ->
               nth_error hc (Z.to_nat (color_index k al ac))
               = Some (color_at k)) ->
    strlen arr + strlen (led_text idx ps color_at) < LED_ARRAY_SIZE ->
    led_array_loop (List.length ps) idx (pre ++ ps ++ rest)%list al hc ac arr
    = Some (0, arr ++ led_text idx ps color_at).
Proof.
  induction ps as [|p ps IH]; intros pre rest idx arr Hidx Hcol Hlen.
  - simpl. now rewrite append_empty_r.
  - simpl List.length in *. cbn [led_array_loop].
    assert (Hp : nth_error (pre ++ (p :: ps) ++ rest)%list (Z.to_nat idx) = Some p).
    { subst idx. rewrite Nat2Z.id. rewrite nth_error_app2 by lia.
      now rewrite Nat.sub_diag. }
    rewrite Hp. rewrite Hcol by lia.
    simpl led_text in Hlen. rewrite strlen_app in Hlen.
    pose proof (strlen_nonneg (led_text (idx + 1) ps color_at)).
    destruct (Z.geb_spec (strlen arr + strlen (led_token idx p (color_at idx)))
                LED_ARRAY_SIZE) as [Hge|_]; [lia|].
    replace (pre ++ (p :: ps) ++ rest)%list with ((pre ++ [p]) ++ ps ++ rest)%list
      by (now rewrite <- app_assoc).
    rewrite (IH (pre ++ [p])%list rest (idx + 1)).
    + simpl led_text. now rewrite append_assoc.
    + rewrite length_app. simpl. lia.
    + intros k Hk. apply Hcol. lia.
    + rewrite strlen_app. lia.
Qed.

(** ... and leaves with -2 as soon as it would not. *)
Lemma led_array_loop_overflow (al ac : Z) (hc : list string)
    (color_at : Z -> string) (ps : list Z) :
  forall (pre rest : list Z) (idx : Z) (arr : string),
    idx = Z.of_nat (List.length pre) ->
    (forall k, idx <= k < idx + Z.of_nat (List.length ps) ->
               nth_error hc (Z.to_nat (color_index k al ac))
               = Some (color_at k)) ->
    strlen arr < LED_ARRAY_SIZE ->
    LED_ARRAY_SIZE <= strlen arr + strlen (led_text idx ps color_at) ->
    exists arr',
      led_array_loop (List.length ps) idx (pre ++ ps ++ rest)%list al hc ac arr
      = Some (-2, arr').
Proof.
  induction ps as [|p ps IH]; intros pre rest idx arr Hidx Hcol Harr Hlen.
  - simpl in Hlen. change (strlen "") with 0 in Hlen. lia.
  - simpl List.length in *. cbn [led_array_loop].
    assert (Hp : nth_error (pre ++ (p :: ps) ++ rest)%list (Z.to_nat idx) = Some p).
    { subst idx. rewrite Nat2Z.id. rewrite nth_error_app2 by lia.
      now rewrite Nat.sub_diag. }
    rewrite Hp. rewrite Hcol by lia.
    simpl led_text in Hlen. rewrite strlen_app in Hlen.
    destruct (Z.geb_spec (strlen arr + strlen (led_token idx p (color_at idx)))
                LED_ARRAY_SIZE) as [Hge|Hlt].
    + eexists. reflexivity.
    + replace (pre ++ (p :: ps) ++ rest)%list with ((pre ++ [p]) ++ ps ++ rest)%list
        by (now rewrite <- app_assoc).
      apply (IH (pre ++ [p])%list rest (idx + 1)).
      * rewrite length_app. simpl. lia.
      * intros k Hk. apply Hcol. lia.
      * rewrite strlen_app. lia.
      * rewrite strlen_app. lia.
Qed.


Lemma color_of_lookup (a : led_arg) (k : Z) :
  counts_ok a -> 0 <= k ->
  nth_error (colors a)
    (Z.to_nat (color_index k (amount_pins a) (amount_colors a)))
  = Some (color_of a k).
Proof.
  intros (_ & Hc & _ & Hlc) Hk. unfold color_of.
  apply nth_error_nth'.
  pose proof (color_index_range k (amount_pins a) (amount_colors a)). lia.
Qed.

Lemma listed_pins_length (a : led_arg) :
  counts_ok a -> List.length (listed_pins a) = Z.to_nat (amount_pins a).
Proof.
  intros (_ & _ & Hlp & _). unfold listed_pins.
  rewrite length_firstn. lia.
Qed.

Lemma split_pins (a : led_arg) :
  pins a
  = (listed_pins a ++ skipn (Z.to_nat (amount_pins a)) (pins a))%list.
Proof. unfold listed_pins. now rewrite firstn_skipn. Qed.

(** create_led_array answers 0 and leaves the command text in [LED_ARRAY]
    whenever the counts are in range and the text is shorter than the
    buffer; pin values and colour strings are not looked at. *)
Lemma create_led_array_fits (a : led_arg) (w : world) :
  counts_ok a ->
  strlen (command_text a) < LED_ARRAY_SIZE ->
  create_led_array (pins a) (amount_pins a) (colors a) (amount_colors a) w
  = Some (0, set_LED_ARRAY (command_text a) w).
Proof.
  intros Hok Hlen. pose proof Hok as (Hp & Hc & Hlp & Hlc).
  unfold create_led_array, MAX_AMOUNT_PINS in *.
  destruct (Z.gtb_spec (amount_pins a) 7); [lia|].
  destruct (Z.gtb_spec (amount_colors a) 7); [lia|].
  destruct (Z.leb_spec (amount_pins a) 0); [lia|].
  destruct (Z.leb_spec (amount_colors a) 0); [lia|].
  cbn [orb].
  pose proof (led_array_loop_fits (amount_pins a) (amount_colors a) (colors a)
                (color_of a) (listed_pins a) []
                (skipn (Z.to_nat (amount_pins a)) (pins a)) 0 "") as E.
  cbn [app] in E. rewrite <- (split_pins a) in E.
  rewrite (listed_pins_length a Hok) in E.
  rewrite E; [reflexivity | reflexivity | | exact Hlen].
  intros k Hk. apply color_of_lookup; [exact Hok | lia].
Qed.

Lemma create_led_array_overflow (a : led_arg) (w : world) :
  counts_ok a ->
  LED_ARRAY_SIZE <= strlen (command_text a) ->
  exists w',
    create_led_array (pins a) (amount_pins a) (colors a) (amount_colors a) w
    = Some (-2, w').
Proof.
  intros Hok Hlen. pose proof Hok as (Hp & Hc & Hlp & Hlc).
  unfold create_led_array, MAX_AMOUNT_PINS in *.
  destruct (Z.gtb_spec (amount_pins a) 7); [lia|].
  destruct (Z.gtb_spec (amount_colors a) 7); [lia|].
  destruct (Z.leb_spec (amount_pins a) 0); [lia|].
  destruct (Z.leb_spec (amount_colors a) 0); [lia|].
  cbn [orb].
  destruct (led_array_loop_overflow (amount_pins a) (amount_colors a)
              (colors a) (color_of a) (listed_pins a) []
              (skipn (Z.to_nat (amount_pins a)) (pins a)) 0 "")
    as [arr' Harr].
  - reflexivity.
  - intros k Hk. apply color_of_lookup; [exact Hok | lia].
  - reflexivity.
  - exact Hlen.
  - cbn [app] in Harr. rewrite <- (split_pins a) in Harr.
    rewrite (listed_pins_length a Hok) in Harr.
    rewrite Harr. eexists. reflexivity.
Qed.

Lemma create_led_array_bad_counts (a : led_arg) (w : world) :
  amount_pins a < 1 \/ MAX_AMOUNT_PINS < amount_pins a
  \/ amount_colors a < 1 \/ MAX_AMOUNT_PINS < amount_colors a ->
  exists w',
    create_led_array (pins a) (amount_pins a) (colors a) (amount_colors a) w
    = Some (-1, w')
    /\ LED_ARRAY w' = LED_ARRAY w /\ err_buff w' = err_buff w.
Proof.
  intros H. unfold create_led_array, MAX_AMOUNT_PINS in *.
  destruct (Z.gtb_spec (amount_pins a) 7);
    destruct (Z.gtb_spec (amount_colors a) 7);
    destruct (Z.leb_spec (amount_pins a) 0);
    destruct (Z.leb_spec (amount_colors a) 0);
    cbn [orb]; try lia; eexists; repeat split.
Qed.

(** led_light_on on a live handle: once create_led_array has answered 0 the
    outcome is that of set_leds. *)
Lemma led_light_on_fits sw (d : rainbow_hat_dev) (a : led_arg) (w : world) :
  counts_ok a ->
  strlen (command_text a) < LED_ARRAY_SIZE ->
  led_light_on sw (Live d) a w
  = Some (set_leds sw (leds_fd d) (set_LED_ARRAY (command_text a) w)).
Proof.
  intros Hok Hlen. unfold led_light_on.
  rewrite (create_led_array_fits a w Hok Hlen). reflexivity.
Qed.

Lemma led_text_ext (f g : Z -> string) (ps : list Z) :
  forall idx, (forall k, idx <= k -> f k = g k) ->
              led_text idx ps f = led_text idx ps g.
Proof.
  induction ps as [|p ps IH]; intros idx H; simpl; [reflexivity|].
  rewrite (H idx) by lia. rewrite (IH (idx + 1)); [reflexivity|].
  intros k Hk. apply H. lia.
Qed.

Lemma fmt_d_small (p : Z) : 0 <= p < 7 -> String.length (fmt_d p) = 1%nat.
Proof.
  intros H.
  assert (C : p = 0 \/ p = 1 \/ p = 2 \/ p = 3 \/ p = 4 \/ p = 5 \/ p = 6)
    by lia.
  destruct C as [->|[->|[->|[->|[->|[->| ->]]]]]]; reflexivity.
Qed.

Lemma string_length_app (a b : string) :
  String.length (a ++ b) = (String.length a + String.length b)%nat.
Proof. induction a as [|c a IH]; simpl; [reflexivity | now rewrite IH]. Qed.

Lemma led_token_small (idx p : Z) (c : string) :
  0 <= p < 7 -> String.length c = 6%nat -> strlen (led_token idx p c) <= 9.
Proof.
  intros Hp Hc. unfold led_token, snprintf, snd, strlen.
  set (full := (if idx >? 0 then "," else "") ++ fmt_d p ++ ":" ++ c).
  pose proof (substring_length_le (20 - 1) full) as L.
  assert (F : (String.length full <= 9)%nat).
  { unfold full. rewrite !string_length_app, (fmt_d_small p Hp), Hc.
    destruct (idx >? 0); simpl; lia. }
  lia.
Qed.

Lemma led_text_small (c : string) (ps : list Z) :
  Forall (fun p => 0 <= p < 7) ps -> String.length c = 6%nat ->
  forall idx, strlen (led_text idx ps (fun _ => c))
              <= 9 * Z.of_nat (List.length ps).
Proof.
  intros Hps Hc. induction Hps as [|p ps Hp _ IH]; intros idx.
  - simpl. unfold strlen. simpl. lia.
  - simpl led_text. rewrite strlen_app. simpl List.length.
    pose proof (led_token_small idx p c Hp Hc). specialize (IH (idx + 1)). lia.
Qed.

End RainbowHatFacts.

(** ** The library: decoding the buttons, tones, clearing the LEDs, closing *)

Module LibraryProperties.
Import CLib Errno RainbowHat Reference Sample RainbowHatFacts.

(** C4.  For every three-character button state read from the button
    endpoint, get_active_button scans the positions of A, B and C in that
    order and answers the name of the first one holding '1', or the NUL
    sentinel when none does; with all three pressed the answer is 'A'. *)
Theorem get_active_button_first_pressed :
  forall sr (d : rainbow_hat_dev) (b0 a b c : ascii) (w : world) (result : Z),
    0 <= buttons_fd d ->
    sr (trace w) (buttons_fd d) 3
    = (result, String a (String b (String c ""))) ->
    0 <= result ->
    get_active_button sr (Live d) b0 w
    = Some (0, first_pressed a b c, log (EvRead (buttons_fd d) 3) w)
    /\ (a = "1"%char -> b = "1"%char -> c = "1"%char ->
        get_active_button sr (Live d) b0 w
        = Some (0, "A"%char, log (EvRead (buttons_fd d) 3) w)).
Proof.
  intros sr d b0 a b c w result Hfd Hread Hres.
  assert (E : get_active_button sr (Live d) b0 w
              = Some (0, first_pressed a b c, log (EvRead (buttons_fd d) 3) w)).
  { unfold get_active_button.
    destruct (Z.geb_spec (buttons_fd d) 0) as [_|]; [|lia].
    rewrite Hread.
    destruct (Z.ltb_spec result 0) as [|_]; [lia|].
    unfold first_pressed. cbn.
    destruct (Ascii.eqb a "1"); [reflexivity|].
    destruct (Ascii.eqb b "1"); [reflexivity|].
    destruct (Ascii.eqb c "1"); reflexivity. }
  split; [exact E|].
  intros -> -> ->. exact E.
Qed.

Lemma get_active_button_first_pressed_witness :
  0 <= buttons_fd dev345
  /\ read_all_pressed (trace w0) (buttons_fd dev345) 3 = (3, "111")
  /\ 0 <= 3
  /\ get_active_button read_all_pressed (Live dev345) "x" w0
     = Some (0, "A"%char, log (EvRead 4 3) w0).
Proof.
  split; [vm_compute; discriminate|].
  split; [reflexivity|].
  split; [lia|].
  refine (proj2 (get_active_button_first_pressed read_all_pressed dev345 "x"
                   "1" "1" "1" w0 3 _ eq_refl _) eq_refl eq_refl eq_refl);
    [vm_compute; discriminate | lia].
Defined.

(** C2 (the code departs from it).  On an open buzzer descriptor play_tone
    stores the truth value of [write(...) < 0] in [bytes_written]; after a
    failed write it therefore answers 0 and leaves the error buffer as it
    was. *)
Theorem play_tone_after_failed_write :
  forall sw (d : rainbow_hat_dev) (frequency : Z) (w : world),
    0 <= buzzer_fd d ->
    sw (trace w) (buzzer_fd d) (ULong frequency) < 0 ->
    exists w',
      play_tone sw (Live d) frequency w = Some (0, w')
      /\ err_buff w' = err_buff w.
Proof.
  intros sw d f w Hfd Hneg. unfold play_tone.
  destruct (Z.geb_spec (buzzer_fd d) 0) as [_|]; [|lia].
  destruct (Z.ltb_spec (sw (trace w) (buzzer_fd d) (ULong f)) 0) as [_|];
    [|lia].
  cbn. eexists. split; reflexivity.
Qed.

Lemma play_tone_after_failed_write_witness :
  0 <= buzzer_fd dev345
  /\ write_busy (trace w0) (buzzer_fd dev345) (ULong 440) < 0
  /\ exists w',
       play_tone write_busy (Live dev345) 440 w0 = Some (0, w')
       /\ err_buff w' = err_buff w0.
Proof.
  split; [vm_compute; discriminate|].
  split; [reflexivity|].
  apply (play_tone_after_failed_write write_busy dev345 440 w0);
    [vm_compute; discriminate | reflexivity].
Defined.

Lemma all_black_command :
  command_text {| amount_colors := 1; colors := [COL_BLACK];
                  amount_pins := MAX_AMOUNT_PINS; pins := PIN_NUMBERS |}
  = all_black_text.
Proof. reflexivity. Qed.

Lemma led_light_off_live sw (d : rainbow_hat_dev) (w : world) :
  led_light_off sw (Live d) w
  = Some (set_leds sw (leds_fd d) (set_LED_ARRAY all_black_text w)).
Proof.
  unfold led_light_off. rewrite led_light_on_fits.
  - now rewrite all_black_command.
  - repeat split; vm_compute; discriminate.
  - rewrite all_black_command. reflexivity.
Qed.

(** C6.  led_light_off is led_light_on with the seven pins 0 .. 6 and the
    single colour "000000".  Whatever [LED_ARRAY] held before, the command
    it encodes is the all-black text naming every pin, so two successive
    calls encode, and on an open descriptor write, the same text twice. *)
Theorem led_light_off_all_black_idempotent :
  forall sw (d : rainbow_hat_dev) (w : world),
    led_light_off sw (Live d) w
    = led_light_on sw (Live d)
        {| amount_colors := 1; colors := ["000000"];
           amount_pins := 7; pins := [0; 1; 2; 3; 4; 5; 6] |} w
    /\ all_black_text
       = "0:000000,1:000000,2:000000,3:000000,4:000000,5:000000,6:000000"
    /\ exists r1 w1 r2 w2,
         led_light_off sw (Live d) w = Some (r1, w1)
         /\ led_light_off sw (Live d) w1 = Some (r2, w2)
         /\ LED_ARRAY w1 = all_black_text
         /\ LED_ARRAY w2 = all_black_text
         /\ (0 <= leds_fd d ->
             trace w2
             = (trace w ++ [EvWrite (leds_fd d) (Text all_black_text);
                            EvWrite (leds_fd d) (Text all_black_text)])%list).
Proof.
  intros sw d w. split; [reflexivity|]. split; [reflexivity|].
  rewrite led_light_off_live.
  destruct (Z.lt_ge_cases (leds_fd d) 0) as [Hclosed|Hopen].
  - rewrite set_leds_closed by exact Hclosed.
    do 4 eexists. split; [reflexivity|].
    rewrite led_light_off_live, set_leds_closed by exact Hclosed.
    split; [reflexivity|]. repeat split. lia.
  - destruct (set_leds_open sw (leds_fd d) (set_LED_ARRAY all_black_text w)
                Hopen) as (w1 & E1 & L1 & T1 & _).
    destruct (set_leds_open sw (leds_fd d) (set_LED_ARRAY all_black_text w1)
                Hopen) as (w2 & E2 & L2 & T2 & _).
    rewrite E1. do 4 eexists. split; [reflexivity|].
    rewrite led_light_off_live, E2. split; [reflexivity|].
    split; [exact L1|]. split; [exact L2|].
    intros _. rewrite T2. cbn [set_LED_ARRAY trace LED_ARRAY].
    rewrite T1. cbn [set_LED_ARRAY trace LED_ARRAY].
    now rewrite <- app_assoc.
Qed.

Lemma led_light_off_all_black_idempotent_witness :
  0 <= leds_fd dev345
  /\ exists r1 w1 r2 w2,
       led_light_off write_accepts (Live dev345) w0 = Some (r1, w1)
       /\ led_light_off write_accepts (Live dev345) w1 = Some (r2, w2)
       /\ LED_ARRAY w1 = all_black_text
       /\ LED_ARRAY w2 = all_black_text
       /\ (0 <= leds_fd dev345 ->
           trace w2
           = (trace w0 ++ [EvWrite (leds_fd dev345) (Text all_black_text);
                           EvWrite (leds_fd dev345) (Text all_black_text)])%list).
Proof.
  split; [vm_compute; discriminate|].
  exact (proj2 (proj2 (led_light_off_all_black_idempotent
                         write_accepts dev345 w0))).
Defined.


Lemma close_fd_negative (fd : Z) (w : world) : fst (close_fd fd w) < 0.
Proof.
  unfold close_fd. destruct (Z.geb_spec fd 0); simpl; lia.
Qed.

Lemma close_endpoints_negative (d : rainbow_hat_dev) (w : world) :
  leds_fd (fst (close_endpoints d w)) < 0
  /\ buttons_fd (fst (close_endpoints d w)) < 0
  /\ buzzer_fd (fst (close_endpoints d w)) < 0.
Proof.
  unfold close_endpoints.
  pose proof (close_fd_negative (leds_fd d) w) as H1.
  destruct (close_fd (leds_fd d) w) as [l w1].
  pose proof (close_fd_negative (buttons_fd d) w1) as H2.
  destruct (close_fd (buttons_fd d) w1) as [b w2].
  pose proof (close_fd_negative (buzzer_fd d) w2) as H3.
  destruct (close_fd (buzzer_fd d) w2) as [z w3].
  simpl in *. lia.
Qed.

Lemma close_endpoints_trace (d : rainbow_hat_dev) (w : world) :
  trace (snd (close_endpoints d w))
  = (trace w
     ++ map EvClose (filter (fun fd => fd >=? 0)
                       [leds_fd d; buttons_fd d; buzzer_fd d]))%list.
Proof.
  unfold close_endpoints, close_fd. cbn [filter].
  destruct (leds_fd d >=? 0), (buttons_fd d >=? 0), (buzzer_fd d >=? 0);
    cbn [snd log trace map]; rewrite <- ?app_assoc; cbn [app];
    rewrite ?app_nil_r; reflexivity.
Qed.

(** C9, as the code has it.  free_rainbow_hat closes every open descriptor,
    sets it to -1 and releases the object; the caller's pointer is left
    dangling and there is no Closed error.  Using the released handle is
    undefined (led_light_on may still answer -1 for bad counts, before it
    touches the handle).  On a handle whose descriptors are the ones close
    left behind, every operation answers -1 without any I/O, and play_tone,
    get_active_button and led_light_off leave the error buffer untouched. *)
Theorem operations_after_free_rainbow_hat :
  forall sw sr (d : rainbow_hat_dev) (w : world),
    free_rainbow_hat (Live d) w = Some (Freed, snd (close_endpoints d w))
    /\ trace (snd (close_endpoints d w))
       = (trace w
          ++ map EvClose (filter (fun fd => fd >=? 0)
                            [leds_fd d; buttons_fd d; buzzer_fd d]))%list
    /\ (leds_fd (fst (close_endpoints d w)) < 0
        /\ buttons_fd (fst (close_endpoints d w)) < 0
        /\ buzzer_fd (fst (close_endpoints d w)) < 0)
    /\ (forall (f : Z) (b0 : ascii) (w2 : world),
          led_light_off sw Freed w2 = None
          /\ play_tone sw Freed f w2 = None
          /\ get_active_button sr Freed b0 w2 = None)
    /\ (forall (a : led_arg) (w2 : world),
          led_light_on sw Freed a w2 = None
          \/ exists w3, led_light_on sw Freed a w2 = Some (-1, w3))
    /\ (forall (f : Z) (b0 : ascii) (w2 : world),
          play_tone sw (Live (fst (close_endpoints d w))) f w2 = Some (-1, w2)
          /\ get_active_button sr (Live (fst (close_endpoints d w))) b0 w2
             = Some (-1, Ascii.zero, w2)
          /\ led_light_off sw (Live (fst (close_endpoints d w))) w2
             = Some (-1, set_LED_ARRAY all_black_text w2))
    /\ (forall (a : led_arg) (w2 w3 : world) (ret : Z),
          led_light_on sw (Live (fst (close_endpoints d w))) a w2
          = Some (ret, w3) ->
          ret = -1
          /\ (trace w3 = trace w2
              \/ exists s, trace w3 = (trace w2 ++ [EvStdout s])%list)).
Proof.
  intros sw sr d w.
  pose proof (close_endpoints_negative d w) as (Hl & Hb & Hz).
  set (d' := fst (close_endpoints d w)) in *.
  split; [reflexivity|].
  split; [apply close_endpoints_trace|]. split; [auto|].
  split.
  { intros f b0 w2. repeat split. }
  split.
  { intros a w2. unfold led_light_on.
    destruct (create_led_array (pins a) (amount_pins a) (colors a)
                (amount_colors a) w2) as [[r w1]|]; [|left; reflexivity].
    destruct (negb (r =? 0)); [right; eexists; reflexivity | left; reflexivity]. }
  split.
  { intros f b0 w2. split; [|split].
    - unfold play_tone. destruct (Z.geb_spec (buzzer_fd d') 0); [lia|reflexivity].
    - unfold get_active_button.
      destruct (Z.geb_spec (buttons_fd d') 0); [lia|reflexivity].
    - rewrite led_light_off_live, set_leds_closed by exact Hl. reflexivity. }
  intros a w2 w3 ret. unfold led_light_on, create_led_array.
  destruct ((amount_pins a >? MAX_AMOUNT_PINS)
            || (amount_colors a >? MAX_AMOUNT_PINS)
            || (amount_pins a <=? 0) || (amount_colors a <=? 0)).
  - cbn [negb Z.eqb]. rewrite write_error_fits by (vm_compute; reflexivity).
    intros E. injection E as <- <-. split; [reflexivity|].
    right. eexists. reflexivity.
  - destruct (led_array_loop (Z.to_nat (amount_pins a)) 0 (pins a)
                (amount_pins a) (colors a) (amount_colors a) "")
      as [[r arr]|]; [|discriminate].
    destruct (negb (r =? 0)).
    + rewrite write_error_fits by (vm_compute; reflexivity).
      intros E. injection E as <- <-. split; [reflexivity | left; reflexivity].
    + rewrite set_leds_closed by exact Hl.
      intros E. injection E as <- <-. split; [reflexivity | left; reflexivity].
Qed.

Lemma operations_after_free_rainbow_hat_witness :
  led_light_on write_accepts (Live (fst (close_endpoints dev345 w0)))
    (one_led 0 "FF0000") w0
  = Some (-1, set_LED_ARRAY "0:FF0000" w0)
  /\ -1 = -1
  /\ (trace (set_LED_ARRAY "0:FF0000" w0) = trace w0
      \/ exists s,
           trace (set_LED_ARRAY "0:FF0000" w0)
           = (trace w0 ++ [EvStdout s])%list).
Proof.
  split; [reflexivity|].
  exact (proj2 (proj2 (proj2 (proj2 (proj2 (proj2
           (operations_after_free_rainbow_hat write_accepts read_all_pressed
              dev345 w0))))))
           (one_led 0 "FF0000") w0 (set_LED_ARRAY "0:FF0000" w0) (-1)
           eq_refl).
Defined.

(** C9 as stated does not hold: after free_rainbow_hat the handle is
    dangling, a further play_tone has no defined result, and on the
    descriptors close left behind it answers -1 with the error buffer
    unchanged, not a failure that says "closed". *)
Lemma no_closed_error_after_free :
  free_rainbow_hat (Live dev345) w0
  = Some (Freed, {| LED_ARRAY := ""; err_buff := "";
                    trace := [EvClose 3; EvClose 4; EvClose 5] |})
  /\ play_tone write_accepts Freed 440 (snd (close_endpoints dev345 w0)) = None
  /\ ~ fails_with_message
        (play_tone write_accepts Freed 440 (snd (close_endpoints dev345 w0)))
        (snd (close_endpoints dev345 w0))
  /\ ~ fails_with_message
        (play_tone write_accepts (Live (fst (close_endpoints dev345 w0))) 440
           (snd (close_endpoints dev345 w0)))
        (snd (close_endpoints dev345 w0)).
Proof.
  split; [reflexivity|]. split; [reflexivity|]. split.
  - intros (ret & w' & E & _). discriminate E.
  - intros (ret & w' & E & _ & Hmsg). vm_compute in E.
    injection E as <- <-. apply Hmsg. reflexivity.
Qed.

Lemma first_color_when_counts_differ (a : led_arg) :
  amount_colors a <> 1 -> amount_colors a <> amount_pins a ->
  command_text a = first_color_text a.
Proof.
  intros H1 H2. unfold command_text, first_color_text.
  apply led_text_ext. intros k _. unfold color_of, color_index.
  destruct (Z.eqb_spec (amount_colors a) 1); [contradiction|].
  destruct (Z.eqb_spec (amount_colors a) (amount_pins a)); [contradiction|].
  reflexivity.
Qed.

(** C10, as the code has it.  With both counts in [1, 7] and a colour count
    that is neither 1 nor the pin count, create_led_array does not reject
    the command for that: as long as the text stays below the 70 bytes of
    [LED_ARRAY] it answers 0 with the first colour on every listed pin, and
    led_light_on goes on to write that text.  Pins in [0, 7) with a
    six-character first colour always stay below the limit.  A count
    outside [1, 7] makes led_light_on on a non-null handle answer -1 with
    the message "LED-LIGHT-ON: Invalid argument!". *)
Theorem led_light_on_count_mismatch :
  forall sw (d : rainbow_hat_dev) (a : led_arg) (w : world),
    (counts_ok a ->
     amount_colors a <> 1 -> amount_colors a <> amount_pins a ->
     (strlen (first_color_text a) < LED_ARRAY_SIZE ->
      create_led_array (pins a) (amount_pins a) (colors a) (amount_colors a) w
      = Some (0, set_LED_ARRAY (first_color_text a) w)
      /\ led_light_on sw (Live d) a w
         = Some (set_leds sw (leds_fd d)
                   (set_LED_ARRAY (first_color_text a) w)))
     /\ (LED_ARRAY_SIZE <= strlen (first_color_text a) ->
         exists w1 w',
           create_led_array (pins a) (amount_pins a) (colors a)
             (amount_colors a) w
           = Some (-2, w1)
           /\ led_light_on sw (Live d) a w = Some (-1, w')
           /\ err_buff w'
              = "LED-LIGHT-ON: Invalid argument!" ++ String "010" "")
     /\ (Forall (fun p => 0 <= p < MAX_AMOUNT_PINS) (listed_pins a) ->
         String.length (nth 0 (colors a) "") = 6%nat ->
         strlen (first_color_text a) < LED_ARRAY_SIZE))
    /\ (amount_pins a < 1 \/ MAX_AMOUNT_PINS < amount_pins a
        \/ amount_colors a < 1 \/ MAX_AMOUNT_PINS < amount_colors a ->
        exists w',
          led_light_on sw (Live d) a w = Some (-1, w')
          /\ err_buff w'
             = "LED-LIGHT-ON: Invalid argument!" ++ String "010" "").
Proof.
  intros sw d a w. split.
  - intros Hok H1 H2. split; [|split].
    + intros Hlen. rewrite <- (first_color_when_counts_differ a H1 H2) in *.
      split; [now apply create_led_array_fits | now apply led_light_on_fits].
    + intros Hlen. rewrite <- (first_color_when_counts_differ a H1 H2) in *.
      destruct (create_led_array_overflow a w Hok Hlen) as [w1 E].
      exists w1. unfold led_light_on. rewrite E. cbn [negb Z.eqb].
      rewrite write_error_fits by (vm_compute; reflexivity).
      eexists. repeat split.
    + intros Hpins Hcol. unfold first_color_text.
      pose proof (led_text_small (nth 0 (colors a) "") (listed_pins a)
                    Hpins Hcol 0) as L.
      rewrite (listed_pins_length a Hok) in L.
      destruct Hok as (Hp & _). unfold MAX_AMOUNT_PINS, LED_ARRAY_SIZE in *.
      lia.
  - intros Hbad.
    destruct (create_led_array_bad_counts a w Hbad) as (w1 & E & _ & _).
    unfold led_light_on. rewrite E. cbn [Z.eqb negb].
    rewrite write_error_fits by (vm_compute; reflexivity).
    eexists. split; reflexivity.
Qed.

Lemma led_light_on_count_mismatch_witness :
  counts_ok three_pins_two_colors
  /\ amount_colors three_pins_two_colors <> 1
  /\ amount_colors three_pins_two_colors <> amount_pins three_pins_two_colors
  /\ strlen (first_color_text three_pins_two_colors) < LED_ARRAY_SIZE
  /\ create_led_array (pins three_pins_two_colors)
       (amount_pins three_pins_two_colors) (colors three_pins_two_colors)
       (amount_colors three_pins_two_colors) w0
     = Some (0, set_LED_ARRAY "1:FF0000,2:FF0000,3:FF0000" w0)
  /\ (amount_pins (one_led 0 "FF0000") < 1
      \/ MAX_AMOUNT_PINS < amount_pins (one_led 0 "FF0000")
      \/ amount_colors (one_led 0 "FF0000") < 1
      \/ MAX_AMOUNT_PINS < amount_colors (one_led 0 "FF0000") ->
      exists w',
        led_light_on write_accepts (Live dev345) (one_led 0 "FF0000") w0
        = Some (-1, w')
        /\ err_buff w'
           = "LED-LIGHT-ON: Invalid argument!" ++ String "010" "").
Proof.
  assert (Hok : counts_ok three_pins_two_colors)
    by (repeat split; vm_compute; discriminate).
  assert (H1 : amount_colors three_pins_two_colors <> 1) by discriminate.
  assert (H2 : amount_colors three_pins_two_colors
               <> amount_pins three_pins_two_colors) by discriminate.
  assert (Hlen : strlen (first_color_text three_pins_two_colors)
                 < LED_ARRAY_SIZE) by reflexivity.
  split; [exact Hok|]. split; [exact H1|]. split; [exact H2|].
  split; [exact Hlen|].
  split.
  - exact (proj1 (proj1 (proj1 (led_light_on_count_mismatch write_accepts
                                  dev345 three_pins_two_colors w0)
                           Hok H1 H2) Hlen)).
  - exact (proj2 (led_light_on_count_mismatch write_accepts dev345
                    (one_led 0 "FF0000") w0)).
Defined.

(** C10 as stated does not hold: seven pins numbered 1000000 with two
    colours have both counts in [1, 7] and a colour count that is neither 1
    nor 7, yet the text outgrows [LED_ARRAY], create_led_array answers -2
    and led_light_on fails. *)
Lemma count_mismatch_can_fail :
  counts_ok wide_pins
  /\ amount_colors wide_pins <> 1
  /\ amount_colors wide_pins <> amount_pins wide_pins
  /\ create_led_array (pins wide_pins) (amount_pins wide_pins)
       (colors wide_pins) (amount_colors wide_pins) w0
     = Some (-2, set_LED_ARRAY
                   "1000000:FF0000,1000000:FF0000,1000000:FF0000,1000000:FF0000"
                   w0)
  /\ led_light_on write_accepts (Live dev345) wide_pins w0
     = Some (-1, {| LED_ARRAY :=
                      "1000000:FF0000,1000000:FF0000,1000000:FF0000,1000000:FF0000";
                    err_buff := "LED-LIGHT-ON: Invalid argument!"
                                  ++ String "010" "";
                    trace := [] |}).
Proof.
  split; [repeat split; vm_compute; discriminate|].
  split; [discriminate|]. split; [discriminate|].
  split; reflexivity.
Qed.

End LibraryProperties.

(** ** The buzzer write path of the driver *)

Module BuzzerProperties.
Import CLib Errno RainbowHat Driver Reference Sample.

Lemma period_fits_int (freq : Z) : 0 < freq -> 1000000000 / freq <= INT_MAX.
Proof.
  intros H. unfold INT_MAX.
  assert (1000000000 / freq <= 1000000000); [|lia].
  apply Z.div_le_upper_bound; nia.
Qed.

(** Every path through the locked part of rainbow_buzzer_write gives the
    mutex back. *)
Lemma buzzer_locked_unlocks (env : kenv) (g g' : rainbow_gpio_dev)
    (count freq ret : Z) :
  buzzer_locked env g count freq = Some (ret, g') -> lock g' = false.
Proof.
  unfold buzzer_locked, udiv.
  destruct (copy_from_user_ok env); cbn [negb].
  2: { intros E; injection E as <- <-; reflexivity. }
  destruct (freq =? 0).
  { intros E; injection E as <- <-; reflexivity. }
  destruct (1000000000 / freq >? INT_MAX).
  { intros E; injection E as <- <-; reflexivity. }
  destruct (pwm_config_ret env =? 0);
    intros E; injection E as <- <-; reflexivity.
Qed.

(** rainbow_buzzer_write started with the mutex free returns with the mutex
    free. *)
Lemma rainbow_buzzer_write_unlocks (env : kenv) (g g' : rainbow_gpio_dev)
    (count freq ret : Z) :
  lock g = false ->
  rainbow_buzzer_write env g count freq = Some (ret, g') -> lock g' = false.
Proof.
  intros Hfree. unfold rainbow_buzzer_write, buzzer_trylock.
  destruct (negb (count =? sizeof_ulong env)).
  { intros E; injection E as <- <-; exact Hfree. }
  rewrite Hfree. apply buzzer_locked_unlocks.
Qed.

(** While the mutex is held a write is turned away at once with -EBUSY and
    changes nothing. *)
Lemma rainbow_buzzer_write_busy (env : kenv) (g : rainbow_gpio_dev)
    (freq : Z) :
  lock g = true ->
  rainbow_buzzer_write env g (sizeof_ulong env) freq = Some (- EBUSY, g).
Proof.
  intros Hheld. unfold rainbow_buzzer_write, buzzer_trylock.
  rewrite Z.eqb_refl, Hheld. reflexivity.
Qed.

(** C8.  rainbow_buzzer_write never divides by zero.  With the mutex free,
    a buffer of the right size and a successful copy, frequency 0 only
    disables the PWM and no period is computed; a positive frequency
    configures the PWM with the period 1000000000 / freq nanoseconds (and
    half of it as duty time), then enables it when the configuration was
    accepted. *)
Theorem buzzer_period_guarded :
  forall (env : kenv) (g : rainbow_gpio_dev) (count freq : Z),
    rainbow_buzzer_write env g count freq <> None
    /\ (lock g = false -> count = sizeof_ulong env ->
        copy_from_user_ok env = true ->
        (freq = 0 ->
         rainbow_buzzer_write env g count freq
         = Some (count, {| lock := false;
                           pwm := (pwm g ++ [PwmDisable])%list |}))
        /\ (0 < freq ->
            let period := 1000000000 / freq in
            rainbow_buzzer_write env g count freq
            = if pwm_config_ret env =? 0
              then Some (count,
                         {| lock := false;
                            pwm := (pwm g ++ [PwmConfig (period / 2) period;
                                              PwmEnable])%list |})
              else Some (pwm_config_ret env,
                         {| lock := false;
                            pwm := (pwm g ++ [PwmConfig (period / 2) period])
                                   %list |}))).
Proof.
  intros env g count freq. split.
  - unfold rainbow_buzzer_write, buzzer_trylock, buzzer_locked, udiv.
    destruct (negb (count =? sizeof_ulong env)); [discriminate|].
    destruct (lock g); [discriminate|].
    destruct (negb (copy_from_user_ok env)); [discriminate|].
    destruct (freq =? 0); [discriminate|].
    destruct (1000000000 / freq >? INT_MAX); [discriminate|].
    destruct (pwm_config_ret env =? 0); discriminate.
  - intros Hfree -> Hcopy.
    unfold rainbow_buzzer_write, buzzer_trylock, buzzer_locked, udiv.
    rewrite Z.eqb_refl, Hfree, Hcopy. cbn [negb]. split.
    + intros ->. reflexivity.
    + intros Hpos. cbv zeta.
      destruct (Z.eqb_spec freq 0) as [|_]; [lia|].
      pose proof (period_fits_int freq Hpos) as Hp.
      destruct (Z.gtb_spec (1000000000 / freq) INT_MAX) as [|_]; [lia|].
      destruct (pwm_config_ret env =? 0);
        unfold set_lock, pwm_call; cbn [pwm lock]; rewrite <- ?app_assoc;
        reflexivity.
Qed.

Lemma buzzer_period_guarded_witness :
  lock buzzer_idle = false
  /\ 8 = sizeof_ulong env_ok
  /\ copy_from_user_ok env_ok = true
  /\ rainbow_buzzer_write env_ok buzzer_idle 8 0
     = Some (8, {| lock := false; pwm := [PwmDisable] |})
  /\ (0 < 440 ->
      rainbow_buzzer_write env_ok buzzer_idle 8 440
      = Some (8, {| lock := false;
                    pwm := [PwmConfig 1136363 2272727; PwmEnable] |})).
Proof.
  split; [reflexivity|]. split; [reflexivity|]. split; [reflexivity|].
  split.
  - exact (proj1 (proj2 (buzzer_period_guarded env_ok buzzer_idle 8 0)
                    eq_refl eq_refl eq_refl) eq_refl).
  - exact (proj2 (proj2 (buzzer_period_guarded env_ok buzzer_idle 8 440)
                    eq_refl eq_refl eq_refl)).
Defined.

Lemma period_bound (freq : Z) : freq <> 0 -> 1000000000 / freq <= INT_MAX.
Proof.
  intros H. unfold INT_MAX.
  destruct (Z.lt_trichotomy freq 0) as [Hneg|[Hz|Hpos]]; [|contradiction|].
  - pose proof (Z.div_mod 1000000000 freq H).
    pose proof (Z.mod_neg_bound 1000000000 freq Hneg). nia.
  - pose proof (period_fits_int freq Hpos). unfold INT_MAX in *. lia.
Qed.

Lemma buzzer_locked_defined (env : kenv) (g : rainbow_gpio_dev)
    (count freq : Z) :
  buzzer_locked env g count freq <> None.
Proof.
  unfold buzzer_locked, udiv.
  destruct (negb (copy_from_user_ok env)); [discriminate|].
  destruct (freq =? 0); [discriminate|].
  destruct (1000000000 / freq >? INT_MAX); [discriminate|].
  destruct (pwm_config_ret env =? 0); discriminate.
Qed.

(** With the copy and the PWM configuration in order, the writer that holds
    the mutex writes its [count] bytes and gives the mutex back. *)
Lemma buzzer_locked_writes (env : kenv) (g : rainbow_gpio_dev) (freq : Z) :
  copy_from_user_ok env = true -> pwm_config_ret env = 0 ->
  exists g',
    buzzer_locked env g (sizeof_ulong env) freq = Some (sizeof_ulong env, g')
    /\ lock g' = false.
Proof.
  intros Hcopy Hcfg. unfold buzzer_locked, udiv. rewrite Hcopy, Hcfg.
  cbn [negb Z.eqb].
  destruct (Z.eqb_spec freq 0) as [|Hnz]; [eexists; split; reflexivity|].
  pose proof (period_bound freq Hnz).
  destruct (Z.gtb_spec (1000000000 / freq) INT_MAX); [lia|].
  eexists; split; reflexivity.
Qed.

(** A writer that is not back yet can always move: the trylock does not
    wait and the locked part runs to its return. *)
Lemma move_defined (env : kenv) (g : rainbow_gpio_dev) (t : Schedule.writer) :
  (forall ret, t <> Schedule.Returned ret) -> Schedule.move env g t <> None.
Proof.
  intros H. destruct t as [freq|freq|ret]; cbn [Schedule.move].
  - destruct (buzzer_trylock env g (sizeof_ulong env)); discriminate.
  - pose proof (buzzer_locked_defined env g (sizeof_ulong env) freq).
    destruct (buzzer_locked env g (sizeof_ulong env) freq) as [[ret g']|];
      [discriminate | contradiction].
  - now specialize (H ret).
Qed.

Lemma move_cases (env : kenv) (g g' : rainbow_gpio_dev)
    (t t' : Schedule.writer) :
  copy_from_user_ok env = true -> pwm_config_ret env = 0 ->
  Schedule.move env g t = Some (g', t') ->
  (exists freq, t = Schedule.Calling freq /\ lock g = true
                /\ g' = g /\ t' = Schedule.Returned (- EBUSY))
  \/ (exists freq, t = Schedule.Calling freq /\ lock g = false
                   /\ lock g' = true /\ t' = Schedule.Holding freq)
  \/ (exists freq, t = Schedule.Holding freq /\ lock g' = false
                   /\ t' = Schedule.Returned (sizeof_ulong env)).
Proof.
  intros Hcopy Hcfg. destruct t as [freq|freq|ret]; cbn [Schedule.move].
  - unfold buzzer_trylock. rewrite Z.eqb_refl. cbn [negb].
    destruct (lock g) eqn:Hl; intros E; injection E as <- <-.
    + left. exists freq. repeat split. 
    + right; left. exists freq. repeat split.
  - destruct (buzzer_locked_writes env g freq Hcopy Hcfg) as (g1 & -> & Hg1).
    intros E; injection E as <- <-.
    right; right. exists freq. repeat split. exact Hg1.
  - discriminate.
Qed.

(** One step of either writer keeps the mutex exclusive and the return
    values accounted for. *)
Lemma step_keeps_exclusive (env : kenv) (s s' : Schedule.system) :
  copy_from_user_ok env = true -> pwm_config_ret env = 0 ->
  Schedule.exclusive s
  /\ Schedule.settled env (Schedule.first s) (Schedule.second s)
  /\ Schedule.settled env (Schedule.second s) (Schedule.first s) ->
  Schedule.step env s s' ->
  Schedule.exclusive s'
  /\ Schedule.settled env (Schedule.first s') (Schedule.second s')
  /\ Schedule.settled env (Schedule.second s') (Schedule.first s').
Proof.
  intros Hcopy Hcfg (Hex & H1 & H2) Hstep.
  destruct s as [g a b]. unfold Schedule.exclusive, Schedule.settled in *.
  cbn [Schedule.device Schedule.first Schedule.second] in *.
  inversion Hstep as [s0 g' t Hmove | s0 g' t Hmove]; subst;
    cbn [Schedule.device Schedule.first Schedule.second] in *;
    destruct (move_cases env g g' _ t Hcopy Hcfg Hmove)
      as [(freq & -> & Hl & -> & ->)
         |[(freq & -> & Hl & Hl' & ->)|(freq & -> & Hl' & ->)]];
    match goal with
    | |- context [match ?o with _ => _ end] =>
        is_var o; destruct o as [fo|fo|ro]
    end;
    repeat split; try congruence; try tauto;
    try (left; reflexivity);
    try (right; split; [reflexivity | exact I]);
    try (destruct H1 as [H1|[H1 H1']]; (try contradiction);
         (left; exact H1) || (right; split; [exact H1 | reflexivity]));
    try (destruct H2 as [H2|[H2 H2']]; (try contradiction);
         (left; exact H2) || (right; split; [exact H2 | reflexivity])).
Qed.

(** In every state two writers can reach from an idle buzzer, the mutex is
    exclusive and the return values are accounted for. *)
Lemma reachable_exclusive (env : kenv) (g : rainbow_gpio_dev)
    (freq1 freq2 : Z) (s : Schedule.system) :
  lock g = false ->
  copy_from_user_ok env = true -> pwm_config_ret env = 0 ->
  Schedule.reachable env (Schedule.start g freq1 freq2) s ->
  Schedule.exclusive s
  /\ Schedule.settled env (Schedule.first s) (Schedule.second s)
  /\ Schedule.settled env (Schedule.second s) (Schedule.first s).
Proof.
  intros Hfree Hcopy Hcfg Hreach.
  induction Hreach as [|s s' _ IH Hstep].
  - unfold Schedule.exclusive, Schedule.settled, Schedule.start.
    cbn. repeat split. exact Hfree.
  - exact (step_keeps_exclusive env s s' Hcopy Hcfg IH Hstep).
Qed.

(** C7 (the code departs from it).  In the driver the tone endpoint is
    taken with a trylock: of two overlapping writes the one that holds the
    mutex completes and gives it back, the other is turned away at once
    with -EBUSY and changes nothing; every return path gives the mutex
    back, no writer ever waits, and in every interleaving of two writers
    the mutex is exclusive, it is free again when both are back, and at
    most one of them was turned away.  play_tone, however, keeps only the
    truth value of [write(...) < 0]: the caller whose write was turned away
    is told 0 and finds no message in the error buffer. *)
Theorem busy_tone_reported_as_success :
  forall (env : kenv) (g : rainbow_gpio_dev) (freq1 freq2 : Z)
         sw (d : rainbow_hat_dev) (w : world),
    lock g = false ->
    copy_from_user_ok env = true ->
    pwm_config_ret env = 0 ->
    0 <= freq1 ->
    0 <= buzzer_fd d ->
    failure_reaches_caller
      (rainbow_buzzer_write env (set_lock true g) (sizeof_ulong env) freq2)
      (sw (trace w) (buzzer_fd d) (ULong freq2)) ->
    (exists g',
        overlapping_buzzer_writes env g freq1 freq2
        = Some (sizeof_ulong env, - EBUSY, g')
        /\ lock g' = false)
    /\ (forall g1, lock g1 = true ->
                   rainbow_buzzer_write env g1 (sizeof_ulong env) freq2
                   = Some (- EBUSY, g1))
    /\ (forall (any : kenv) g1 count freq ret g1',
          lock g1 = false ->
          rainbow_buzzer_write any g1 count freq = Some (ret, g1') ->
          lock g1' = false)
    /\ (forall g1 t, (forall ret, t <> Schedule.Returned ret) ->
                     Schedule.move env g1 t <> None)
    /\ (forall s,
          Schedule.reachable env (Schedule.start g freq1 freq2) s ->
          Schedule.exclusive s
          /\ (forall ret1 ret2,
                Schedule.first s = Schedule.Returned ret1 ->
                Schedule.second s = Schedule.Returned ret2 ->
                lock (Schedule.device s) = false
                /\ (ret1 = sizeof_ulong env
                    /\ (ret2 = sizeof_ulong env \/ ret2 = - EBUSY)
                    \/ ret1 = - EBUSY /\ ret2 = sizeof_ulong env)))
    /\ exists w',
         play_tone sw (Live d) freq2 w = Some (0, w')
         /\ err_buff w' = err_buff w.
Proof.
  intros env g freq1 freq2 sw d w Hfree Hcopy Hcfg Hf1 Hfd Hlink.
  assert (Hneg : sw (trace w) (buzzer_fd d) (ULong freq2) < 0).
  { apply (Hlink (- EBUSY) (set_lock true g)); [|reflexivity].
    now apply rainbow_buzzer_write_busy. }
  split; [|split; [|split; [|split; [|split]]]].
  - unfold overlapping_buzzer_writes, buzzer_trylock.
    rewrite Z.eqb_refl, Hfree. cbn [negb].
    rewrite rainbow_buzzer_write_busy by reflexivity.
    destruct (buzzer_locked env (set_lock true g) (sizeof_ulong env) freq1)
      as [[ret1 g3]|] eqn:E.
    + exists g3. pose proof (buzzer_locked_unlocks _ _ _ _ _ _ E) as Hl.
      split; [|exact Hl].
      revert E. unfold buzzer_locked, udiv. rewrite Hcopy, Hcfg. cbn [negb].
      destruct (Z.eqb_spec freq1 0) as [|Hnz].
      { intros E; injection E as <- <-; reflexivity. }
      pose proof (period_fits_int freq1 ltac:(lia)) as Hp.
      destruct (Z.gtb_spec (1000000000 / freq1) INT_MAX) as [|_]; [lia|].
      cbn [Z.eqb]. intros E; injection E as <- <-; reflexivity.
    + exfalso. revert E. unfold buzzer_locked, udiv.
      destruct (negb (copy_from_user_ok env)); [discriminate|].
      destruct (freq1 =? 0); [discriminate|].
      destruct (1000000000 / freq1 >? INT_MAX); [discriminate|].
      destruct (pwm_config_ret env =? 0); discriminate.
  - intros g1 Hheld. now apply rainbow_buzzer_write_busy.
  - intros any g1 count freq ret g1' Hl E.
    exact (rainbow_buzzer_write_unlocks any g1 g1' count freq ret Hl E).
  - intros g1 t Ht. now apply move_defined.
  - intros s Hreach.
    destruct (reachable_exclusive env g freq1 freq2 s Hfree Hcopy Hcfg Hreach)
      as (Hex & H1 & H2).
    split; [exact Hex|].
    intros ret1 ret2 E1 E2.
    unfold Schedule.exclusive, Schedule.settled in *.
    rewrite E1, E2 in *. split; [exact Hex|].
    destruct H1 as [H1|[H1 H1']]; destruct H2 as [H2|[H2 H2']]; auto.
  - unfold play_tone.
    destruct (Z.geb_spec (buzzer_fd d) 0) as [_|]; [|lia].
    destruct (Z.ltb_spec (sw (trace w) (buzzer_fd d) (ULong freq2)) 0)
      as [_|]; [|lia].
    cbn. eexists. split; reflexivity.
Qed.

Lemma busy_tone_reported_as_success_witness :
  lock buzzer_idle = false
  /\ copy_from_user_ok env_ok = true
  /\ pwm_config_ret env_ok = 0
  /\ 0 <= 262
  /\ 0 <= buzzer_fd dev345
  /\ failure_reaches_caller
       (rainbow_buzzer_write env_ok (set_lock true buzzer_idle)
          (sizeof_ulong env_ok) 330)
       (write_busy (trace w0) (buzzer_fd dev345) (ULong 330))
  /\ (exists g',
         overlapping_buzzer_writes env_ok buzzer_idle 262 330
         = Some (sizeof_ulong env_ok, - EBUSY, g')
         /\ lock g' = false)
  /\ exists w',
       play_tone write_busy (Live dev345) 330 w0 = Some (0, w')
       /\ err_buff w' = err_buff w0.
Proof.
  assert (H1 : 0 <= 262) by lia.
  assert (H2 : 0 <= buzzer_fd dev345) by (vm_compute; discriminate).
  assert (H3 : failure_reaches_caller
                 (rainbow_buzzer_write env_ok (set_lock true buzzer_idle)
                    (sizeof_ulong env_ok) 330)
                 (write_busy (trace w0) (buzzer_fd dev345) (ULong 330)))
    by (intros ret st _ _; reflexivity).
  pose proof (busy_tone_reported_as_success env_ok buzzer_idle 262 330
                write_busy dev345 w0 eq_refl eq_refl eq_refl H1 H2 H3)
    as (Ha & _ & _ & _ & _ & Hc).
  split; [reflexivity|]. split; [reflexivity|]. split; [reflexivity|].
  split; [exact H1|]. split; [exact H2|]. split; [exact H3|].
  split; [exact Ha | exact Hc].
Defined.

End BuzzerProperties.

(** ** The metronome's drift correction *)

Module MetronomeProperties.
Import Metronome Reference.

Lemma beat_duration_checked :
  forallb agrees_with_quotient (seq 1 1000) = true.
Proof. vm_compute. reflexivity. Qed.

(** For the tempos 1 .. 1000 the truncated floating-point product is the
    integer quotient 60000000 / bpm. *)
Lemma beat_duration_is_quotient (bpm : Z) :
  1 <= bpm <= 1000 -> beat_duration_us bpm = Some (60000000 / bpm).
Proof.
  intros H.
  pose proof (proj1 (forallb_forall agrees_with_quotient (seq 1 1000))
                beat_duration_checked (Z.to_nat bpm)) as C.
  assert (Hin : In (Z.to_nat bpm) (seq 1 1000)) by (apply in_seq; lia).
  specialize (C Hin). unfold agrees_with_quotient in C.
  rewrite Z2Nat.id in C by lia.
  destruct (beat_duration_us bpm) as [v|]; [|discriminate].
  apply Z.eqb_eq in C. now subst.
Qed.

Lemma beat_sleep_positive (beat op d : Z) :
  In d (beat_sleep beat op) -> d = beat - op /\ 0 < d.
Proof.
  unfold beat_sleep, adjusted_sleep_duration_us.
  destruct (Z.gtb_spec (beat - op) 0); simpl; [|tauto].
  intros [<-|[]]. lia.
Qed.

(** C5, as the code has it.  The beat lasts the truncation of
    60.0 / bpm * 1000000, which is the integer quotient 60000000 / bpm (for
    90 beats per minute 666666 microseconds); the measured cost of the LED
    operations is subtracted and the loop sleeps for the rest only when it
    is positive.  For 90 beats per minute and a cost of 5000 microseconds
    the sleep is 661666 microseconds; a cost that reaches the beat duration
    means no sleep at all, and no sleep is ever negative. *)
Theorem metronome_remaining_sleep :
  beat_duration_us 90 = Some 666666
  /\ (forall bpm, 1 <= bpm <= 1000 ->
                  beat_duration_us bpm = Some (60000000 / bpm))
  /\ (forall start_time end_time,
         elapsed_time_us start_time end_time = 5000 ->
         remaining_sleep 90 start_time end_time = Some 661666)
  /\ (forall beat op,
         beat_sleep beat op = if beat - op >? 0 then [beat - op] else [])
  /\ (forall beat op, beat <= op -> beat_sleep beat op = [])
  /\ (forall beat op d, In d (beat_sleep beat op) -> d = beat - op /\ 0 < d)
  /\ (forall bpm start_time end_time beat,
         beat_duration_us bpm = Some beat ->
         beat <= elapsed_time_us start_time end_time ->
         remaining_sleep bpm start_time end_time = Some 0)
  /\ (forall bpm start_time end_time t,
         remaining_sleep bpm start_time end_time = Some t -> 0 <= t).
Proof.
  assert (B90 : beat_duration_us 90 = Some 666666)
    by (vm_compute; reflexivity).
  assert (Hnone : forall beat op, beat <= op -> beat_sleep beat op = []).
  { intros beat op H. unfold beat_sleep, adjusted_sleep_duration_us.
    destruct (Z.gtb_spec (beat - op) 0); [lia | reflexivity]. }
  split; [exact B90|].
  split; [exact beat_duration_is_quotient|].
  split.
  { intros s e H. unfold remaining_sleep. rewrite B90, H. reflexivity. }
  split; [reflexivity|].
  split; [exact Hnone|].
  split; [exact beat_sleep_positive|].
  split.
  { intros bpm s e beat Hb Hle. unfold remaining_sleep.
    rewrite Hb, (Hnone _ _ Hle). reflexivity. }
  intros bpm s e t. unfold remaining_sleep.
  destruct (beat_duration_us bpm) as [beat|]; [|discriminate].
  intros E. injection E as <-.
  unfold beat_sleep, adjusted_sleep_duration_us.
  destruct (Z.gtb_spec (beat - elapsed_time_us s e) 0); simpl; lia.
Qed.

Lemma metronome_remaining_sleep_witness :
  1 <= 120 <= 1000
  /\ beat_duration_us 120 = Some 500000
  /\ elapsed_time_us {| tv_sec := 10; tv_nsec := 999000000 |}
                     {| tv_sec := 11; tv_nsec := 4000000 |} = 5000
  /\ remaining_sleep 90 {| tv_sec := 10; tv_nsec := 999000000 |}
                        {| tv_sec := 11; tv_nsec := 4000000 |}
     = Some 661666
  /\ (666666 <= 700000 -> beat_sleep 666666 700000 = []).
Proof.
  destruct metronome_remaining_sleep as (_ & Hq & H5 & _ & Hn & _).
  split; [lia|].
  split; [exact (Hq 120 ltac:(lia))|].
  split; [reflexivity|].
  split; [exact (H5 {| tv_sec := 10; tv_nsec := 999000000 |}
                   {| tv_sec := 11; tv_nsec := 4000000 |} eq_refl)|].
  exact (Hn 666666 700000).
Defined.

(** C5 as stated does not hold: at 90 beats per minute with an operation
    cost of 5000 microseconds the code sleeps 661666 microseconds, not
    661667. *)
Lemma remaining_sleep_90_is_661666 :
  elapsed_time_us {| tv_sec := 10; tv_nsec := 0 |}
                  {| tv_sec := 10; tv_nsec := 5000000 |} = 5000
  /\ remaining_sleep 90 {| tv_sec := 10; tv_nsec := 0 |}
                        {| tv_sec := 10; tv_nsec := 5000000 |}
     = Some 661666
  /\ remaining_sleep 90 {| tv_sec := 10; tv_nsec := 0 |}
                        {| tv_sec := 10; tv_nsec := 5000000 |}
     <> Some 661667.
Proof.
  split; [reflexivity|].
  assert (E : remaining_sleep 90 {| tv_sec := 10; tv_nsec := 0 |}
                {| tv_sec := 10; tv_nsec := 5000000 |} = Some 661666)
    by (vm_compute; reflexivity).
  split; [exact E|]. rewrite E. discriminate.
Qed.

End MetronomeProperties.

(** ** Facts about the LED write path of the driver *)

Module DriverFacts.
Import CLib Errno Driver Reference.

Lemma skip_length (n : nat) (s : string) :
  String.length (skip n s) = (String.length s - n)%nat.
Proof.
  revert s. induction n as [|n IH]; intros [|c s]; simpl; try lia.
  apply IH.
Qed.

Lemma skip_app (pre suf : string) (k : nat) :
  skip (String.length pre + k) (pre ++ suf) = skip k suf.
Proof. induction pre as [|c pre IH]; simpl; [reflexivity | exact IH]. Qed.

Lemma char_at_app (pre suf : string) (k : nat) :
  char_at (pre ++ suf) (String.length pre + k) = char_at suf k.
Proof.
  unfold char_at. induction pre as [|c pre IH]; simpl; [reflexivity | exact IH].
Qed.

Lemma substring_app (pre suf : string) (k len : nat) :
  substring (String.length pre + k) len (pre ++ suf) = substring k len suf.
Proof. induction pre as [|c pre IH]; simpl; [reflexivity | exact IH]. Qed.

Lemma strchr_from_bound (s : string) (c : ascii) (n : nat) :
  strchr_from s c = Some n -> (n < String.length s)%nat.
Proof.
  revert n. induction s as [|a s IH]; intros n; simpl; [discriminate|].
  destruct (Ascii.eqb a c).
  - intros E. injection E as <-. lia.
  - destruct (Ascii.eqb a Ascii.zero); [discriminate|].
    destruct (strchr_from s c) as [m|]; simpl; [|discriminate].
    intros E. injection E as <-. specialize (IH m eq_refl). lia.
Qed.

(** A position found by strchr lies at or after the start and inside the
    buffer. *)
Lemma strchr_bound (buf : string) (pos k : nat) (c : ascii) :
  strchr buf pos c = Some k -> (pos <= k < String.length buf)%nat.
Proof.
  unfold strchr.
  destruct (strchr_from (skip pos buf) c) as [n|] eqn:E; simpl; [|discriminate].
  intros H. injection H as <-.
  apply strchr_from_bound in E. rewrite skip_length in E. lia.
Qed.

Lemma strchr_app (pre suf : string) (k : nat) (c : ascii) :
  strchr (pre ++ suf) (String.length pre + k) c
  = option_map (Nat.add (String.length pre)) (strchr suf k c).
Proof.
  unfold strchr. rewrite skip_app.
  destruct (strchr_from (skip k suf) c); simpl; [|reflexivity].
  f_equal. lia.
Qed.

Lemma parse_hex_color_app (pre suf : string) (k : nat) :
  parse_hex_color (pre ++ suf) (String.length pre + k) = parse_hex_color suf k.
Proof. unfold parse_hex_color. now rewrite skip_app. Qed.

(** With one unit of fuel per byte of the buffer, and one more, the loop of
    parse_led_colors always comes to an answer. *)
Lemma parse_led_loop_total (buf : string) (count : Z) :
  forall (fuel : nat) (leds : list rgb_led) (curr : nat),
    (String.length buf - curr < fuel)%nat ->
    exists res, parse_led_loop fuel leds buf count curr = Some res.
Proof.
  induction fuel as [|fuel IH]; intros leds curr Hfuel; [lia|].
  cbn [parse_led_loop].
  destruct ((Z.of_nat curr <? count)
            && negb (Ascii.eqb (char_at buf curr) Ascii.zero));
    [|eexists; reflexivity].
  destruct (strchr buf curr ":") as [colon|] eqn:Hcolon;
    [|eexists; reflexivity].
  destruct (Z.of_nat (colon - curr) >=? 10); [eexists; reflexivity|].
  destruct (kstrtol (substring curr (colon - curr) buf)) as [led_num|];
    [|eexists; reflexivity].
  destruct ((led_num <? 0) || (led_num >=? NUMBER_LEDS));
    [eexists; reflexivity|].
  destruct (parse_hex_color buf (S colon)) as [ret color].
  destruct (ret <? 0); [eexists; reflexivity|].
  destruct (strchr buf (S colon + 6) ",") as [next|] eqn:Hnext;
    [|eexists; reflexivity].
  destruct (Z.of_nat next <? count); [|eexists; reflexivity].
  apply IH.
  apply strchr_bound in Hcolon. apply strchr_bound in Hnext. lia.
Qed.

Lemma parse_led_colors_total (leds : list rgb_led) (buf : string) (count : Z) :
  exists res, parse_led_colors leds buf count = Some res.
Proof. unfold parse_led_colors. apply parse_led_loop_total. lia. Qed.

(** The loop only looks at the part of the buffer from [curr] on. *)
Lemma parse_led_loop_app (pre suf : string) (count : Z) :
  forall (fuel : nat) (leds : list rgb_led) (k : nat),
    parse_led_loop fuel leds (pre ++ suf) count (String.length pre + k)
    = parse_led_loop fuel leds suf (count - strlen pre) k.
Proof.
  induction fuel as [|fuel IH]; intros leds k; [reflexivity|].
  cbn [parse_led_loop].
  rewrite char_at_app, strchr_app.
  replace (Z.of_nat (String.length pre + k) <? count)
    with (Z.of_nat k <? count - strlen pre)
    by (unfold strlen; destruct (Z.ltb_spec (Z.of_nat k)
                                   (count - Z.of_nat (String.length pre)));
        destruct (Z.ltb_spec (Z.of_nat (String.length pre + k)) count);
        reflexivity || lia).
  destruct ((Z.of_nat k <? count - strlen pre)
            && negb (Ascii.eqb (char_at suf k) Ascii.zero)); [|reflexivity].
  destruct (strchr suf k ":") as [colon|]; cbn [option_map]; [|reflexivity].
  replace (String.length pre + colon - (String.length pre + k))%nat
    with (colon - k)%nat by lia.
  rewrite substring_app.
  destruct (Z.of_nat (colon - k) >=? 10); [reflexivity|].
  destruct (kstrtol (substring k (colon - k) suf)) as [led_num|];
    [|reflexivity].
  destruct ((led_num <? 0) || (led_num >=? NUMBER_LEDS)); [reflexivity|].
  replace (S (String.length pre + colon))
    with (String.length pre + S colon)%nat by lia.
  rewrite parse_hex_color_app.
  destruct (parse_hex_color suf (S colon)) as [ret color].
  destruct (ret <? 0); [reflexivity|].
  replace (String.length pre + S colon + 6)%nat
    with (String.length pre + (S colon + 6))%nat by lia.
  rewrite strchr_app.
  destruct (strchr suf (S colon + 6) ",") as [next|]; cbn [option_map];
    [|reflexivity].
  replace (Z.of_nat (String.length pre + next) <? count)
    with (Z.of_nat next <? count - strlen pre)
    by (unfold strlen; destruct (Z.ltb_spec (Z.of_nat next)
                                   (count - Z.of_nat (String.length pre)));
        destruct (Z.ltb_spec (Z.of_nat (String.length pre + next)) count);
        reflexivity || lia).
  destruct (Z.of_nat next <? count - strlen pre); [|reflexivity].
  replace (S (String.length pre + next))
    with (String.length pre + S next)%nat by lia.
  apply IH.
Qed.


(** *** Decimal numbers: what %d prints, kstrtol reads back *)

Lemma parse_digits_digit (c : ascii) (s : string) (acc : Z) (n : nat) :
  (code c >=? code "0") && (code c <=? code "9") = true ->
  parse_digits (String c s) acc n
  = parse_digits s (10 * acc + (code c - code "0")) (S n).
Proof. intros H. cbn [parse_digits]. now rewrite H. Qed.

Lemma parse_digits_acc (d : Decimal.uint) :
  forall (acc : positive) (n : nat),
    parse_digits (NilEmpty.string_of_uint d) (Z.pos acc) n
    = (Z.pos (Pos.of_uint_acc d acc),
       (n + String.length (NilEmpty.string_of_uint d))%nat, "").
Proof.
  induction d as [|d IH|d IH|d IH|d IH|d IH|d IH|d IH|d IH|d IH|d IH];
    intros acc n; cbn [NilEmpty.string_of_uint Pos.of_uint_acc];
    [cbn; f_equal; f_equal; lia | ..];
    rewrite parse_digits_digit by reflexivity;
    match goal with
    | |- parse_digits _ (10 * Z.pos acc + ?k) _ = (Z.pos (Pos.of_uint_acc _ ?a), _, _) =>
        replace (10 * Z.pos acc + k) with (Z.pos a)
          by (vm_compute (code _ - code _); lia)
    end;
    rewrite IH; cbn [String.length]; f_equal; f_equal; lia.
Qed.

Lemma parse_digits_uint (d : Decimal.uint) :
  forall n : nat,
    parse_digits (NilEmpty.string_of_uint d) 0 n
    = (Z.of_N (Pos.of_uint d),
       (n + String.length (NilEmpty.string_of_uint d))%nat, "").
Proof.
  induction d as [|d IH|d IH|d IH|d IH|d IH|d IH|d IH|d IH|d IH|d IH];
    intros n; cbn [NilEmpty.string_of_uint Pos.of_uint];
    [cbn; f_equal; f_equal; lia | ..];
    rewrite parse_digits_digit by reflexivity;
    [ change (10 * 0 + (code "0" - code "0")) with 0;
      rewrite IH; cbn [String.length]; f_equal; f_equal; lia | ..];
    match goal with
    | |- parse_digits _ ?v _ = (Z.of_N (N.pos (Pos.of_uint_acc _ ?a)), _, _) =>
        change v with (Z.pos a)
    end;
    rewrite parse_digits_acc; cbn [String.length Z.of_N]; f_equal; f_equal;
      lia.
Qed.

Lemma string_of_uint_plain (d : Decimal.uint) :
  all_chars plain_char (NilEmpty.string_of_uint d) = true.
Proof.
  induction d; cbn [NilEmpty.string_of_uint all_chars];
    [reflexivity | rewrite IHd; reflexivity ..].
Qed.

Lemma to_uint_string (q : positive) :
  NilZero.string_of_uint (Pos.to_uint q)
  = NilEmpty.string_of_uint (Pos.to_uint q)
  /\ NilEmpty.string_of_uint (Pos.to_uint q) <> "".
Proof.
  pose proof (DecimalPos.Unsigned.to_uint_nonnil q) as H.
  destruct (Pos.to_uint q); [contradiction | split; [reflexivity | discriminate] ..].
Qed.

(** The text %d prints holds neither a colon nor NUL and is not empty. *)
Lemma fmt_d_plain (p : Z) :
  all_chars plain_char (fmt_d p) = true /\ fmt_d p <> "".
Proof.
  unfold fmt_d. destruct p as [|q|q]; cbn [Z.to_int NilZero.string_of_int].
  - split; [reflexivity | discriminate].
  - destruct (to_uint_string q) as [-> Hne].
    split; [apply string_of_uint_plain | exact Hne].
  - destruct (to_uint_string q) as [-> Hne].
    split; [|discriminate].
    cbn [all_chars]. rewrite string_of_uint_plain. reflexivity.
Qed.

Lemma kstrtol_digits (d : Decimal.uint) (neg : bool) :
  NilEmpty.string_of_uint d <> "" ->
  (let '(v, n, rest) := parse_digits (NilEmpty.string_of_uint d) 0 O in
   if Nat.eqb n O then inr (- EINVAL)
   else
     let rest := match rest with String "010" t => t | _ => rest end in
     match rest with
     | EmptyString => inl (if neg then - v else v)
     | _ => inr (- EINVAL)
     end)
  = inl (if neg then - Z.of_N (Pos.of_uint d) else Z.of_N (Pos.of_uint d)).
Proof.
  intros Hne. rewrite parse_digits_uint.
  destruct (NilEmpty.string_of_uint d) as [|c s]; [contradiction|].
  reflexivity.
Qed.

(** kstrtol reads back the number %d printed. *)
Lemma kstrtol_fmt_d (p : Z) : kstrtol (fmt_d p) = inl p.
Proof.
  unfold fmt_d. destruct p as [|q|q]; cbn [Z.to_int NilZero.string_of_int].
  - reflexivity.
  - destruct (to_uint_string q) as [-> Hne].
    pose proof (kstrtol_digits (Pos.to_uint q) false Hne) as K.
    rewrite DecimalPos.Unsigned.of_to in K. cbn [Z.of_N] in K.
    rewrite <- K. unfold kstrtol.
    destruct (Pos.to_uint q); reflexivity.
  - destruct (to_uint_string q) as [-> Hne].
    pose proof (kstrtol_digits (Pos.to_uint q) true Hne) as K.
    rewrite DecimalPos.Unsigned.of_to in K. cbn [Z.of_N Z.opp] in K.
    rewrite <- K. reflexivity.
Qed.


(** *** Colours *)

Lemma parse_hex_loop_ok (buf : string) :
  forall (n i : nat) (acc : Z),
    (forall j, (i <= j < i + n)%nat -> is_hex (char_at buf j) = true) ->
    fst (parse_hex_loop n i buf acc) = 0.
Proof.
  induction n as [|n IH]; intros i acc H; [reflexivity|].
  cbn [parse_hex_loop].
  pose proof (H i ltac:(lia)) as Hi. unfold is_hex in Hi.
  apply Z.leb_le in Hi.
  destruct (Z.ltb_spec (hex_to_int (char_at buf i)) 0); [lia|].
  apply IH. intros j Hj. apply H. lia.
Qed.

Lemma parse_hex_loop_bad (buf : string) :
  forall (n i : nat) (acc : Z) (j : nat),
    (i <= j < i + n)%nat -> is_hex (char_at buf j) = false ->
    fst (parse_hex_loop n i buf acc) = - EINVAL.
Proof.
  induction n as [|n IH]; intros i acc j Hj Hbad; [lia|].
  cbn [parse_hex_loop].
  destruct (Z.ltb_spec (hex_to_int (char_at buf i)) 0) as [|Hok];
    [reflexivity|].
  apply (IH (S i) _ j); [|exact Hbad].
  destruct (Nat.eq_dec i j) as [->|]; [|lia].
  unfold is_hex in Hbad. apply Z.leb_gt in Hbad. lia.
Qed.

Lemma parse_hex_loop_ret (buf : string) :
  forall (n i : nat) (acc : Z),
    fst (parse_hex_loop n i buf acc) = 0
    \/ fst (parse_hex_loop n i buf acc) = - EINVAL.
Proof.
  induction n as [|n IH]; intros i acc; [left; reflexivity|].
  cbn [parse_hex_loop].
  destruct (hex_to_int (char_at buf i) <? 0); [right; reflexivity | apply IH].
Qed.

Lemma all_chars_char_at (P : ascii -> bool) (s rest : string) (j : nat) :
  all_chars P s = true -> (j < String.length s)%nat ->
  P (char_at (s ++ rest) j) = true.
Proof.
  revert j. induction s as [|c s IH]; intros j H Hj; simpl in *; [lia|].
  apply andb_prop in H as [Hc Hs].
  destruct j as [|j]; [exact Hc|].
  apply IH; [exact Hs | lia].
Qed.

(** Six hexadecimal digits are accepted whatever follows them. *)
Lemma parse_hex_color_hex6 (h tail : string) :
  hex6 h = true -> fst (parse_hex_color (h ++ tail) 0) = 0.
Proof.
  unfold hex6. intros H. apply andb_prop in H as [Hlen Hhex].
  apply Nat.eqb_eq in Hlen.
  unfold parse_hex_color. cbn [skip].
  apply parse_hex_loop_ok. intros j Hj.
  apply all_chars_char_at; [exact Hhex | lia].
Qed.

(** *** One pass of the loop of parse_led_colors *)

Lemma strchr_from_plain (num rest : string) :
  all_chars plain_char num = true ->
  strchr_from (num ++ rest) ":"
  = option_map (Nat.add (String.length num)) (strchr_from rest ":").
Proof.
  induction num as [|a num IH]; intros H; cbn [append String.length].
  - destruct (strchr_from rest ":"); reflexivity.
  - cbn [all_chars] in H. apply andb_prop in H as [Ha Hnum].
    unfold plain_char in Ha. apply andb_prop in Ha as [Ha1 Ha2].
    cbn [strchr_from].
    destruct (Ascii.eqb a ":"); [discriminate|].
    destruct (Ascii.eqb a Ascii.zero); [discriminate|].
    rewrite (IH Hnum). destruct (strchr_from rest ":"); reflexivity.
Qed.

Lemma substring_prefix (a b : string) :
  substring 0 (String.length a) (a ++ b) = a.
Proof.
  induction a as [|c a IH]; cbn [String.length append substring].
  - destruct b; reflexivity.
  - now rewrite IH.
Qed.

(** The loop stops with -EINVAL, the LED table untouched, when the text
    before the colon is ten or more bytes long or is not a number in
    [0, NUMBER_LEDS). *)
Lemma token_rejected (fuel : nat) (leds : list rgb_led) (num rest : string)
    (count : Z) :
  all_chars plain_char num = true -> num <> "" -> 0 < count ->
  (10 <= String.length num)%nat
  \/ ((exists rest', rest = String ":" rest')
      /\ forall n, kstrtol num = inl n -> n < 0 \/ NUMBER_LEDS <= n) ->
  parse_led_loop (S fuel) leds (num ++ rest) count 0
  = Some (- EINVAL, leds).
Proof.
  intros Hplain Hne Hcount Hbad. cbn [parse_led_loop].
  destruct (Z.ltb_spec (Z.of_nat 0) count) as [_|]; [|lia].
  assert (H0 : Ascii.eqb (char_at (num ++ rest) 0) Ascii.zero = false).
  { destruct num as [|a num]; [contradiction|].
    cbn [all_chars] in Hplain. apply andb_prop in Hplain as [Ha _].
    unfold plain_char in Ha. apply andb_prop in Ha as [_ Ha].
    unfold char_at. cbn. now destruct (Ascii.eqb a Ascii.zero). }
  rewrite H0. cbn [andb negb].
  unfold strchr. cbn [skip]. rewrite (strchr_from_plain num rest Hplain).
  destruct Hbad as [Hlong | [[rest' ->] Hnum]].
  - destruct (strchr_from rest ":") as [k|]; cbn [option_map]; [|reflexivity].
    destruct (Z.geb_spec (Z.of_nat (0 + (String.length num + k) - 0)) 10);
      [reflexivity | lia].
  - cbn [strchr_from]. rewrite Ascii.eqb_refl. cbn [option_map].
    replace (0 + (String.length num + 0) - 0)%nat with (String.length num)
      by lia.
    destruct (Z.of_nat (String.length num) >=? 10); [reflexivity|].
    rewrite substring_prefix.
    destruct (kstrtol num) as [n|]; [|reflexivity].
    destruct (Hnum n eq_refl) as [Hn|Hn].
    + destruct (Z.ltb_spec n 0); [reflexivity | lia].
    + destruct (Z.geb_spec n NUMBER_LEDS) as [|]; [|lia].
      now rewrite orb_true_r.
Qed.


Lemma skip_exact (a b : string) : skip (String.length a) (a ++ b) = b.
Proof.
  pose proof (skip_app a b 0) as H. rewrite Nat.add_0_r in H. exact H.
Qed.

(** The first steps of a pass over "d:..." where the one-byte number is in
    range: the loop gets as far as parse_hex_color. *)
Lemma token_number_ok (fuel : nat) (leds : list rgb_led) (d : ascii)
    (after : string) (count n : Z) :
  plain_char d = true -> kstrtol (String d "") = inl n ->
  0 <= n < NUMBER_LEDS -> 0 < count ->
  parse_led_loop (S fuel) leds (String d (String ":" after)) count 0
  = let buf := String d (String ":" after) in
    let '(ret, color) := parse_hex_color buf 2 in
    if ret <? 0 then Some (- EINVAL, leds)
    else
      let leds1 :=
        set_led (Z.to_nat n)
          {| r := Z.land (Z.shiftr color 16) 255;
             g := Z.land (Z.shiftr color 8) 255;
             b := Z.land color 255 |} leds in
      match strchr buf 8 "," with
      | Some next =>
          if Z.of_nat next <? count
          then parse_led_loop fuel leds1 buf count (S next)
          else Some (0, leds1)
      | None => Some (0, leds1)
      end.
Proof.
  intros Hd Hk Hn Hcount. cbn [parse_led_loop].
  unfold plain_char in Hd. apply andb_prop in Hd as [Hd1 Hd2].
  destruct (Z.ltb_spec (Z.of_nat 0) count) as [_|]; [|lia].
  replace (char_at (String d (String ":" after)) 0) with d by reflexivity.
  destruct (Ascii.eqb d Ascii.zero) eqn:Ez; [discriminate|].
  cbn [andb negb].
  assert (Hc : strchr (String d (String ":" after)) 0 ":" = Some 1%nat).
  { unfold strchr. cbn [skip strchr_from]. rewrite Ez.
    destruct (Ascii.eqb d ":"); [discriminate|].
    rewrite Ascii.eqb_refl. reflexivity. }
  rewrite Hc. cbn [Nat.sub].
  change (Z.of_nat 1 >=? 10) with false. cbv iota.
  replace (substring 0 1 (String d (String ":" after))) with (String d "")
    by reflexivity.
  rewrite Hk.
  destruct (Z.ltb_spec n 0); [lia|].
  destruct (Z.geb_spec n NUMBER_LEDS); [lia|].
  cbn [orb]. reflexivity.
Qed.

(** A pass over "d:..." with the number in range stops with -EINVAL, the
    table untouched, when one of the six bytes after the colon is not a
    hexadecimal digit. *)
Lemma color_rejected (fuel : nat) (leds : list rgb_led) (d : ascii)
    (after : string) (count n : Z) (j : nat) :
  plain_char d = true -> kstrtol (String d "") = inl n ->
  0 <= n < NUMBER_LEDS -> 0 < count ->
  (j < 6)%nat -> is_hex (char_at after j) = false ->
  parse_led_loop (S fuel) leds (String d (String ":" after)) count 0
  = Some (- EINVAL, leds).
Proof.
  intros Hd Hk Hn Hcount Hj Hbad.
  rewrite (token_number_ok fuel leds d _ count n Hd Hk Hn Hcount).
  cbv zeta.
  assert (Hp : parse_hex_color (String d (String ":" after)) 2
               = parse_hex_loop 6 0 after 0) by reflexivity.
  rewrite Hp.
  pose proof (parse_hex_loop_bad after 6 0 0 j ltac:(lia) Hbad) as Hret.
  destruct (parse_hex_loop 6 0 after 0) as [ret color].
  cbn [fst] in Hret. subst ret. reflexivity.
Qed.

(** A colour that does not begin with six hexadecimal digits leaves a byte
    that is no hexadecimal digit among the first six after the colon,
    whether the command ends there or goes on with a comma. *)
Lemma non_hex_position (tail : string) :
  tail = "" \/ (exists t, tail = String "," t) ->
  forall (n : nat) (c : string) (m : nat),
    (n <= m)%nat ->
    Nat.eqb (String.length (substring 0 n c)) n
    && all_chars is_hex (substring 0 n c) = false ->
    exists j, (j < n)%nat
              /\ is_hex (char_at (substring 0 m c ++ tail) j) = false.
Proof.
  intros Htail. induction n as [|n IH]; intros c m Hnm Hbad.
  - destruct c; discriminate Hbad.
  - destruct m as [|m]; [lia|]. destruct c as [|a c].
    + exists 0%nat. split; [lia|]. cbn [substring append].
      destruct Htail as [->|[t ->]]; reflexivity.
    + cbn [substring String.length all_chars Nat.eqb] in Hbad.
      destruct (is_hex a) eqn:Ha.
      * cbn [andb] in Hbad.
        destruct (IH c m ltac:(lia) Hbad) as (j & Hj & Hjbad).
        exists (S j). split; [lia | exact Hjbad].
      * exists 0%nat. split; [lia | exact Ha].
Qed.


(** *** Cutting texts *)

Lemma substring_app_ge (a b : string) (n : nat) :
  (String.length a <= n)%nat ->
  substring 0 n (a ++ b) = a ++ substring 0 (n - String.length a) b.
Proof.
  revert n. induction a as [|c a IH]; intros n H; cbn [String.length] in *.
  - now rewrite Nat.sub_0_r.
  - destruct n as [|n]; [lia|]. cbn [append substring Nat.sub].
    rewrite IH by lia. reflexivity.
Qed.

Lemma substring_app_le (a b : string) (n : nat) :
  (n <= String.length a)%nat -> substring 0 n (a ++ b) = substring 0 n a.
Proof.
  revert n. induction a as [|c a IH]; intros n H; cbn [String.length] in *.
  - assert (n = 0%nat) as -> by lia. destruct b; reflexivity.
  - destruct n as [|n]; [reflexivity|]. cbn [append substring].
    rewrite IH by lia. reflexivity.
Qed.

Lemma substring_0_split (s : string) :
  forall a b : nat,
    substring 0 (a + b) s = substring 0 a s ++ substring 0 b (skip a s).
Proof.
  induction s as [|c s IH]; intros a b.
  - destruct a, b; reflexivity.
  - destruct a as [|a]; [reflexivity|].
    cbn [Nat.add substring skip append]. now rewrite IH.
Qed.

Lemma substring_0_length (s : string) :
  forall n : nat,
    (n <= String.length s)%nat -> String.length (substring 0 n s) = n.
Proof.
  induction s as [|c s IH]; intros n H; cbn [String.length] in *.
  - assert (n = 0%nat) as -> by lia. reflexivity.
  - destruct n as [|n]; [reflexivity|]. cbn [substring String.length].
    rewrite IH by lia. reflexivity.
Qed.

Lemma all_chars_substring (P : ascii -> bool) (s : string) :
  forall n : nat,
    all_chars P s = true -> all_chars P (substring 0 n s) = true.
Proof.
  induction s as [|c s IH]; intros n H.
  - destruct n; reflexivity.
  - destruct n as [|n]; [reflexivity|]. cbn [substring all_chars] in *.
    apply andb_prop in H as [Hc Hs]. rewrite Hc, (IH n Hs). reflexivity.
Qed.

End DriverFacts.

(** ** What the driver makes of the commands the library writes *)

Module CommandFacts.
Import CLib Errno RainbowHat Reference RainbowHatFacts DriverFacts.

Lemma led_text_cons (idx p : Z) (ps : list Z) (f : Z -> string) :
  led_text idx (p :: ps) f
  = (if idx >? 0 then "," else "")
    ++ substring 0 (19 - sep_len idx) (fmt_d p ++ ":" ++ f idx)
    ++ led_text (idx + 1) ps f.
Proof.
  cbn [led_text]. unfold led_token, snprintf, snd, sep_len.
  destruct (idx >? 0); reflexivity.
Qed.

(** The text of a command without the comma it may begin with. *)
Lemma command_body_cons (idx p : Z) (ps : list Z) (f : Z -> string) :
  skip (sep_len idx) (led_text idx (p :: ps) f)
  = substring 0 (19 - sep_len idx) (fmt_d p ++ ":" ++ f idx)
    ++ led_text (idx + 1) ps f.
Proof.
  rewrite led_text_cons. unfold sep_len. destruct (idx >? 0); reflexivity.
Qed.

Lemma led_text_tail (idx : Z) (ps : list Z) (f : Z -> string) :
  0 <= idx ->
  led_text (idx + 1) ps f = ""
  \/ exists t, led_text (idx + 1) ps f = String "," t.
Proof.
  intros H. destruct ps as [|p ps]; [left; reflexivity|]. right.
  rewrite led_text_cons.
  destruct (Z.gtb_spec (idx + 1) 0); [|lia].
  eexists. reflexivity.
Qed.

Lemma led_text_next (idx p : Z) (ps : list Z) (f : Z -> string) :
  0 <= idx ->
  led_text (idx + 1) (p :: ps) f
  = String "," (skip (sep_len (idx + 1)) (led_text (idx + 1) (p :: ps) f)).
Proof.
  intros H. rewrite command_body_cons, led_text_cons. unfold sep_len.
  destruct (Z.gtb_spec (idx + 1) 0); [|lia]. reflexivity.
Qed.

(** An entry the driver takes: a pin in [0, NUMBER_LEDS) printed as one
    digit, and a colour of six hexadecimal digits. *)
Lemma entry_ok_token (p : Z) (c : string) (m : nat) :
  entry_ok p c -> (18 <= m)%nat ->
  exists d,
    substring 0 m (fmt_d p ++ ":" ++ c) = String d (String ":" c)
    /\ plain_char d = true
    /\ Driver.kstrtol (String d "") = inl p.
Proof.
  intros [Hp Hc] Hm.
  pose proof (fmt_d_small p Hp) as Hlen.
  pose proof (fmt_d_plain p) as [Hplain _].
  pose proof (kstrtol_fmt_d p) as Hk.
  destruct (fmt_d p) as [|d [|]]; try discriminate Hlen.
  exists d. split; [|split].
  - unfold hex6 in Hc. apply andb_prop in Hc as [Hl _].
    apply Nat.eqb_eq in Hl.
    apply substring_short. cbn [append String.length]. lia.
  - cbn [all_chars] in Hplain. now apply andb_prop in Hplain as [Hd _].
  - exact Hk.
Qed.


Lemma strlen_String (c : ascii) (s : string) :
  strlen (String c s) = 1 + strlen s.
Proof. unfold strlen. cbn [String.length]. lia. Qed.

(** The token of an entry whose pin is no LED number is turned away. *)
Lemma bad_pin_rejected (fuel : nat) (leds : list Driver.rgb_led) (bad : Z)
    (c tail : string) (m : nat) :
  ~ 0 <= bad < Driver.NUMBER_LEDS -> (18 <= m)%nat ->
  Driver.parse_led_loop (S fuel) leds
    (substring 0 m (fmt_d bad ++ ":" ++ c) ++ tail)
    (strlen (substring 0 m (fmt_d bad ++ ":" ++ c) ++ tail)) 0
  = Some (- EINVAL, leds).
Proof.
  intros Hbad Hm.
  pose proof (fmt_d_plain bad) as [Hplain Hne].
  destruct (le_lt_dec 10 (String.length (fmt_d bad))) as [Hlong|Hshort].
  - replace m with (10 + (m - 10))%nat by lia.
    rewrite substring_0_split.
    rewrite (substring_app_le (fmt_d bad) (":" ++ c) 10 Hlong).
    rewrite append_assoc.
    pose proof (substring_0_length (fmt_d bad) 10 Hlong) as Hl.
    apply token_rejected.
    + now apply all_chars_substring.
    + intros E. rewrite E in Hl. discriminate Hl.
    + rewrite strlen_app. unfold strlen at 1. rewrite Hl.
      pose proof (strlen_nonneg
                    (substring 0 (m - 10) (skip 10 (fmt_d bad ++ ":" ++ c))
                     ++ tail)).
      lia.
    + left. lia.
  - rewrite (substring_app_ge (fmt_d bad) (":" ++ c) m) by lia.
    destruct (m - String.length (fmt_d bad))%nat as [|k] eqn:Ek; [lia|].
    cbn [append substring]. rewrite append_assoc. cbn [append].
    apply token_rejected.
    + exact Hplain.
    + exact Hne.
    + rewrite strlen_app.
      assert (0 < strlen (fmt_d bad)).
      { unfold strlen. destruct (fmt_d bad); [contradiction|].
        cbn [String.length]. lia. }
      pose proof (strlen_nonneg (String ":" (substring 0 k c ++ tail))). lia.
    + right. split; [eexists; reflexivity|].
      intros n Hn. rewrite kstrtol_fmt_d in Hn. injection Hn as <-.
      unfold Driver.NUMBER_LEDS in *. lia.
Qed.

(** The token of an entry whose colour does not begin with six hexadecimal
    digits is turned away. *)
Lemma bad_color_rejected (fuel : nat) (leds : list Driver.rgb_led) (p : Z)
    (c tail : string) (m : nat) :
  0 <= p < Driver.NUMBER_LEDS ->
  hex6 (substring 0 6 c) = false ->
  tail = "" \/ (exists t, tail = String "," t) ->
  (18 <= m)%nat ->
  Driver.parse_led_loop (S fuel) leds
    (substring 0 m (fmt_d p ++ ":" ++ c) ++ tail)
    (strlen (substring 0 m (fmt_d p ++ ":" ++ c) ++ tail)) 0
  = Some (- EINVAL, leds).
Proof.
  intros Hp Hc Htail Hm.
  pose proof (fmt_d_small p Hp) as Hlen.
  pose proof (fmt_d_plain p) as [Hplain _].
  pose proof (kstrtol_fmt_d p) as Hk.
  destruct (fmt_d p) as [|d [|]]; try discriminate Hlen.
  cbn [all_chars] in Hplain. apply andb_prop in Hplain as [Hd _].
  destruct m as [|[|m]]; [lia | lia |].
  cbn [append substring].
  destruct (non_hex_position tail Htail 6 c m ltac:(lia) Hc)
    as (j & Hj & Hjbad).
  apply (color_rejected fuel leds d _ _ p j Hd Hk Hp); [|exact Hj|exact Hjbad].
  rewrite !strlen_String.
  pose proof (strlen_nonneg (substring 0 m c ++ tail)). lia.
Qed.

End CommandFacts.

(** ** How the loop of parse_led_colors moves through a buffer *)

Module ParserFacts.
Import CLib Errno Driver Reference RainbowHatFacts DriverFacts.








(** *** kstrtol takes no text with a comma in it *)










End ParserFacts.

(** ** Commands with an entry the driver refuses *)

Module ReachFacts.
Import CLib Errno RainbowHat Reference RainbowHatFacts DriverFacts.
Import CommandFacts ParserFacts.










End ReachFacts.

(** ** Pin indices and colour tokens: who checks them *)

Module CommandProperties.
Import CLib Errno RainbowHat Reference Sample.
Import RainbowHatFacts DriverFacts CommandFacts ReachFacts.










End CommandProperties.

(** ** The library: bounds of its buffers, outcomes of its calls *)

Module LibraryInvariants.
Import CLib Errno RainbowHat Reference Encoding Sample RainbowHatFacts.
Import DriverFacts.

(** X1.  write_error never leaves more than ERR_BUF_SIZE - 1 characters in
    the error buffer and does not touch [LED_ARRAY].  A message of up to 254
    characters is stored whole, a newline after it, and the answer is 0; a
    longer one is cut to its first 255 characters, so that the newline is
    lost, and the answer is 2. *)
Theorem write_error_bounded :
  forall (msg : string) (w : world),
    strlen (err_buff (snd (write_error msg w))) < ERR_BUF_SIZE
    /\ LED_ARRAY (snd (write_error msg w)) = LED_ARRAY w
    /\ (strlen msg + 1 < ERR_BUF_SIZE ->
        write_error msg w = (0, set_err_buff (msg ++ String "010" "") w))
    /\ (ERR_BUF_SIZE <= strlen msg + 1 ->
        fst (write_error msg w) = 2
        /\ err_buff (snd (write_error msg w)) = substring 0 255 msg).
Proof.
  intros msg w.
  assert (L : strlen (msg ++ String "010" "") = strlen msg + 1)
    by (rewrite strlen_app; reflexivity).
  pose proof (strlen_nonneg msg) as Hn.
  assert (B : strlen (substring 0 255 (msg ++ String "010" "")) < ERR_BUF_SIZE).
  { pose proof (substring_length_le 255 (msg ++ String "010" "")) as H1.
    destruct (le_lt_dec (String.length (msg ++ String "010" "")) 255)
      as [Hs|Hs].
    - unfold strlen, ERR_BUF_SIZE. lia.
    - unfold strlen, ERR_BUF_SIZE. rewrite substring_0_length by lia. lia. }
  unfold write_error, snprintf. rewrite L.
  change (Z.to_nat ERR_BUF_SIZE - 1)%nat with 255%nat.
  destruct (Z.ltb_spec (strlen msg + 1) 0) as [H0|_]; [lia|].
  destruct (Z.geb_spec (strlen msg + 1) ERR_BUF_SIZE) as [H1|H1];
    cbn [snd fst err_buff LED_ARRAY log set_err_buff].
  - split; [exact B|]. split; [reflexivity|]. split; [lia|].
    intros _. split; [reflexivity|].
    apply substring_app_le. unfold strlen, ERR_BUF_SIZE in *. lia.
  - split; [exact B|]. split; [reflexivity|]. split; [|lia].
    intros _. rewrite substring_short; [reflexivity|].
    rewrite string_length_app. cbn [String.length].
    unfold strlen, ERR_BUF_SIZE in *. lia.
Qed.

Lemma led_array_loop_bounded (pins : list Z) (al : Z) (hc : list string)
    (ac : Z) :
  forall (n : nat) (idx : Z) (arr : string) (r : Z) (arr' : string),
    strlen arr < LED_ARRAY_SIZE ->
    led_array_loop n idx pins al hc ac arr = Some (r, arr') ->
    (r = 0 \/ r = -2) /\ strlen arr' < LED_ARRAY_SIZE.
Proof.
  induction n as [|n IH]; intros idx arr r arr' Harr; cbn [led_array_loop].
  - intros E. injection E as <- <-. split; [left; reflexivity | exact Harr].
  - destruct (nth_error pins (Z.to_nat idx)) as [pin|]; [|discriminate].
    destruct (nth_error hc (Z.to_nat (color_index idx al ac))) as [color|];
      [|discriminate].
    destruct (Z.geb_spec (strlen arr + strlen (led_token idx pin color))
                LED_ARRAY_SIZE) as [Hge|Hlt].
    + intros E. injection E as <- <-. split; [right; reflexivity | exact Harr].
    + apply IH. rewrite strlen_app. exact Hlt.
Qed.

(** X2.  Whenever create_led_array comes back, its answer is 0, -1 or -2;
    it is -1 exactly when one of the two counts lies outside
    [1, MAX_AMOUNT_PINS], and then [LED_ARRAY] is as before; in the other
    cases the text left in [LED_ARRAY] is shorter than LED_ARRAY_SIZE.  The
    error buffer is never written. *)
Theorem create_led_array_bounded :
  forall (pins : list Z) (amount_leds : Z) (hex_color : list string)
         (amount_colors : Z) (w : world) (r : Z) (w' : world),
    create_led_array pins amount_leds hex_color amount_colors w
    = Some (r, w') ->
    (r = 0 \/ r = -1 \/ r = -2)
    /\ (r = -1 <-> ~ (1 <= amount_leds <= MAX_AMOUNT_PINS
                      /\ 1 <= amount_colors <= MAX_AMOUNT_PINS))
    /\ (r = -1 -> LED_ARRAY w' = LED_ARRAY w)
    /\ (r <> -1 -> strlen (LED_ARRAY w') < LED_ARRAY_SIZE)
    /\ err_buff w' = err_buff w.
Proof.
  intros pins al hc ac w r w'. unfold create_led_array, MAX_AMOUNT_PINS.
  destruct (Z.gtb_spec al 7); destruct (Z.gtb_spec ac 7);
    destruct (Z.leb_spec al 0); destruct (Z.leb_spec ac 0); cbn [orb];
    try (intros E; injection E as <- <-;
         repeat split; try reflexivity; try lia; auto).
  destruct (led_array_loop (Z.to_nat al) 0 pins al hc ac "") as [[r0 arr]|]
    eqn:El; [|discriminate].
  intros E. injection E as <- <-.
  destruct (led_array_loop_bounded pins al hc ac (Z.to_nat al) 0 "" r0 arr
              eq_refl El)
    as [Hr Hb].
  cbn [LED_ARRAY err_buff set_LED_ARRAY].
  repeat split; try lia; try exact Hb; intros; lia.
Qed.

Lemma create_led_array_bounded_witness :
  create_led_array [1; 2; 3] 3 ["FF0000"; "00FF00"] 2 w0
  = Some (0, set_LED_ARRAY "1:FF0000,2:FF0000,3:FF0000" w0)
  /\ strlen "1:FF0000,2:FF0000,3:FF0000" < LED_ARRAY_SIZE.
Proof.
  split; [reflexivity|].
  destruct (create_led_array_bounded [1; 2; 3] 3 ["FF0000"; "00FF00"] 2 w0 0
              (set_LED_ARRAY "1:FF0000,2:FF0000,3:FF0000" w0) eq_refl)
    as (_ & _ & _ & H & _).
  apply H. discriminate.
Defined.

(** What create_led_array leaves behind when it answers 0. *)
Lemma create_led_array_success (pins : list Z) (al : Z) (hc : list string)
    (ac : Z) (w w1 : world) :
  create_led_array pins al hc ac w = Some (0, w1) ->
  strlen (LED_ARRAY w1) < LED_ARRAY_SIZE
  /\ err_buff w1 = err_buff w /\ trace w1 = trace w.
Proof.
  unfold create_led_array.
  destruct ((al >? MAX_AMOUNT_PINS) || (ac >? MAX_AMOUNT_PINS)
            || (al <=? 0) || (ac <=? 0)); [discriminate|].
  destruct (led_array_loop (Z.to_nat al) 0 pins al hc ac "") as [[r0 arr]|]
    eqn:El; [|discriminate].
  intros E. injection E as -> <-.
  destruct (led_array_loop_bounded pins al hc ac (Z.to_nat al) 0 "" 0 arr
              eq_refl El) as [_ Hb].
  repeat split. exact Hb.
Qed.

(** A call of led_light_on that answers 0 has made one call more. *)
Lemma led_light_on_success_trace sw (dev : dev_ptr) (a : led_arg)
    (w w' : world) (r : Z) :
  led_light_on sw dev a w = Some (r, w') -> 0 <= r ->
  r = 0 /\ List.length (trace w') = S (List.length (trace w)).
Proof.
  intros E Hr. unfold led_light_on in E.
  destruct dev as [|d|].
  - injection E as <- _. lia.
  - destruct (create_led_array (pins a) (amount_pins a) (colors a)
                (amount_colors a) w) as [[r0 w1]|] eqn:Ec; [|discriminate].
    destruct (Z.eqb_spec r0 0) as [->|Hne]; cbn [negb] in E;
      [|injection E as <- _; lia].
    destruct (create_led_array_success _ _ _ _ _ _ Ec) as (_ & _ & Htr).
    destruct (Z_lt_ge_dec (leds_fd d) 0) as [Hfd|Hfd].
    + rewrite set_leds_closed in E by exact Hfd. injection E as <- _. lia.
    + destruct (set_leds_open sw (leds_fd d) w1 ltac:(lia))
        as (w2 & E2 & _ & Htr2 & _).
      rewrite E2 in E. injection E as <- <-.
      destruct (sw (trace w1) (leds_fd d) (Text (LED_ARRAY w1)) <? 0);
        [lia|].
      split; [reflexivity|].
      rewrite Htr2, Htr, length_app. cbn [List.length]. lia.
  - destruct (create_led_array (pins a) (amount_pins a) (colors a)
                (amount_colors a) w) as [[r0 w1]|]; [|discriminate].
    destruct (negb (r0 =? 0)); [|discriminate].
    injection E as <- _. lia.
Qed.

(** X3.  led_light_on answers 0 or -1 and nothing else.  It answers 0 only
    on a live handle with an open LED descriptor, after exactly one write
    of [LED_ARRAY] that the endpoint answered with a non-negative value;
    that text is shorter than the 70 bytes the driver takes at most, and
    the error buffer is as before.  On a null handle it answers -1 without
    any call and without touching [LED_ARRAY]. *)
Theorem led_light_on_outcome :
  forall sw (dev : dev_ptr) (a : led_arg) (w : world) (r : Z) (w' : world),
    led_light_on sw dev a w = Some (r, w') ->
    (r = 0 \/ r = -1)
    /\ (r = 0 ->
        exists d,
          dev = Live d /\ 0 <= leds_fd d
          /\ 0 <= sw (trace w) (leds_fd d) (Text (LED_ARRAY w'))
          /\ trace w'
             = (trace w ++ [EvWrite (leds_fd d) (Text (LED_ARRAY w'))])%list
          /\ strlen (LED_ARRAY w') < Driver.MAX_EXPECTED_INPUT_LENGTH
          /\ err_buff w' = err_buff w)
    /\ (dev = NULL ->
        r = -1 /\ trace w' = trace w /\ LED_ARRAY w' = LED_ARRAY w).
Proof.
  intros sw dev a w r w' E. unfold led_light_on in E.
  destruct dev as [|d|].
  - rewrite write_error_fits in E by (vm_compute; reflexivity).
    injection E as <- <-.
    split; [right; reflexivity|]. split; [discriminate|].
    intros _. repeat split.
  - destruct (create_led_array (pins a) (amount_pins a) (colors a)
                (amount_colors a) w) as [[r0 w1]|] eqn:Ec; [|discriminate].
    destruct (Z.eqb_spec r0 0) as [->|Hne]; cbn [negb] in E.
    + destruct (create_led_array_success _ _ _ _ _ _ Ec)
        as (Hb & Herr & Htr).
      destruct (Z_lt_ge_dec (leds_fd d) 0) as [Hfd|Hfd].
      * rewrite set_leds_closed in E by exact Hfd. injection E as <- <-.
        split; [right; reflexivity|]. split; [discriminate|discriminate].
      * destruct (set_leds_open sw (leds_fd d) w1 ltac:(lia))
          as (w2 & E2 & Hled & Htr2 & Hok & Hbad).
        rewrite E2 in E. injection E as <- <-.
        destruct (Z.ltb_spec
                    (sw (trace w1) (leds_fd d) (Text (LED_ARRAY w1))) 0)
          as [Hneg|Hpos].
        -- split; [right; reflexivity|]. split; [discriminate|discriminate].
        -- split; [left; reflexivity|]. split; [|discriminate].
           intros _. exists d. rewrite Hled, Htr2, <- Htr, (Hok Hpos), Herr.
           repeat split; try lia; try exact Hpos.
           unfold Driver.MAX_EXPECTED_INPUT_LENGTH, LED_ARRAY_SIZE in *. lia.
    + rewrite write_error_fits in E by (vm_compute; reflexivity).
      injection E as <- <-.
      split; [right; reflexivity|]. split; [discriminate|discriminate].
  - destruct (create_led_array (pins a) (amount_pins a) (colors a)
                (amount_colors a) w) as [[r0 w1]|]; [|discriminate].
    destruct (negb (r0 =? 0)); [|discriminate].
    rewrite write_error_fits in E by (vm_compute; reflexivity).
    injection E as <- <-.
    split; [right; reflexivity|]. split; [discriminate|discriminate].
Qed.

Lemma led_light_on_outcome_witness :
  led_light_on write_accepts (Live dev345) (one_led 2 "00FF00") w0
  = Some (0, {| LED_ARRAY := "2:00FF00"; err_buff := "";
                trace := [EvWrite 3 (Text "2:00FF00")] |})
  /\ strlen "2:00FF00" < Driver.MAX_EXPECTED_INPUT_LENGTH.
Proof.
  split; [reflexivity|].
  destruct (proj1 (proj2
              (led_light_on_outcome write_accepts (Live dev345)
                 (one_led 2 "00FF00") w0 0
                 {| LED_ARRAY := "2:00FF00"; err_buff := "";
                    trace := [EvWrite 3 (Text "2:00FF00")] |} eq_refl))
              eq_refl)
    as (d & _ & _ & _ & _ & H & _).
  exact H.
Defined.

(** scan_buttons on whatever the read left in the buffer. *)
Lemma scan_buttons_state (data : string) :
  scan_buttons 3 0
    (overwrite (substring 0 3 data) ("000" ++ String Ascii.zero ""))
    Ascii.zero
  = first_pressed (state_at data 0) (state_at data 1) (state_at data 2).
Proof.
  unfold state_at, first_pressed.
  destruct data as [|a [|b [|c rest]]]; cbn.
  - reflexivity.
  - destruct (Ascii.eqb a "1"); reflexivity.
  - destruct (Ascii.eqb a "1"); [reflexivity|].
    destruct (Ascii.eqb b "1"); reflexivity.
  - destruct (Ascii.eqb a "1"); [reflexivity|].
    destruct (Ascii.eqb b "1"); [reflexivity|].
    destruct rest; destruct (Ascii.eqb c "1"); reflexivity.
Qed.

Lemma first_pressed_name (a b c : ascii) :
  first_pressed a b c = Ascii.zero \/ first_pressed a b c = "A"%char
  \/ first_pressed a b c = "B"%char \/ first_pressed a b c = "C"%char.
Proof.
  unfold first_pressed.
  destruct (Ascii.eqb a "1"); [auto|].
  destruct (Ascii.eqb b "1"); [auto|].
  destruct (Ascii.eqb c "1"); auto.
Qed.

(** X4.  On a live handle get_active_button always comes back, with 0 or
    -1.  The byte it hands back through btn_active is NUL, 'A', 'B' or 'C',
    whatever the caller's byte held before and whatever the read stored,
    and NUL whenever the answer is -1.  The answer is 0 exactly when the
    button descriptor is open and the read answered a non-negative value;
    then the error buffer is as before. *)
Theorem get_active_button_answers :
  forall sr (d : rainbow_hat_dev) (btn0 : ascii) (w : world),
    exists (r : Z) (c : ascii) (w' : world),
      get_active_button sr (Live d) btn0 w = Some (r, c, w')
      /\ (r = 0 \/ r = -1)
      /\ (c = Ascii.zero \/ c = "A"%char \/ c = "B"%char \/ c = "C"%char)
      /\ (r = -1 -> c = Ascii.zero)
      /\ (r = 0 <-> 0 <= buttons_fd d
                    /\ 0 <= fst (sr (trace w) (buttons_fd d) 3))
      /\ (r = 0 -> err_buff w' = err_buff w)
      /\ LED_ARRAY w' = LED_ARRAY w.
Proof.
  intros sr d btn0 w. unfold get_active_button.
  destruct (Z.geb_spec (buttons_fd d) 0) as [Hfd|Hfd].
  - destruct (sr (trace w) (buttons_fd d) 3) as [result data].
    cbn [fst].
    destruct (Z.ltb_spec result 0) as [Hneg|Hpos].
    + do 3 eexists. split; [reflexivity|].
      split; [right; reflexivity|]. split; [left; reflexivity|].
      split; [reflexivity|]. split; [split; [discriminate | lia]|].
      split; [discriminate|].
      destruct (result =? - EINVAL); [|destruct (result =? - EFAULT)];
        rewrite write_error_fits by (vm_compute; reflexivity); reflexivity.
    + do 3 eexists. split; [reflexivity|].
      split; [left; reflexivity|].
      split; [rewrite scan_buttons_state; apply first_pressed_name|].
      split; [discriminate|]. split; [split; [lia | reflexivity]|].
      split; reflexivity.
  - do 3 eexists. split; [reflexivity|].
    split; [right; reflexivity|]. split; [left; reflexivity|].
    split; [reflexivity|]. split; [split; [discriminate | lia]|].
    split; reflexivity.
Qed.

Lemma get_some_lt (s : string) :
  forall (i : nat) (c : ascii),
    String.get i s = Some c -> (i < String.length s)%nat.
Proof.
  induction s as [|x s IH]; intros i c; [destruct i; discriminate|].
  destruct i as [|i]; cbn [String.get String.length]; [lia|].
  intros E. specialize (IH i c E). lia.
Qed.

Lemma get_active_button_state sr (d : rainbow_hat_dev) (btn0 : ascii)
    (w : world) (result : Z) (data : string) :
  0 <= buttons_fd d ->
  sr (trace w) (buttons_fd d) 3 = (result, data) ->
  0 <= result ->
  get_active_button sr (Live d) btn0 w
  = Some (0,
          first_pressed (state_at data 0) (state_at data 1) (state_at data 2),
          log (EvRead (buttons_fd d) 3) w).
Proof.
  intros Hfd Hread Hres. unfold get_active_button.
  destruct (Z.geb_spec (buttons_fd d) 0) as [_|]; [|lia].
  rewrite Hread.
  destruct (Z.ltb_spec result 0) as [|_]; [lia|].
  rewrite scan_buttons_state. reflexivity.
Qed.

(** X5.  After a successful read get_active_button decides on the first
    three bytes the read stored; a position the read did not reach still
    holds the '0' the buffer was filled with, so that a short read counts
    the buttons it did not report as released. *)
Theorem get_active_button_short_read :
  forall sr (d : rainbow_hat_dev) (btn0 : ascii) (w : world)
         (result : Z) (data : string),
    0 <= buttons_fd d ->
    sr (trace w) (buttons_fd d) 3 = (result, data) ->
    0 <= result ->
    get_active_button sr (Live d) btn0 w
    = Some (0,
            first_pressed (state_at data 0) (state_at data 1)
              (state_at data 2),
            log (EvRead (buttons_fd d) 3) w)
    /\ (forall i, (String.length data <= i)%nat ->
                  state_at data i = "0"%char).
Proof.
  intros sr d btn0 w result data Hfd Hread Hres. split.
  - now apply (get_active_button_state sr d btn0 w result data).
  - intros i Hi. unfold state_at.
    destruct (String.get i (substring 0 3 data)) as [c|] eqn:E;
      [|reflexivity].
    exfalso.
    assert (Hlt : (i < String.length (substring 0 3 data))%nat)
      by (apply (get_some_lt _ _ _ E)).
    pose proof (substring_length_le 3 data). lia.
Qed.

Lemma get_active_button_short_read_witness :
  get_active_button read_two_bytes (Live dev345) "x" w0
  = Some (0, "B"%char, log (EvRead 4 3) w0).
Proof.
  refine (proj1 (get_active_button_short_read read_two_bytes dev345 "x" w0
                   2 "01" _ eq_refl _)).
  - vm_compute. discriminate.
  - lia.
Defined.

End LibraryInvariants.

(** ** The library: opening the three endpoints *)

Module InitProperties.
Import CLib Errno RainbowHat Reference Encoding Sample RainbowHatFacts.
Import LibraryProperties.

Lemma close_endpoints_buffers (d : rainbow_hat_dev) (w : world) :
  LED_ARRAY (snd (close_endpoints d w)) = LED_ARRAY w
  /\ err_buff (snd (close_endpoints d w)) = err_buff w.
Proof.
  unfold close_endpoints, close_fd.
  destruct (leds_fd d >=? 0), (buttons_fd d >=? 0), (buzzer_fd d >=? 0);
    split; reflexivity.
Qed.

(** X6.  init_rainbow_hat hands out a live handle or NULL, never anything
    else, and leaves [LED_ARRAY] alone.  A live handle carries the three
    descriptors [open] answered, all non-negative, and nothing else has
    happened.  NULL means that the allocation or one of the three [open]
    calls failed; then every descriptor that was opened has been closed
    again, in the order LEDs, buttons, buzzer, and the error buffer names
    the first failure in that same order. *)
Theorem init_rainbow_hat_all_or_nothing :
  forall (malloc_ok : bool) (sys_open : string -> Z) (w : world),
    exists (p : dev_ptr) (w' : world),
      init_rainbow_hat malloc_ok sys_open w = Some (p, w')
      /\ LED_ARRAY w' = LED_ARRAY w
      /\ match p with
         | Live d =>
             malloc_ok = true
             /\ d = {| leds_fd := sys_open LEDS_DEV;
                       buttons_fd := sys_open BUTTONS_DEV;
                       buzzer_fd := sys_open BUZZER_DEV |}
             /\ 0 <= leds_fd d /\ 0 <= buttons_fd d /\ 0 <= buzzer_fd d
             /\ w' = w
         | NULL =>
             (malloc_ok = false \/ sys_open LEDS_DEV < 0
              \/ sys_open BUTTONS_DEV < 0 \/ sys_open BUZZER_DEV < 0)
             /\ trace w'
                = (trace w
                   ++ if malloc_ok
                      then map EvClose
                             (filter (fun fd => fd >=? 0)
                                [sys_open LEDS_DEV; sys_open BUTTONS_DEV;
                                 sys_open BUZZER_DEV])
                      else [])%list
             /\ err_buff w'
                = (if negb malloc_ok then "INIT: Insufficient memory!"
                   else if sys_open LEDS_DEV <? 0
                   then "LED device open failed"
                   else if sys_open BUTTONS_DEV <? 0
                   then "Buttons device open failed"
                   else "Buzzer device open failed") ++ String "010" ""
         | Freed => False
         end.
Proof.
  intros mo so w. unfold init_rainbow_hat, init_cleanup, free_rainbow_hat.
  destruct mo; cbn [negb leds_fd buttons_fd buzzer_fd].
  2: { rewrite write_error_fits by (vm_compute; reflexivity).
       do 2 eexists. split; [reflexivity|]. split; [reflexivity|].
       split; [left; reflexivity|]. cbn [snd trace set_err_buff err_buff].
       rewrite app_nil_r. split; reflexivity. }
  set (d := {| leds_fd := so LEDS_DEV; buttons_fd := so BUTTONS_DEV;
               buzzer_fd := so BUZZER_DEV |}).
  destruct (Z.ltb_spec (so LEDS_DEV) 0) as [Hl|Hl];
    [|destruct (Z.ltb_spec (so BUTTONS_DEV) 0) as [Hb|Hb];
      [|destruct (Z.ltb_spec (so BUZZER_DEV) 0) as [Hz|Hz]]].
  4: { do 2 eexists. split; [reflexivity|]. split; [reflexivity|].
       repeat split; assumption. }
  all: rewrite write_error_fits by (vm_compute; reflexivity);
    do 2 eexists; (split; [reflexivity|]);
    match goal with
    | |- context [close_endpoints ?d1 ?w1] =>
        destruct (close_endpoints_buffers d1 w1) as [HL HE]
    end;
    (split; [exact HL|]);
    (split; [tauto|]);
    rewrite close_endpoints_trace, HE; split; reflexivity.
Qed.

End InitProperties.

(** ** Colours: from six hexadecimal digits to three bytes *)

Module ColourFacts.
Import CLib Errno Driver Reference Encoding RainbowHatFacts DriverFacts.

Lemma hex_to_int_digit (upper : bool) (v : Z) :
  0 <= v < 16 -> hex_to_int (hex_digit upper v) = v.
Proof.
  intros H.
  assert (C : v = 0 \/ v = 1 \/ v = 2 \/ v = 3 \/ v = 4 \/ v = 5 \/ v = 6
              \/ v = 7 \/ v = 8 \/ v = 9 \/ v = 10 \/ v = 11 \/ v = 12
              \/ v = 13 \/ v = 14 \/ v = 15) by lia.
  destruct upper;
    repeat (destruct C as [->|C]; [reflexivity|]); subst v; reflexivity.
Qed.

Lemma land_shifted_digit (c v : Z) :
  0 <= v < 16 -> Z.land (Z.shiftl c 4) v = 0.
Proof.
  intros Hv. apply Z.bits_inj'. intros n Hn.
  rewrite Z.land_spec, Z.bits_0.
  destruct (Z.ltb_spec n 4) as [Hlt|Hge].
  - rewrite Z.shiftl_spec_low by lia. reflexivity.
  - destruct (Z.eq_dec v 0) as [->|Hnz].
    + rewrite Z.bits_0. apply andb_false_r.
    + rewrite (Z.bits_above_log2 v n); [apply andb_false_r | lia |].
      assert (Z.log2 v < 4); [|lia].
      apply Z.log2_lt_pow2; lia.
Qed.

(** One step of the loop of parse_hex_color appends a digit. *)
Lemma color_step (c v : Z) :
  0 <= c < 2 ^ 28 -> 0 <= v < 16 ->
  Z.lor (Z.shiftl c 4 mod 2 ^ 32) v = 16 * c + v.
Proof.
  intros Hc Hv. rewrite Z.shiftl_mul_pow2 by lia.
  rewrite Z.mod_small by lia.
  pose proof (Z.add_lor_land (c * 2 ^ 4) v) as A.
  rewrite <- Z.shiftl_mul_pow2 in A by lia.
  rewrite land_shifted_digit in A by lia.
  rewrite Z.shiftl_mul_pow2 in A by lia. lia.
Qed.

Lemma char_at_String_0 (c : ascii) (s : string) : char_at (String c s) 0 = c.
Proof. reflexivity. Qed.

Lemma char_at_String_S (c : ascii) (s : string) (i : nat) :
  char_at (String c s) (S i) = char_at s i.
Proof. reflexivity. Qed.

Lemma parse_hex_loop_skip (n : nat) :
  forall (i : nat) (c : ascii) (s : string) (acc : Z),
    parse_hex_loop n (S i) (String c s) acc = parse_hex_loop n i s acc.
Proof.
  induction n as [|n IH]; intros i c s acc; [reflexivity|].
  cbn [parse_hex_loop]. rewrite char_at_String_S.
  destruct (hex_to_int (char_at s i) <? 0); [reflexivity | apply IH].
Qed.

(** Reading one digit the encoder wrote. *)
Lemma parse_hex_loop_digit (n : nat) (upper : bool) (v acc : Z) (s : string) :
  0 <= v < 16 -> 0 <= acc < 2 ^ 28 ->
  parse_hex_loop (S n) 0 (String (hex_digit upper v) s) acc
  = parse_hex_loop n 0 s (16 * acc + v).
Proof.
  intros Hv Hacc. cbn [parse_hex_loop]. rewrite char_at_String_0.
  rewrite (hex_to_int_digit upper v Hv).
  destruct (Z.ltb_spec v 0) as [|_]; [lia|].
  rewrite parse_hex_loop_skip, color_step by assumption. reflexivity.
Qed.

Lemma parse_hex_color_encoded (upper : bool) (x : rgb_led) (tail : string) :
  is_byte (r x) -> is_byte (g x) -> is_byte (b x) ->
  parse_hex_color (hex_color upper x ++ tail) 0
  = (0, 65536 * r x + 256 * g x + b x).
Proof.
  unfold is_byte. intros Hr Hg Hb.
  unfold parse_hex_color, hex_color, hex_byte. cbn [skip append].
  assert (D : forall v, 0 <= v < 256 -> 0 <= v / 16 < 16 /\ 0 <= v mod 16 < 16).
  { intros v Hv. split; [|apply Z.mod_pos_bound; lia].
    split; [apply Z.div_pos; lia | apply Z.div_lt_upper_bound; lia]. }
  destruct (D _ Hr) as [Hr1 Hr2], (D _ Hg) as [Hg1 Hg2], (D _ Hb) as [Hb1 Hb2].
  pose proof (Z.div_mod (r x) 16 ltac:(lia)) as Er.
  pose proof (Z.div_mod (g x) 16 ltac:(lia)) as Eg.
  pose proof (Z.div_mod (b x) 16 ltac:(lia)) as Eb.
  rewrite parse_hex_loop_digit by lia.
  rewrite parse_hex_loop_digit by lia.
  rewrite parse_hex_loop_digit by lia.
  rewrite parse_hex_loop_digit by lia.
  rewrite parse_hex_loop_digit by lia.
  rewrite parse_hex_loop_digit by lia.
  cbn [parse_hex_loop]. f_equal. lia.
Qed.

Lemma led_of_value_bytes (x : rgb_led) :
  is_byte (r x) -> is_byte (g x) -> is_byte (b x) ->
  led_of_value (65536 * r x + 256 * g x + b x) = x.
Proof.
  unfold is_byte. intros Hr Hg Hb. unfold led_of_value.
  change 255 with (Z.ones 8). rewrite !Z.land_ones by lia.
  rewrite !Z.shiftr_div_pow2 by lia.
  change (2 ^ 16) with 65536. change (2 ^ 8) with 256.
  assert (E1 : (65536 * r x + 256 * g x + b x) / 65536 = r x).
  { symmetry. apply (Z.div_unique _ _ _ (256 * g x + b x)); lia. }
  assert (E2 : (65536 * r x + 256 * g x + b x) / 256 = 256 * r x + g x).
  { symmetry. apply (Z.div_unique _ _ _ (b x)); lia. }
  rewrite E1, E2.
  assert (M1 : r x mod 256 = r x) by (apply Z.mod_small; lia).
  assert (M2 : (256 * r x + g x) mod 256 = g x).
  { symmetry. apply (Z.mod_unique _ _ (r x)); lia. }
  assert (M3 : (65536 * r x + 256 * g x + b x) mod 256 = b x).
  { symmetry. apply (Z.mod_unique _ _ (256 * r x + g x)); lia. }
  rewrite M1, M2, M3. destruct x; reflexivity.
Qed.

End ColourFacts.

Module ColourProperties.
Import CLib Errno Driver Reference Encoding RainbowHatFacts DriverFacts.
Import ColourFacts.

(** X7.  parse_hex_color reads back a colour written as six hexadecimal
    digits, in upper or lower case and whatever follows them: it answers 0
    with the number 65536 r + 256 g + b, and the shifts and masks of
    parse_led_colors split that number into the bytes r, g and b again. *)
Theorem parse_hex_color_round_trip :
  forall (upper : bool) (x : rgb_led) (tail : string),
    is_byte (r x) -> is_byte (g x) -> is_byte (b x) ->
    parse_hex_color (hex_color upper x ++ tail) 0
    = (0, 65536 * r x + 256 * g x + b x)
    /\ led_of_color (hex_color upper x ++ tail) = x.
Proof.
  intros upper x tail Hr Hg Hb.
  pose proof (parse_hex_color_encoded upper x tail Hr Hg Hb) as E.
  split; [exact E|].
  unfold led_of_color. rewrite E. cbn [snd].
  now apply led_of_value_bytes.
Qed.

Lemma parse_hex_color_round_trip_witness :
  parse_hex_color "ff8000" 0 = (0, 16744448)
  /\ led_of_color "FF8000,1:000000" = {| r := 255; g := 128; b := 0 |}.
Proof.
  split.
  - exact (proj1 (parse_hex_color_round_trip false
                    {| r := 255; g := 128; b := 0 |} ""
                    ltac:(unfold is_byte; cbn; lia)
                    ltac:(unfold is_byte; cbn; lia)
                    ltac:(unfold is_byte; cbn; lia))).
  - exact (proj2 (parse_hex_color_round_trip true
                    {| r := 255; g := 128; b := 0 |} ",1:000000"
                    ltac:(unfold is_byte; cbn; lia)
                    ltac:(unfold is_byte; cbn; lia)
                    ltac:(unfold is_byte; cbn; lia))).
Defined.

End ColourProperties.

(** ** The parser of the driver on the commands it takes *)

Module AcceptedFacts.
Import CLib Errno RainbowHat Reference Encoding.
Import RainbowHatFacts DriverFacts CommandFacts.

Lemma char_at_prefix (h tail : string) :
  forall j : nat,
    (j < String.length h)%nat -> char_at (h ++ tail) j = char_at h j.
Proof.
  unfold char_at. induction h as [|c h IH]; intros j Hj;
    cbn [String.length] in Hj; [lia|].
  destruct j as [|j]; [reflexivity|]. cbn [append String.get].
  apply IH. lia.
Qed.

Lemma parse_hex_loop_ext (s s' : string) :
  forall (n i : nat) (acc : Z),
    (forall j, (i <= j < i + n)%nat -> char_at s j = char_at s' j) ->
    Driver.parse_hex_loop n i s acc = Driver.parse_hex_loop n i s' acc.
Proof.
  induction n as [|n IH]; intros i acc H; [reflexivity|].
  cbn [Driver.parse_hex_loop]. rewrite (H i) by lia.
  destruct (Driver.hex_to_int (char_at s' i) <? 0); [reflexivity|].
  apply IH. intros j Hj. apply H. lia.
Qed.

(** parse_hex_color reads six bytes and no more. *)
Lemma parse_hex_color_prefix (h tail : string) :
  String.length h = 6%nat ->
  Driver.parse_hex_color (h ++ tail) 0 = Driver.parse_hex_color h 0.
Proof.
  intros Hlen. unfold Driver.parse_hex_color. cbn [skip].
  apply parse_hex_loop_ext. intros j Hj. apply char_at_prefix. lia.
Qed.

Lemma hex6_length (h : string) : hex6 h = true -> String.length h = 6%nat.
Proof.
  unfold hex6. intros H. apply andb_prop in H as [Hl _].
  now apply Nat.eqb_eq in Hl.
Qed.

(** A pass over "d:hhhhhh," stores the colour read from the six digits. *)
Lemma token_stored (fuel : nat) (leds : list Driver.rgb_led) (d : ascii)
    (h rest : string) (count n : Z) :
  plain_char d = true -> Driver.kstrtol (String d "") = inl n ->
  0 <= n < Driver.NUMBER_LEDS -> hex6 h = true -> 8 < count ->
  Driver.parse_led_loop (S fuel) leds
    (String d (String ":" (h ++ String "," rest))) count 0
  = Driver.parse_led_loop fuel
      (Driver.set_led (Z.to_nat n) (led_of_color h) leds)
      (String d (String ":" (h ++ String "," rest))) count 9.
Proof.
  intros Hd Hk Hn Hh Hcount.
  rewrite (token_number_ok fuel leds d _ count n Hd Hk Hn) by lia.
  cbv zeta.
  pose proof (hex6_length h Hh) as Hlen.
  assert (Hp : Driver.parse_hex_color
                 (String d (String ":" (h ++ String "," rest))) 2
               = Driver.parse_hex_color h 0).
  { change (Driver.parse_hex_color
              (String d (String ":" (h ++ String "," rest))) 2)
      with (Driver.parse_hex_color (h ++ String "," rest) 0).
    now apply parse_hex_color_prefix. }
  rewrite Hp.
  pose proof (parse_hex_color_hex6 h "" Hh) as Hret.
  rewrite append_empty_r in Hret.
  unfold led_of_color, led_of_value.
  destruct (Driver.parse_hex_color h 0) as [ret color].
  cbn [fst snd] in *. subst ret. cbn [Z.ltb Z.compare].
  assert (Hs : Driver.strchr
                 (String d (String ":" (h ++ String "," rest))) 8 ","
               = Some 8%nat).
  { unfold Driver.strchr.
    change (skip 8 (String d (String ":" (h ++ String "," rest))))
      with (skip 6 (h ++ String "," rest)).
    replace (skip 6 (h ++ String "," rest)) with (String "," rest)
      by (rewrite <- Hlen; symmetry; apply skip_exact).
    reflexivity. }
  rewrite Hs.
  destruct (Z.ltb_spec (Z.of_nat 8) count); [|lia].
  reflexivity.
Qed.

(** A pass over "d:hhhhhh" at the end of the command stores the colour and
    ends the loop with 0; bytes that follow the sixth digit are not looked
    at as long as there is no comma among them. *)
Lemma token_last (fuel : nat) (leds : list Driver.rgb_led) (d : ascii)
    (h junk : string) (count n : Z) :
  plain_char d = true -> Driver.kstrtol (String d "") = inl n ->
  0 <= n < Driver.NUMBER_LEDS -> hex6 h = true -> 0 < count ->
  Driver.strchr_from junk "," = None ->
  Driver.parse_led_loop (S fuel) leds (String d (String ":" (h ++ junk)))
    count 0
  = Some (0, Driver.set_led (Z.to_nat n) (led_of_color h) leds).
Proof.
  intros Hd Hk Hn Hh Hcount Hjunk.
  rewrite (token_number_ok fuel leds d _ count n Hd Hk Hn) by lia.
  cbv zeta.
  pose proof (hex6_length h Hh) as Hlen.
  change (Driver.parse_hex_color (String d (String ":" (h ++ junk))) 2)
    with (Driver.parse_hex_color (h ++ junk) 0).
  rewrite (parse_hex_color_prefix h junk Hlen).
  pose proof (parse_hex_color_hex6 h "" Hh) as Hret.
  rewrite append_empty_r in Hret.
  unfold led_of_color, led_of_value.
  destruct (Driver.parse_hex_color h 0) as [ret color].
  cbn [fst snd] in *. subst ret. cbn [Z.ltb Z.compare].
  assert (Hs : Driver.strchr (String d (String ":" (h ++ junk))) 8 ","
               = None).
  { unfold Driver.strchr.
    change (skip 8 (String d (String ":" (h ++ junk))))
      with (skip 6 (h ++ junk)).
    pose proof (skip_exact h junk) as E. rewrite Hlen in E.
    rewrite E, Hjunk. reflexivity. }
  rewrite Hs. reflexivity.
Qed.

(** The loop of parse_led_colors, started on a command of the library whose
    entries it can all take, stores them one after the other and ends with
    0, also when bytes without a comma follow the last colour. *)
Lemma entries_accepted (f : Z -> string) (junk : string) :
  Driver.strchr_from junk "," = None ->
  forall (ps : list Z) (idx : Z) (leds : list Driver.rgb_led) (fuel : nat),
    ps <> [] -> 0 <= idx ->
    (forall k, (k < List.length ps)%nat ->
               entry_ok (nth k ps 0) (f (idx + Z.of_nat k))) ->
    (String.length (skip (sep_len idx) (led_text idx ps f) ++ junk) < fuel)%nat ->
    Driver.parse_led_loop fuel leds
      (skip (sep_len idx) (led_text idx ps f) ++ junk)
      (strlen (skip (sep_len idx) (led_text idx ps f) ++ junk)) 0
    = Some (0, apply_entries idx ps f leds).
Proof.
  intros Hjunk.
  induction ps as [|p ps IH]; intros idx leds fuel Hne Hidx Hok Hfuel;
    [contradiction|].
  rewrite command_body_cons in *.
  pose proof (Hok 0%nat ltac:(cbn; lia)) as Hp.
  cbn [nth] in Hp. rewrite Z.add_0_r in Hp.
  assert (Hm : (18 <= 19 - sep_len idx)%nat)
    by (unfold sep_len; destruct (idx >? 0); lia).
  destruct (entry_ok_token p (f idx) _ Hp Hm) as (d & E & Hd & Hk).
  rewrite E in *.
  destruct Hp as [Hp Hhex].
  pose proof (hex6_length _ Hhex) as Hlen.
  cbn [apply_entries].
  destruct fuel as [|fuel]; [lia|].
  destruct ps as [|x xs].
  - cbn [led_text apply_entries]. rewrite append_empty_r.
    change (String d (String ":" (f idx)) ++ junk)
      with (String d (String ":" (f idx ++ junk))).
    apply token_last; try assumption.
    rewrite !strlen_String.
    pose proof (strlen_nonneg (f idx ++ junk)). lia.
  - rewrite (led_text_next idx x xs f Hidx) in *.
    set (body' := skip (sep_len (idx + 1)) (led_text (idx + 1) (x :: xs) f))
      in *.
    replace ((String d (String ":" (f idx)) ++ String "," body') ++ junk)
      with (String d (String ":" (f idx ++ String "," (body' ++ junk))))
      in * by (cbn [append]; rewrite append_assoc; reflexivity).
    assert (Hcount : strlen (String d (String ":"
                                         (f idx ++ String "," (body' ++ junk))))
                     = 9 + strlen (body' ++ junk)).
    { rewrite !strlen_String, strlen_app, strlen_String.
      unfold strlen at 1. rewrite Hlen. lia. }
    assert (Hflen : String.length
                      (String d (String ":"
                                   (f idx ++ String "," (body' ++ junk))))
                    = (9 + String.length (body' ++ junk))%nat).
    { cbn [String.length]. rewrite string_length_app. cbn [String.length].
      lia. }
    rewrite (token_stored fuel leds d (f idx) (body' ++ junk) _ p
               Hd Hk Hp Hhex)
      by (rewrite Hcount; pose proof (strlen_nonneg (body' ++ junk)); lia).
    replace (String d (String ":" (f idx ++ String "," (body' ++ junk))))
      with (String d (String ":" (f idx ++ String "," "")) ++ (body' ++ junk))
      by (cbn [append]; rewrite append_assoc; reflexivity).
    assert (Hpre : String.length (String d (String ":" (f idx ++ String "," "")))
                   = 9%nat).
    { cbn [String.length]. rewrite string_length_app. cbn [String.length].
      lia. }
    pose proof (parse_led_loop_app
                  (String d (String ":" (f idx ++ String "," "")))
                  (body' ++ junk)
                  (strlen (String d (String ":" (f idx ++ String "," ""))
                           ++ (body' ++ junk)))
                  fuel (Driver.set_led (Z.to_nat p) (led_of_color (f idx)) leds)
                  0) as A.
    rewrite Hpre in A. change (9 + 0)%nat with 9%nat in A. rewrite A.
    replace (strlen (String d (String ":" (f idx ++ String "," ""))
                     ++ (body' ++ junk))
             - strlen (String d (String ":" (f idx ++ String "," ""))))
      with (strlen (body' ++ junk))
      by (rewrite (strlen_app _ (body' ++ junk)); lia).
    apply IH.
    + discriminate.
    + lia.
    + intros k Hk'.
      replace (idx + 1 + Z.of_nat k) with (idx + Z.of_nat (S k)) by lia.
      apply (Hok (S k)). cbn [List.length] in *. lia.
    + change (String.length (body' ++ junk) < fuel)%nat. lia.
Qed.

(** The loop of parse_led_colors, started on a command of the library,
    stores the entries it can take and stops with -EINVAL at the first one
    it refuses: the entries before that one stay in the table. *)
Lemma refused_entry_partial (f : Z -> string) (bad : Z) (more : list Z) :
  forall (good : list Z) (idx : Z) (leds : list Driver.rgb_led) (fuel : nat),
    0 <= idx ->
    (forall k, (k < List.length good)%nat ->
               entry_ok (nth k good 0) (f (idx + Z.of_nat k))) ->
    entry_refused bad (f (idx + Z.of_nat (List.length good))) ->
    (String.length
       (skip (sep_len idx) (led_text idx (good ++ bad :: more) f))
     < fuel)%nat ->
    Driver.parse_led_loop fuel leds
      (skip (sep_len idx) (led_text idx (good ++ bad :: more) f))
      (strlen (skip (sep_len idx) (led_text idx (good ++ bad :: more) f)))
      0
    = Some (- EINVAL, apply_entries idx good f leds).
Proof.
  induction good as [|p good IH]; intros idx leds fuel Hidx Hok Hbad Hfuel.
  - cbn [app List.length apply_entries] in *. rewrite Z.add_0_r in Hbad.
    rewrite command_body_cons in *.
    destruct fuel as [|fuel]; [lia|].
    assert (Hm : (18 <= 19 - sep_len idx)%nat)
      by (unfold sep_len; destruct (idx >? 0); lia).
    destruct (Z_le_gt_dec 0 bad) as [H0|H0];
      [destruct (Z_lt_ge_dec bad Driver.NUMBER_LEDS) as [H7|H7]|].
    + destruct Hbad as [Hbad|Hbad]; [exfalso; apply Hbad; lia|].
      apply bad_color_rejected;
        [lia | exact Hbad | now apply led_text_tail | exact Hm].
    + apply bad_pin_rejected; [lia | exact Hm].
    + apply bad_pin_rejected; [lia | exact Hm].
  - cbn [app apply_entries] in *. rewrite command_body_cons in *.
    pose proof (Hok 0%nat ltac:(cbn; lia)) as Hp.
    cbn [nth] in Hp. rewrite Z.add_0_r in Hp.
    assert (Hm : (18 <= 19 - sep_len idx)%nat)
      by (unfold sep_len; destruct (idx >? 0); lia).
    destruct (entry_ok_token p (f idx) _ Hp Hm) as (d & E & Hd & Hk).
    rewrite E in *.
    destruct Hp as [Hp Hhex].
    pose proof (hex6_length _ Hhex) as Hlen.
    destruct (good ++ bad :: more)%list as [|x xs] eqn:EL;
      [destruct good; discriminate EL|].
    rewrite (led_text_next idx x xs f Hidx) in *.
    rewrite <- EL in *.
    set (body' := skip (sep_len (idx + 1))
                    (led_text (idx + 1) (good ++ bad :: more) f)) in *.
    replace (String d (String ":" (f idx)) ++ String "," body')
      with (String d (String ":" (f idx ++ String "," body')))
      in * by reflexivity.
    assert (Hcount : strlen (String d (String ":" (f idx ++ String "," body')))
                     = 9 + strlen body').
    { rewrite !strlen_String, strlen_app, strlen_String.
      unfold strlen at 1. rewrite Hlen. lia. }
    assert (Hflen : String.length
                      (String d (String ":" (f idx ++ String "," body')))
                    = (9 + String.length body')%nat).
    { cbn [String.length]. rewrite string_length_app. cbn [String.length].
      lia. }
    destruct fuel as [|fuel]; [lia|].
    rewrite (token_stored fuel leds d (f idx) body' _ p Hd Hk Hp Hhex)
      by (rewrite Hcount; pose proof (strlen_nonneg body'); lia).
    replace (String d (String ":" (f idx ++ String "," body')))
      with (String d (String ":" (f idx ++ String "," "")) ++ body')
      by (cbn [append]; rewrite append_assoc; reflexivity).
    assert (Hpre : String.length (String d (String ":" (f idx ++ String "," "")))
                   = 9%nat).
    { cbn [String.length]. rewrite string_length_app. cbn [String.length].
      lia. }
    pose proof (parse_led_loop_app
                  (String d (String ":" (f idx ++ String "," ""))) body'
                  (strlen (String d (String ":" (f idx ++ String "," ""))
                           ++ body'))
                  fuel (Driver.set_led (Z.to_nat p) (led_of_color (f idx)) leds)
                  0) as A.
    rewrite Hpre in A. change (9 + 0)%nat with 9%nat in A. rewrite A.
    replace (strlen (String d (String ":" (f idx ++ String "," "")) ++ body')
             - strlen (String d (String ":" (f idx ++ String "," ""))))
      with (strlen body')
      by (rewrite strlen_app; lia).
    apply IH.
    + lia.
    + intros k Hk'.
      replace (idx + 1 + Z.of_nat k) with (idx + Z.of_nat (S k)) by lia.
      apply (Hok (S k)). cbn [List.length]. lia.
    + replace (idx + 1 + Z.of_nat (List.length good))
        with (idx + Z.of_nat (List.length (p :: good)))
        by (cbn [List.length]; lia).
      exact Hbad.
    + change (String.length body' < fuel)%nat. lia.
Qed.

(** A command whose entries the driver takes is shorter than the buffers
    on both sides. *)
Lemma led_text_ok_small (f : Z -> string) :
  forall (ps : list Z) (idx : Z),
    (forall k, (k < List.length ps)%nat ->
               entry_ok (nth k ps 0) (f (idx + Z.of_nat k))) ->
    strlen (led_text idx ps f) <= 9 * Z.of_nat (List.length ps).
Proof.
  induction ps as [|p ps IH]; intros idx Hok.
  - cbn. unfold strlen. cbn. lia.
  - cbn [led_text]. rewrite strlen_app.
    pose proof (Hok 0%nat ltac:(cbn; lia)) as [Hp Hhex].
    cbn [nth] in Hp, Hhex. rewrite Z.add_0_r in Hhex.
    pose proof (led_token_small idx p (f idx) Hp (hex6_length _ Hhex)).
    assert (strlen (led_text (idx + 1) ps f) <= 9 * Z.of_nat (List.length ps)).
    { apply IH. intros k Hk.
      replace (idx + 1 + Z.of_nat k) with (idx + Z.of_nat (S k)) by lia.
      apply (Hok (S k)). cbn [List.length]. lia. }
    cbn [List.length]. lia.
Qed.

End AcceptedFacts.

(** ** The LED table and the frame sent to the arc *)

Module TableFacts.
Import CLib Errno RainbowHat Reference Encoding Sample.
Import RainbowHatFacts DriverFacts CommandFacts AcceptedFacts.

Lemma set_led_length (v : Driver.rgb_led) :
  forall (l : list Driver.rgb_led) (i : nat),
    List.length (Driver.set_led i v l) = List.length l.
Proof.
  induction l as [|h t IH]; intros i; [destruct i; reflexivity|].
  destruct i as [|i]; cbn [Driver.set_led List.length]; [reflexivity|].
  now rewrite IH.
Qed.

Lemma set_led_same (v : Driver.rgb_led) :
  forall (l : list Driver.rgb_led) (i : nat),
    (i < List.length l)%nat -> nth_error (Driver.set_led i v l) i = Some v.
Proof.
  induction l as [|h t IH]; intros i Hi; cbn [List.length] in Hi; [lia|].
  destruct i as [|i]; cbn [Driver.set_led nth_error]; [reflexivity|].
  apply IH. lia.
Qed.

Lemma set_led_other (v : Driver.rgb_led) :
  forall (l : list Driver.rgb_led) (i j : nat),
    i <> j -> nth_error (Driver.set_led i v l) j = nth_error l j.
Proof.
  induction l as [|h t IH]; intros i j Hij; [destruct i; reflexivity|].
  destruct i as [|i], j as [|j]; cbn [Driver.set_led nth_error];
    try reflexivity; try contradiction.
  apply IH. lia.
Qed.

Lemma apply_entries_length (f : Z -> string) :
  forall (ps : list Z) (idx : Z) (leds : list Driver.rgb_led),
    List.length (apply_entries idx ps f leds) = List.length leds.
Proof.
  induction ps as [|p ps IH]; intros idx leds; cbn [apply_entries];
    [reflexivity|].
  rewrite IH. apply set_led_length.
Qed.

(** An LED no entry names keeps its colour. *)
Lemma apply_entries_other (f : Z -> string) (i : nat) :
  forall (ps : list Z) (idx : Z) (leds : list Driver.rgb_led),
    (forall p, In p ps -> Z.to_nat p <> i) ->
    nth_error (apply_entries idx ps f leds) i = nth_error leds i.
Proof.
  induction ps as [|p ps IH]; intros idx leds H; cbn [apply_entries];
    [reflexivity|].
  rewrite IH by (intros q Hq; apply H; now right).
  apply set_led_other. apply H. now left.
Qed.

(** An LED shows the colour of the last entry that names it. *)
Lemma apply_entries_last (f : Z -> string) (p : Z) (post : list Z) :
  forall (pre : list Z) (idx : Z) (leds : list Driver.rgb_led),
    (forall q, In q post -> Z.to_nat q <> Z.to_nat p) ->
    (Z.to_nat p < List.length leds)%nat ->
    nth_error (apply_entries idx (pre ++ p :: post) f leds) (Z.to_nat p)
    = Some (led_of_color (f (idx + Z.of_nat (List.length pre)))).
Proof.
  induction pre as [|x pre IH]; intros idx leds Hpost Hp.
  - cbn [app apply_entries List.length]. rewrite Z.add_0_r.
    rewrite apply_entries_other by exact Hpost.
    now apply set_led_same.
  - cbn [app apply_entries List.length].
    rewrite IH; [| exact Hpost | now rewrite set_led_length].
    replace (idx + 1 + Z.of_nat (List.length pre))
      with (idx + Z.of_nat (S (List.length pre))) by lia.
    reflexivity.
Qed.

Lemma parse_led_loop_length (buf : string) (count : Z) :
  forall (fuel : nat) (leds : list Driver.rgb_led) (curr : nat)
         (ret : Z) (leds' : list Driver.rgb_led),
    Driver.parse_led_loop fuel leds buf count curr = Some (ret, leds') ->
    List.length leds' = List.length leds
    /\ (ret = 0 \/ ret = - EINVAL).
Proof.
  induction fuel as [|fuel IH]; intros leds curr ret leds'; [discriminate|].
  cbn [Driver.parse_led_loop].
  destruct ((Z.of_nat curr <? count)
            && negb (Ascii.eqb (char_at buf curr) Ascii.zero));
    [|intros E; injection E as <- <-; auto].
  destruct (Driver.strchr buf curr ":") as [colon|];
    [|intros E; injection E as <- <-; auto].
  destruct (Z.of_nat (colon - curr) >=? 10);
    [intros E; injection E as <- <-; auto|].
  destruct (Driver.kstrtol (substring curr (colon - curr) buf)) as [led_num|];
    [|intros E; injection E as <- <-; auto].
  destruct ((led_num <? 0) || (led_num >=? Driver.NUMBER_LEDS));
    [intros E; injection E as <- <-; auto|].
  destruct (Driver.parse_hex_color buf (S colon)) as [r0 color].
  destruct (r0 <? 0); [intros E; injection E as <- <-; auto|].
  destruct (Driver.strchr buf (S colon + 6) ",") as [next|].
  - destruct (Z.of_nat next <? count).
    + intros E. apply IH in E. rewrite set_led_length in E. exact E.
    + intros E; injection E as <- <-. rewrite set_led_length. auto.
  - intros E; injection E as <- <-. rewrite set_led_length. auto.
Qed.

Lemma led_frame_length (l : list Driver.rgb_led) :
  List.length (Driver.led_frame l) = (8 + 4 * List.length l)%nat.
Proof.
  unfold Driver.led_frame. rewrite !length_app, !repeat_length.
  assert (E : forall l : list Driver.rgb_led,
            List.length
              (flat_map (fun x => [Z.lor Driver.LED_BRIGHTNESS
                                     Driver.MAX_BRIGHTNESS;
                                   Driver.b x; Driver.g x; Driver.r x]) l)
            = (4 * List.length l)%nat).
  { induction l0 as [|h t IH]; [reflexivity|].
    cbn [flat_map List.length app]. rewrite IH. lia. }
  rewrite E. unfold Driver.NUMBER_START_BYTES, Driver.NUMBER_STOP_BYTES. lia.
Qed.

(** The driver's parser takes a command of the library whose entries are
    all well formed, and stores them in order; bytes without a comma after
    the last colour change nothing. *)
Lemma command_parsed_junk (a : led_arg) (leds : list Driver.rgb_led)
    (junk : string) :
  counts_ok a -> all_entries_ok a ->
  Driver.strchr_from junk "," = None ->
  strlen (command_text a) <= 63
  /\ Driver.parse_led_colors leds (command_text a ++ junk)
       (strlen (command_text a ++ junk))
     = Some (0, apply_entries 0 (listed_pins a) (color_of a) leds).
Proof.
  intros Hok Hall Hjunk.
  pose proof Hok as (Hp & Hc & Hlp & Hlc).
  pose proof (listed_pins_length a Hok) as Hn.
  split.
  - unfold command_text.
    pose proof (led_text_ok_small (color_of a) (listed_pins a) 0) as H.
    cbn [Z.add] in H. specialize (H Hall).
    unfold MAX_AMOUNT_PINS in *. rewrite Hn in H. lia.
  - unfold Driver.parse_led_colors, command_text.
    apply (entries_accepted (color_of a) junk Hjunk (listed_pins a) 0 leds
             (S (String.length
                   (led_text 0 (listed_pins a) (color_of a) ++ junk)))).
    + intros E. rewrite E in Hn. cbn in Hn. lia.
    + lia.
    + intros k Hk. cbn [Z.add]. now apply Hall.
    + cbn [sep_len Z.gtb Z.compare skip]. lia.
Qed.

Lemma command_parsed (a : led_arg) (leds : list Driver.rgb_led) :
  counts_ok a -> all_entries_ok a ->
  strlen (command_text a) <= 63
  /\ Driver.parse_led_colors leds (command_text a) (strlen (command_text a))
     = Some (0, apply_entries 0 (listed_pins a) (color_of a) leds).
Proof.
  intros Hok Hall.
  pose proof (command_parsed_junk a leds "" Hok Hall eq_refl) as H.
  now rewrite append_empty_r in H.
Qed.

(** ... and rainbow_leds_write, when its kernel services succeed, answers
    the byte count and sends the frame of the new table. *)
Lemma command_written (a : led_arg) (env : Driver.kenv)
    (sdev : Driver.rainbow_spi_dev) :
  counts_ok a -> all_entries_ok a ->
  Driver.kmalloc_ok env = true -> Driver.lock_interrupted env = false ->
  Driver.copy_from_user_ok env = true -> Driver.spi sdev = true ->
  0 <= Driver.spi_sync_ret env ->
  Driver.rainbow_leds_write env sdev (command_text a)
  = Some (strlen (command_text a),
          {| Driver.leds :=
               apply_entries 0 (listed_pins a) (color_of a) (Driver.leds sdev);
             Driver.spi := true;
             Driver.frames :=
               (Driver.frames sdev
                ++ [Driver.led_frame
                      (apply_entries 0 (listed_pins a) (color_of a)
                         (Driver.leds sdev))])%list |}).
Proof.
  intros Hok Hall Hk Hl Hcp Hspi Hsync.
  destruct (command_parsed a (Driver.leds sdev) Hok Hall) as [Hlen Hparse].
  unfold Driver.rainbow_leds_write, Driver.update_leds.
  destruct (Z.gtb_spec (strlen (command_text a))
              Driver.MAX_EXPECTED_INPUT_LENGTH) as [Hbig|_];
    [unfold Driver.MAX_EXPECTED_INPUT_LENGTH in Hbig; lia|].
  rewrite Hk, Hl, Hcp, Hparse. cbn [negb Z.eqb Driver.spi Driver.leds
                                    Driver.frames].
  rewrite Hspi. cbn [negb].
  destruct (Z.ltb_spec (Driver.spi_sync_ret env) 0) as [|_]; [lia|].
  reflexivity.
Qed.

Lemma one_two_one_ok : counts_ok one_two_one /\ all_entries_ok one_two_one.
Proof.
  split; [repeat split; vm_compute; discriminate|].
  intros k Hk.
  change (List.length (listed_pins one_two_one)) with 3%nat in Hk.
  destruct k as [|[|[|k]]]; try lia;
    repeat split; vm_compute; try reflexivity; discriminate.
Qed.

End TableFacts.

Module LedWriteProperties.
Import CLib Errno RainbowHat Reference Encoding Sample.
Import RainbowHatFacts DriverFacts CommandFacts AcceptedFacts TableFacts.
Import ColourFacts.

(** X8.  The frame update_leds hands to the SPI bus for a table of seven
    LEDs is 36 bytes long: four bytes 0, then for LED i the four bytes
    0xFF, blue, green, red at offset 4 + 4 i, then four bytes 0xFF. *)
Theorem led_frame_layout :
  forall l : list Driver.rgb_led,
    List.length l = Z.to_nat Driver.NUMBER_LEDS ->
    List.length (Driver.led_frame l) = 36%nat
    /\ firstn 4 (Driver.led_frame l) = [0; 0; 0; 0]
    /\ skipn 32 (Driver.led_frame l) = [255; 255; 255; 255]
    /\ forall (i : nat) (x : Driver.rgb_led),
         nth_error l i = Some x ->
         firstn 4 (skipn (4 + 4 * i) (Driver.led_frame l))
         = [255; Driver.b x; Driver.g x; Driver.r x].
Proof.
  intros l Hl.
  destruct l as [|l0 [|l1 [|l2 [|l3 [|l4 [|l5 [|l6 [|l7 l]]]]]]]];
    try discriminate Hl.
  split; [reflexivity|]. split; [reflexivity|]. split; [reflexivity|].
  intros i x Hi.
  destruct i as [|[|[|[|[|[|[|i]]]]]]]; cbn [nth_error] in Hi;
    try (injection Hi as <-; reflexivity).
  destruct i; discriminate Hi.
Qed.

Lemma led_frame_layout_witness :
  List.length (Driver.led_frame (Driver.leds leds_dark)) = 36%nat.
Proof.
  exact (proj1 (led_frame_layout (Driver.leds leds_dark) eq_refl)).
Defined.

(** X9.  A command of the library in which every pin is a LED number and
    every colour is six hexadecimal digits is shorter than the 70 bytes the
    driver takes, is encoded by create_led_array with answer 0, and is read
    by parse_led_colors with answer 0, the entries being stored in the
    table in the order of the command.  When memory, mutex, copy and SPI
    transfer are in order rainbow_leds_write answers the byte count and
    sends one frame, that of the new table. *)
Theorem well_formed_command_accepted :
  forall (a : led_arg) (w : world) (env : Driver.kenv)
         (sdev : Driver.rainbow_spi_dev),
    counts_ok a -> all_entries_ok a ->
    strlen (command_text a) < Driver.MAX_EXPECTED_INPUT_LENGTH
    /\ create_led_array (pins a) (amount_pins a) (colors a) (amount_colors a) w
       = Some (0, set_LED_ARRAY (command_text a) w)
    /\ Driver.parse_led_colors (Driver.leds sdev) (command_text a)
         (strlen (command_text a))
       = Some (0, apply_entries 0 (listed_pins a) (color_of a)
                    (Driver.leds sdev))
    /\ (Driver.kmalloc_ok env = true -> Driver.lock_interrupted env = false ->
        Driver.copy_from_user_ok env = true -> Driver.spi sdev = true ->
        0 <= Driver.spi_sync_ret env ->
        Driver.rainbow_leds_write env sdev (command_text a)
        = Some (strlen (command_text a),
                {| Driver.leds :=
                     apply_entries 0 (listed_pins a) (color_of a)
                       (Driver.leds sdev);
                   Driver.spi := true;
                   Driver.frames :=
                     (Driver.frames sdev
                      ++ [Driver.led_frame
                            (apply_entries 0 (listed_pins a) (color_of a)
                               (Driver.leds sdev))])%list |})).
Proof.
  intros a w env sdev Hok Hall.
  destruct (command_parsed a (Driver.leds sdev) Hok Hall) as [Hlen Hparse].
  split; [unfold Driver.MAX_EXPECTED_INPUT_LENGTH; lia|].
  split; [apply create_led_array_fits;
          [exact Hok | unfold LED_ARRAY_SIZE; lia]|].
  split; [exact Hparse|].
  now apply command_written.
Qed.

Lemma well_formed_command_accepted_witness :
  counts_ok one_two_one /\ all_entries_ok one_two_one
  /\ exists sdev' : Driver.rainbow_spi_dev,
       Driver.rainbow_leds_write env_ok leds_dark "1:FF0000,2:00ff00,1:0000FF"
       = Some (26, sdev')
       /\ List.length (Driver.frames sdev') = 1%nat.
Proof.
  pose proof one_two_one_ok as [Hok Hall].
  split; [exact Hok|]. split; [exact Hall|].
  destruct (well_formed_command_accepted one_two_one w0 env_ok leds_dark
              Hok Hall) as (_ & _ & _ & H).
  eexists. split.
  - apply H; try reflexivity; vm_compute; discriminate.
  - reflexivity.
Defined.

End LedWriteProperties.

Module TableProperties.
Import CLib Errno RainbowHat Reference Encoding Sample.
Import RainbowHatFacts DriverFacts CommandFacts AcceptedFacts TableFacts.
Import ColourFacts LibraryProperties.

Lemma entries_in_range (a : led_arg) (p : Z) :
  all_entries_ok a -> In p (listed_pins a) -> 0 <= p < Driver.NUMBER_LEDS.
Proof.
  intros Hall Hin.
  destruct (In_nth _ _ 0 Hin) as (k & Hk & E).
  destruct (Hall k Hk) as [Hp _]. now rewrite E in Hp.
Qed.

(** X10.  After parse_led_colors has read a well-formed command of the
    library into a table of seven LEDs, the table is as long as before, a
    LED the command does not name has kept its colour, and a LED shows the
    colour of the last entry that names it: when that colour was written as
    the six hexadecimal digits of the bytes r, g, b, the entry of the table
    holds exactly these bytes. *)
Theorem written_colours_reach_table :
  forall (a : led_arg) (leds : list Driver.rgb_led),
    counts_ok a -> all_entries_ok a ->
    List.length leds = Z.to_nat Driver.NUMBER_LEDS ->
    exists leds' : list Driver.rgb_led,
      Driver.parse_led_colors leds (command_text a) (strlen (command_text a))
      = Some (0, leds')
      /\ List.length leds' = List.length leds
      /\ (forall i : nat,
            ~ In (Z.of_nat i) (listed_pins a) ->
            nth_error leds' i = nth_error leds i)
      /\ (forall (pre post : list Z) (p : Z) (upper : bool)
                 (x : Driver.rgb_led),
            listed_pins a = (pre ++ p :: post)%list -> ~ In p post ->
            color_of a (Z.of_nat (List.length pre)) = hex_color upper x ->
            is_byte (Driver.r x) -> is_byte (Driver.g x) ->
            is_byte (Driver.b x) ->
            nth_error leds' (Z.to_nat p) = Some x).
Proof.
  intros a leds Hok Hall Hlen.
  destruct (command_parsed a leds Hok Hall) as [_ Hparse].
  exists (apply_entries 0 (listed_pins a) (color_of a) leds).
  split; [exact Hparse|]. split; [apply apply_entries_length|]. split.
  - intros i Hi. apply apply_entries_other. intros p Hp E.
    apply Hi. pose proof (entries_in_range a p Hall Hp).
    replace (Z.of_nat i) with p by lia. exact Hp.
  - intros pre post p upper x Hpins Hpost Hcol Hr Hg Hb.
    assert (Hp : 0 <= p < Driver.NUMBER_LEDS).
    { apply (entries_in_range a p Hall). rewrite Hpins.
      apply in_or_app. right. now left. }
    rewrite Hpins, apply_entries_last.
    + cbn [Z.add]. rewrite Hcol.
      pose proof (parse_hex_color_encoded upper x "" Hr Hg Hb) as E.
      rewrite append_empty_r in E. unfold led_of_color. rewrite E.
      f_equal. now apply led_of_value_bytes.
    + intros q Hq E. apply Hpost.
      assert (0 <= q < Driver.NUMBER_LEDS).
      { apply (entries_in_range a q Hall). rewrite Hpins.
        apply in_or_app. right. now right. }
      replace p with q by lia. exact Hq.
    + rewrite Hlen. lia.
Qed.

Lemma written_colours_reach_table_witness :
  counts_ok one_two_one /\ all_entries_ok one_two_one
  /\ exists leds' : list Driver.rgb_led,
       Driver.parse_led_colors (Driver.leds leds_dark)
         "1:FF0000,2:00ff00,1:0000FF" 26
       = Some (0, leds')
       /\ nth_error leds' 1
          = Some {| Driver.r := 0; Driver.g := 0; Driver.b := 255 |}
       /\ nth_error leds' 2
          = Some {| Driver.r := 0; Driver.g := 255; Driver.b := 0 |}.
Proof.
  pose proof one_two_one_ok as [Hok Hall].
  split; [exact Hok|]. split; [exact Hall|].
  destruct (written_colours_reach_table one_two_one (Driver.leds leds_dark)
              Hok Hall eq_refl) as (leds' & E & _ & _ & H).
  exists leds'. split; [exact E|]. split.
  - apply (H [1; 2] [] 1 true
             {| Driver.r := 0; Driver.g := 0; Driver.b := 255 |});
      [reflexivity | intros [] | reflexivity | ..];
      unfold is_byte; cbn; lia.
  - apply (H [1] [1] 2 false
             {| Driver.r := 0; Driver.g := 255; Driver.b := 0 |});
      [reflexivity | intros [E1|[]]; discriminate E1 | reflexivity | ..];
      unfold is_byte; cbn; lia.
Defined.

(** X11.  led_light_off on a live handle writes the all-black command, and
    rainbow_leds_write, given that command with memory, mutex, copy and SPI
    transfer in order, answers 62, sets every one of the seven LEDs to
    (0, 0, 0) whatever the table held, and sends the frame of a dark arc. *)
Theorem led_light_off_blacks_out :
  forall sw (d : rainbow_hat_dev) (w : world) (env : Driver.kenv)
         (sdev : Driver.rainbow_spi_dev),
    List.length (Driver.leds sdev) = Z.to_nat Driver.NUMBER_LEDS ->
    Driver.kmalloc_ok env = true -> Driver.lock_interrupted env = false ->
    Driver.copy_from_user_ok env = true -> Driver.spi sdev = true ->
    0 <= Driver.spi_sync_ret env ->
    led_light_off sw (Live d) w
    = Some (set_leds sw (leds_fd d) (set_LED_ARRAY all_black_text w))
    /\ Driver.rainbow_leds_write env sdev all_black_text
       = Some (62,
               {| Driver.leds :=
                    repeat {| Driver.r := 0; Driver.g := 0; Driver.b := 0 |} 7;
                  Driver.spi := true;
                  Driver.frames :=
                    (Driver.frames sdev
                     ++ [[0; 0; 0; 0;
                          255; 0; 0; 0; 255; 0; 0; 0; 255; 0; 0; 0;
                          255; 0; 0; 0; 255; 0; 0; 0; 255; 0; 0; 0;
                          255; 0; 0; 0;
                          255; 255; 255; 255]])%list |}).
Proof.
  intros sw d w env sdev Hlen Hk Hl Hc Hspi Hsync.
  split; [apply led_light_off_live|].
  set (a := {| amount_colors := 1; colors := [COL_BLACK];
               amount_pins := MAX_AMOUNT_PINS; pins := PIN_NUMBERS |}).
  assert (Hok : counts_ok a) by (repeat split; vm_compute; discriminate).
  assert (Hall : all_entries_ok a).
  { intros k Hk'.
    change (List.length (listed_pins a)) with 7%nat in Hk'.
    destruct k as [|[|[|[|[|[|[|k]]]]]]]; try lia;
      repeat split; vm_compute; try reflexivity; discriminate. }
  pose proof (command_written a env sdev Hok Hall Hk Hl Hc Hspi Hsync)
    as Hwrite.
  change (command_text a) with all_black_text in Hwrite.
  rewrite Hwrite.
  destruct (Driver.leds sdev)
    as [|l0 [|l1 [|l2 [|l3 [|l4 [|l5 [|l6 [|l7 l]]]]]]]];
    try discriminate Hlen.
  reflexivity.
Qed.

Lemma led_light_off_blacks_out_witness :
  exists sdev' : Driver.rainbow_spi_dev,
    Driver.rainbow_leds_write env_ok
      leds_grey all_black_text
    = Some (62, sdev')
    /\ Driver.leds sdev'
       = repeat {| Driver.r := 0; Driver.g := 0; Driver.b := 0 |} 7.
Proof.
  eexists. split.
  - exact (proj2 (led_light_off_blacks_out write_accepts dev345 w0 env_ok
                    leds_grey
                    eq_refl eq_refl eq_refl eq_refl eq_refl
                    ltac:(cbn; lia))).
  - reflexivity.
Defined.

(** X12.  rainbow_leds_write always comes back and never changes the
    length of the LED table.  A non-negative answer is the byte count, and
    then exactly one frame was sent, that of the table as it is now.  A
    negative answer is -EINVAL, -ENOMEM, -ERESTARTSYS, -EFAULT or -EIO, and
    unless it is -EIO no frame was sent.  More than 70 bytes are turned
    away with -EINVAL and nothing is changed. *)
Theorem rainbow_leds_write_outcome :
  forall (env : Driver.kenv) (sdev : Driver.rainbow_spi_dev) (buf : string),
    exists (ret : Z) (sdev' : Driver.rainbow_spi_dev),
      Driver.rainbow_leds_write env sdev buf = Some (ret, sdev')
      /\ Driver.spi sdev' = Driver.spi sdev
      /\ List.length (Driver.leds sdev') = List.length (Driver.leds sdev)
      /\ (0 <= ret ->
          ret = strlen buf
          /\ Driver.frames sdev'
             = (Driver.frames sdev
                ++ [Driver.led_frame (Driver.leds sdev')])%list)
      /\ (ret < 0 ->
          ret = - EINVAL \/ ret = - ENOMEM \/ ret = - ERESTARTSYS
          \/ ret = - EFAULT \/ ret = - EIO)
      /\ (ret < 0 -> ret <> - EIO ->
          Driver.frames sdev' = Driver.frames sdev)
      /\ (Driver.MAX_EXPECTED_INPUT_LENGTH < strlen buf ->
          ret = - EINVAL /\ sdev' = sdev).
Proof.
  intros env sdev buf. unfold Driver.rainbow_leds_write.
  pose proof (strlen_nonneg buf) as Hnn.
  destruct (Z.gtb_spec (strlen buf) Driver.MAX_EXPECTED_INPUT_LENGTH)
    as [Hbig|Hfit].
  { do 2 eexists; (split; [reflexivity|]);
    cbn [Driver.spi Driver.leds Driver.frames];
    unfold EINVAL, ENOMEM, ERESTARTSYS, EFAULT, EIO, ENODEV,
      Driver.MAX_EXPECTED_INPUT_LENGTH in *;
    repeat split; intros; try reflexivity; try lia; try assumption;
    try (now symmetry); auto 7. }
  destruct (Driver.kmalloc_ok env); cbn [negb].
  2: { do 2 eexists; (split; [reflexivity|]);
    cbn [Driver.spi Driver.leds Driver.frames];
    unfold EINVAL, ENOMEM, ERESTARTSYS, EFAULT, EIO, ENODEV,
      Driver.MAX_EXPECTED_INPUT_LENGTH in *;
    repeat split; intros; try reflexivity; try lia; try assumption;
    try (now symmetry); auto 7. }
  destruct (Driver.lock_interrupted env).
  { do 2 eexists; (split; [reflexivity|]);
    cbn [Driver.spi Driver.leds Driver.frames];
    unfold EINVAL, ENOMEM, ERESTARTSYS, EFAULT, EIO, ENODEV,
      Driver.MAX_EXPECTED_INPUT_LENGTH in *;
    repeat split; intros; try reflexivity; try lia; try assumption;
    try (now symmetry); auto 7. }
  destruct (Driver.copy_from_user_ok env); cbn [negb].
  2: { do 2 eexists; (split; [reflexivity|]);
    cbn [Driver.spi Driver.leds Driver.frames];
    unfold EINVAL, ENOMEM, ERESTARTSYS, EFAULT, EIO, ENODEV,
      Driver.MAX_EXPECTED_INPUT_LENGTH in *;
    repeat split; intros; try reflexivity; try lia; try assumption;
    try (now symmetry); auto 7. }
  destruct (parse_led_colors_total (Driver.leds sdev) buf (strlen buf))
    as [[ret leds1] Hparse].
  rewrite Hparse.
  destruct (parse_led_loop_length _ _ _ _ _ _ _ Hparse) as [Hlen Hret].
  destruct Hret as [-> | ->].
  2: { cbn [negb Z.eqb Z.opp EINVAL]. do 2 eexists; (split; [reflexivity|]);
    cbn [Driver.spi Driver.leds Driver.frames];
    unfold EINVAL, ENOMEM, ERESTARTSYS, EFAULT, EIO, ENODEV,
      Driver.MAX_EXPECTED_INPUT_LENGTH in *;
    repeat split; intros; try reflexivity; try lia; try assumption;
    try (now symmetry); auto 7. }
  cbn [negb Z.eqb]. unfold Driver.update_leds.
  cbn [Driver.spi Driver.leds Driver.frames].
  destruct (Driver.spi sdev) eqn:Hspi; cbn [negb].
  2: { cbn [negb Z.eqb Z.opp ENODEV]. do 2 eexists; (split; [reflexivity|]);
    cbn [Driver.spi Driver.leds Driver.frames];
    unfold EINVAL, ENOMEM, ERESTARTSYS, EFAULT, EIO, ENODEV,
      Driver.MAX_EXPECTED_INPUT_LENGTH in *;
    repeat split; intros; try reflexivity; try lia; try assumption;
    try (now symmetry); auto 7. }
  destruct (Z.ltb_spec (Driver.spi_sync_ret env) 0) as [Hs|Hs].
  - destruct (Z.eqb_spec (Driver.spi_sync_ret env) 0) as [|_]; [lia|].
    cbn [negb]. do 2 eexists; (split; [reflexivity|]);
    cbn [Driver.spi Driver.leds Driver.frames];
    unfold EINVAL, ENOMEM, ERESTARTSYS, EFAULT, EIO, ENODEV,
      Driver.MAX_EXPECTED_INPUT_LENGTH in *;
    repeat split; intros; try reflexivity; try lia; try assumption;
    try (now symmetry); auto 7.
  - cbn [negb Z.eqb]. do 2 eexists; (split; [reflexivity|]);
    cbn [Driver.spi Driver.leds Driver.frames];
    unfold EINVAL, ENOMEM, ERESTARTSYS, EFAULT, EIO, ENODEV,
      Driver.MAX_EXPECTED_INPUT_LENGTH in *;
    repeat split; intros; try reflexivity; try lia; try assumption;
    try (now symmetry); auto 7.
Qed.

End TableProperties.

(** ** The buttons: from the GPIO lines to the caller *)

Module ButtonProperties.
Import CLib Errno RainbowHat Reference Encoding Sample RainbowHatFacts.
Import Driver.

(** X13.  rainbow_buttons_read with room for three bytes, three lines that
    can be read and a successful copy answers 3, stores one byte per
    button, '1' for a line that reads 0 and '0' for any other value, and
    moves the file offset on by 3.  With room for fewer than three bytes it
    answers -EINVAL; when a line cannot be read it answers the negative
    value of the first such line; when the copy fails it answers -EFAULT.
    In these cases nothing is stored and the offset stays. *)
Theorem rainbow_buttons_read_active_low :
  forall (copy_to_user_ok : bool) (gpiod_get_value : nat -> Z)
         (len offset : Z),
    (3 <= len -> 0 <= gpiod_get_value 0%nat -> 0 <= gpiod_get_value 1%nat ->
     0 <= gpiod_get_value 2%nat -> copy_to_user_ok = true ->
     rainbow_buttons_read copy_to_user_ok gpiod_get_value len offset
     = (3,
        String (status_char (gpiod_get_value 0%nat))
          (String (status_char (gpiod_get_value 1%nat))
             (String (status_char (gpiod_get_value 2%nat)) "")),
        offset + 3))
    /\ (len < 3 ->
        rainbow_buttons_read copy_to_user_ok gpiod_get_value len offset
        = (- EINVAL, "", offset))
    /\ (3 <= len ->
        forall i : nat,
          (i < 3)%nat -> gpiod_get_value i < 0 ->
          (forall j : nat, (j < i)%nat -> 0 <= gpiod_get_value j) ->
          rainbow_buttons_read copy_to_user_ok gpiod_get_value len offset
          = (gpiod_get_value i, "", offset))
    /\ (3 <= len -> 0 <= gpiod_get_value 0%nat -> 0 <= gpiod_get_value 1%nat ->
        0 <= gpiod_get_value 2%nat -> copy_to_user_ok = false ->
        rainbow_buttons_read copy_to_user_ok gpiod_get_value len offset
        = (- EFAULT, "", offset)).
Proof.
  intros cp gp len offset. unfold rainbow_buttons_read.
  split; [|split; [|split]].
  - intros Hlen H0 H1 H2 ->.
    destruct (Z.ltb_spec len 3); [lia|]. cbn [read_button_gpios].
    destruct (Z.ltb_spec (gp 0%nat) 0); [lia|].
    destruct (Z.ltb_spec (gp 1%nat) 0); [lia|].
    destruct (Z.ltb_spec (gp 2%nat) 0); [lia|].
    unfold status_char.
    destruct (gp 0%nat =? 0), (gp 1%nat =? 0), (gp 2%nat =? 0); reflexivity.
  - intros Hlen. destruct (Z.ltb_spec len 3); [reflexivity | lia].
  - intros Hlen i Hi Hneg Hbefore.
    destruct (Z.ltb_spec len 3); [lia|]. cbn [read_button_gpios].
    destruct i as [|[|[|i]]]; [| | |lia].
    + destruct (Z.ltb_spec (gp 0%nat) 0); [|lia].
      destruct (Z.ltb_spec (gp 0%nat) 0); [reflexivity | lia].
    + pose proof (Hbefore 0%nat ltac:(lia)).
      destruct (Z.ltb_spec (gp 0%nat) 0); [lia|].
      destruct (Z.ltb_spec (gp 1%nat) 0); [|lia].
      destruct (Z.ltb_spec (gp 1%nat) 0); [reflexivity | lia].
    + pose proof (Hbefore 0%nat ltac:(lia)).
      pose proof (Hbefore 1%nat ltac:(lia)).
      destruct (Z.ltb_spec (gp 0%nat) 0); [lia|].
      destruct (Z.ltb_spec (gp 1%nat) 0); [lia|].
      destruct (Z.ltb_spec (gp 2%nat) 0); [|lia].
      destruct (Z.ltb_spec (gp 2%nat) 0); [reflexivity | lia].
  - intros Hlen H0 H1 H2 ->.
    destruct (Z.ltb_spec len 3); [lia|]. cbn [read_button_gpios].
    destruct (Z.ltb_spec (gp 0%nat) 0); [lia|].
    destruct (Z.ltb_spec (gp 1%nat) 0); [lia|].
    destruct (Z.ltb_spec (gp 2%nat) 0); [lia|].
    reflexivity.
Qed.


Lemma rainbow_buttons_read_active_low_witness :
  rainbow_buttons_read true lines_b_low 3 0 = (3, "010", 3)
  /\ rainbow_buttons_read true lines_b_low 2 0 = (- EINVAL, "", 0).
Proof.
  destruct (rainbow_buttons_read_active_low true lines_b_low 3 0)
    as (H & _).
  destruct (rainbow_buttons_read_active_low true lines_b_low 2 0)
    as (_ & H2 & _).
  split.
  - apply H; try reflexivity; cbn; lia.
  - apply H2. lia.
Defined.

(** X14.  A read of the button endpoint that is answered the way
    rainbow_buttons_read answers makes get_active_button name the first
    button, in the order A, B, C, whose line reads 0, and NUL when no line
    does: the lines are active low. *)
Theorem button_press_reaches_caller :
  forall sr (d : rainbow_hat_dev) (btn0 : ascii) (w : world)
         (gpiod_get_value : nat -> Z) (offset : Z),
    0 <= buttons_fd d ->
    0 <= gpiod_get_value 0%nat -> 0 <= gpiod_get_value 1%nat ->
    0 <= gpiod_get_value 2%nat ->
    sr (trace w) (buttons_fd d) 3
    = fst (rainbow_buttons_read true gpiod_get_value 3 offset) ->
    get_active_button sr (Live d) btn0 w
    = Some (0, first_low gpiod_get_value, log (EvRead (buttons_fd d) 3) w).
Proof.
  intros sr d btn0 w gp offset Hfd H0 H1 H2 Hread.
  unfold rainbow_buttons_read in Hread.
  change (3 <? 3) with false in Hread. cbn [read_button_gpios] in Hread.
  destruct (Z.ltb_spec (gp 0%nat) 0); [lia|].
  destruct (Z.ltb_spec (gp 1%nat) 0); [lia|].
  destruct (Z.ltb_spec (gp 2%nat) 0); [lia|].
  cbn [negb fst append Z.ltb Z.compare] in Hread.
  unfold get_active_button.
  destruct (Z.geb_spec (buttons_fd d) 0) as [_|]; [|lia].
  rewrite Hread. cbn [Z.ltb Z.compare]. unfold first_low.
  destruct (gp 0%nat =? 0), (gp 1%nat =? 0), (gp 2%nat =? 0); reflexivity.
Qed.

Lemma button_press_reaches_caller_witness :
  get_active_button read_b_low (Live dev345) "x" w0
  = Some (0, "B"%char, log (EvRead 4 3) w0).
Proof.
  apply (button_press_reaches_caller read_b_low dev345 "x" w0 lines_b_low 0);
    try reflexivity; cbn; lia.
Defined.

End ButtonProperties.

(** ** The buzzer write path once more; probing and loading *)

Module BuzzerOutcomes.
Import CLib Errno Driver Sample BuzzerProperties.

(** X15.  rainbow_buzzer_write always comes back and leaves the mutex as
    it found it.  A byte count other than the size of an unsigned long is
    answered -EINVAL, a held mutex -EBUSY and a failed copy -EFAULT, each
    without any change to the device.  For every frequency other than 0
    the range check on the period passes: the PWM is configured with the
    period 1000000000 / freq and half of it as duty time, and it is enabled
    only when the configuration was accepted; otherwise the answer is that
    of pwm_config. *)
Theorem rainbow_buzzer_write_rejections :
  forall (env : kenv) (g : rainbow_gpio_dev) (count freq : Z),
    exists (ret : Z) (g' : rainbow_gpio_dev),
      rainbow_buzzer_write env g count freq = Some (ret, g')
      /\ lock g' = lock g
      /\ (count <> sizeof_ulong env -> ret = - EINVAL /\ g' = g)
      /\ (count = sizeof_ulong env -> lock g = true ->
          ret = - EBUSY /\ g' = g)
      /\ (count = sizeof_ulong env -> lock g = false ->
          copy_from_user_ok env = false -> ret = - EFAULT /\ g' = g)
      /\ (count = sizeof_ulong env -> lock g = false ->
          copy_from_user_ok env = true -> freq <> 0 ->
          pwm g'
          = (pwm g
             ++ PwmConfig (1000000000 / freq / 2) (1000000000 / freq)
                :: (if pwm_config_ret env =? 0 then [PwmEnable] else []))%list
          /\ ret = (if pwm_config_ret env =? 0 then count
                    else pwm_config_ret env)).
Proof.
  intros env g count freq.
  unfold rainbow_buzzer_write, buzzer_trylock.
  destruct (Z.eqb_spec count (sizeof_ulong env)) as [Hc|Hc]; cbn [negb].
  2: { do 2 eexists. split; [reflexivity|].
       repeat split; try reflexivity; contradiction. }
  destruct (lock g) eqn:Hlock.
  { do 2 eexists. split; [reflexivity|].
    repeat split; try reflexivity; try contradiction; try discriminate;
      exact Hlock. }
  assert (Hg : set_lock false (set_lock true g) = g).
  { destruct g as [l p]. cbn in Hlock. subst l. reflexivity. }
  unfold buzzer_locked, udiv.
  destruct (copy_from_user_ok env) eqn:Hcopy; cbn [negb].
  2: { do 2 eexists. split; [reflexivity|]. rewrite Hg.
       repeat split; try reflexivity; try contradiction; try discriminate;
         exact Hlock. }
  destruct (Z.eqb_spec freq 0) as [Hf|Hf].
  { do 2 eexists. split; [reflexivity|].
    repeat split; try reflexivity; try contradiction; discriminate. }
  pose proof (period_bound freq Hf) as Hp.
  destruct (Z.gtb_spec (1000000000 / freq) INT_MAX) as [|_]; [lia|].
  destruct (pwm_config_ret env =? 0);
    do 2 eexists; (split; [reflexivity|]);
    cbn [set_lock pwm_call lock pwm];
    repeat split; try reflexivity; try contradiction; try discriminate;
    rewrite <- app_assoc; reflexivity.
Qed.

End BuzzerOutcomes.

Module SetupProperties.
Import Errno Setup Sample.

Lemma filter_keep (x : registration) (l : list registration) :
  ~ In x l -> filter (fun y => negb (same_registration x y)) l = l.
Proof.
  induction l as [|h t IH]; intros H; [reflexivity|].
  cbn [filter].
  assert (E : same_registration x h = false).
  { destruct (same_registration x h) eqn:E; [|reflexivity].
    exfalso. apply H. left.
    destruct x, h; cbn in E; try discriminate; try reflexivity.
    apply String.eqb_eq in E. now subst. }
  rewrite E. cbn [negb]. rewrite IH; [reflexivity|].
  intros Hin. apply H. now right.
Qed.

Lemma same_registration_refl (x : registration) : same_registration x x = true.
Proof. destruct x; cbn; [apply String.eqb_refl | reflexivity ..]. Qed.

Lemma filter_same (x : registration) :
  filter (fun y => negb (same_registration x y)) [x] = [].
Proof. cbn [filter]. now rewrite same_registration_refl. Qed.

Lemma filter_other (x y : registration) :
  same_registration x y = false ->
  filter (fun z => negb (same_registration x z)) [y] = [y].
Proof. intros H. cbn [filter]. now rewrite H. Qed.

Lemma unregister_registered (x : registration) (k : kernel) :
  ~ In x (registered k) ->
  registered (unregister x (register x k)) = registered k.
Proof.
  intros H. unfold unregister, register. cbn [registered].
  rewrite filter_app. cbn [filter]. rewrite same_registration_refl.
  cbn [negb]. rewrite app_nil_r. now apply filter_keep.
Qed.

(** X16.  rainbow_hat_platform_driver_probe answers 0 only after it has
    registered the button device and the buzzer device, in that order, and
    attached the driver data.  A failure attaches no driver data.  When
    the PWM cannot be had, or the buzzer device cannot be registered, the
    probe answers that error and the button device, registered before,
    stays registered; rainbow_hat_platform_driver_remove, which finds no
    driver data, does not take it away. *)
Theorem platform_probe_outcome :
  forall (env : probe_env) (k : kernel),
    exists (ret : Z) (k' : kernel),
      rainbow_hat_platform_driver_probe env k = (ret, k')
      /\ spi_drvdata k' = spi_drvdata k
      /\ (ret = 0 ->
          registered k'
          = (registered k ++ [MiscDevice DEVICE_NAME_BUTTON;
                              MiscDevice DEVICE_NAME_BUZZER])%list
          /\ platform_drvdata k' = true)
      /\ (ret <> 0 ->
          platform_drvdata k' = platform_drvdata k
          /\ (registered k' = registered k
              \/ registered k'
                 = (registered k ++ [MiscDevice DEVICE_NAME_BUTTON])%list))
      /\ (devm_kzalloc_ok env = true -> gpiod_array_err env = 0 ->
          gpiod_array_ndescs env = Some 3 -> misc_buttons_ret env = 0 ->
          pwm_get_err env <> 0 \/ misc_buzzer_ret env <> 0 ->
          ret <> 0
          /\ registered k'
             = (registered k ++ [MiscDevice DEVICE_NAME_BUTTON])%list
          /\ (platform_drvdata k = false ->
              rainbow_hat_platform_driver_remove k' = (0, k'))).
Proof.
  intros env k. unfold rainbow_hat_platform_driver_probe.
  destruct (devm_kzalloc_ok env); cbn [negb].
  2: { do 2 eexists. split; [reflexivity|].
       repeat split; try discriminate; auto;
         try (unfold ENOMEM in *; lia). }
  destruct (Z.eqb_spec (gpiod_array_err env) 0) as [Hg|Hg]; cbn [negb].
  2: { do 2 eexists. split; [reflexivity|].
       repeat split; try discriminate; auto; try contradiction. }
  destruct (gpiod_array_ndescs env) as [ndescs|].
  2: { do 2 eexists. split; [reflexivity|].
       repeat split; try discriminate; auto; try congruence;
         try (unfold EINVAL in *; lia). }
  destruct (Z.eqb_spec ndescs 3) as [->|Hn]; cbn [negb].
  2: { do 2 eexists. split; [reflexivity|].
       repeat split; try discriminate; auto; try congruence;
         try (unfold EINVAL in *; lia). }
  destruct (Z.eqb_spec (misc_buttons_ret env) 0) as [Hb|Hb]; cbn [negb].
  2: { do 2 eexists. split; [reflexivity|].
       repeat split; try discriminate; auto; try contradiction. }
  destruct (Z.eqb_spec (pwm_get_err env) 0) as [Hp|Hp]; cbn [negb].
  2: { do 2 eexists. split; [reflexivity|].
       cbn [register registered spi_drvdata platform_drvdata].
       repeat split; try discriminate; auto; try contradiction.
       intros Hd. unfold rainbow_hat_platform_driver_remove.
       cbn [register platform_drvdata]. now rewrite Hd. }
  destruct (Z.eqb_spec (misc_buzzer_ret env) 0) as [Hz|Hz]; cbn [negb].
  2: { do 2 eexists. split; [reflexivity|].
       cbn [register registered spi_drvdata platform_drvdata].
       repeat split; try discriminate; auto; try contradiction.
       intros Hd. unfold rainbow_hat_platform_driver_remove.
       cbn [register platform_drvdata]. now rewrite Hd. }
  do 2 eexists. split; [reflexivity|].
  cbn [register registered spi_drvdata platform_drvdata].
  repeat split; try discriminate; auto; try contradiction;
    try (rewrite <- app_assoc; reflexivity);
    try (exfalso; tauto).
Qed.

(** X17.  When none of the three devices is registered beforehand, a
    successful rainbow_hat_spi_driver_probe followed by
    rainbow_hat_spi_driver_remove, and a successful
    rainbow_hat_platform_driver_probe followed by
    rainbow_hat_platform_driver_remove, leave the registrations as they
    were. *)
Theorem probe_then_remove_restores :
  forall (env : probe_env) (k : kernel),
    ~ In (MiscDevice DEVICE_NAME_LED) (registered k) ->
    ~ In (MiscDevice DEVICE_NAME_BUTTON) (registered k) ->
    ~ In (MiscDevice DEVICE_NAME_BUZZER) (registered k) ->
    (fst (rainbow_hat_spi_driver_probe env k) = 0 ->
     registered (rainbow_hat_spi_driver_remove
                   (snd (rainbow_hat_spi_driver_probe env k)))
     = registered k)
    /\ (fst (rainbow_hat_platform_driver_probe env k) = 0 ->
        registered (snd (rainbow_hat_platform_driver_remove
                           (snd (rainbow_hat_platform_driver_probe env k))))
        = registered k).
Proof.
  intros env k Hl Hb Hz. split.
  - unfold rainbow_hat_spi_driver_probe.
    destruct (devm_kzalloc_ok env); cbn [negb fst snd];
      [|unfold ENOMEM; lia].
    destruct (Z.eqb_spec (misc_leds_ret env) 0) as [_|Hne]; cbn [negb fst snd];
      [|intros E; contradiction].
    intros _. unfold rainbow_hat_spi_driver_remove. cbn [spi_drvdata].
    unfold unregister, register. cbn [registered].
    rewrite filter_app. cbn [filter]. rewrite same_registration_refl.
    cbn [negb]. rewrite app_nil_r. now apply filter_keep.
  - unfold rainbow_hat_platform_driver_probe.
    destruct (devm_kzalloc_ok env); cbn [negb fst snd];
      [|unfold ENOMEM; lia].
    destruct (Z.eqb_spec (gpiod_array_err env) 0) as [_|Hne];
      cbn [negb fst snd]; [|intros E; contradiction].
    destruct (gpiod_array_ndescs env) as [ndescs|]; cbn [fst snd];
      [|unfold EINVAL; lia].
    destruct (Z.eqb_spec ndescs 3) as [->|Hn]; cbn [negb fst snd];
      [|unfold EINVAL; lia].
    destruct (Z.eqb_spec (misc_buttons_ret env) 0) as [_|Hne];
      cbn [negb fst snd]; [|intros E; contradiction].
    destruct (Z.eqb_spec (pwm_get_err env) 0) as [_|Hne];
      cbn [negb fst snd]; [|intros E; contradiction].
    destruct (Z.eqb_spec (misc_buzzer_ret env) 0) as [_|Hne];
      cbn [negb fst snd]; [|intros E; contradiction].
    intros _. unfold rainbow_hat_platform_driver_remove.
    cbn [platform_drvdata snd].
    unfold unregister, register. cbn [registered].
    rewrite !filter_app.
    rewrite (filter_keep (MiscDevice DEVICE_NAME_BUTTON)) by exact Hb.
    rewrite (filter_same (MiscDevice DEVICE_NAME_BUTTON)).
    rewrite (filter_other (MiscDevice DEVICE_NAME_BUTTON)) by reflexivity.
    rewrite (filter_same (MiscDevice DEVICE_NAME_BUZZER)).
    cbn [filter]. rewrite !app_nil_r. now apply filter_keep.
Qed.

(** X18.  rainbow_init answers 0 exactly when both registrations
    succeed; then the SPI driver and the platform driver are registered, in
    that order, and rainbow_exit takes both away again.  When a
    registration fails rainbow_init answers its error and nothing stays
    registered: the SPI driver is unregistered when the platform driver
    could not be registered. *)
Theorem rainbow_init_all_or_nothing :
  forall (spi_register_ret platform_register_ret : Z) (k : kernel),
    ~ In SpiDriver (registered k) -> ~ In PlatformDriver (registered k) ->
    exists (ret : Z) (k' : kernel),
      rainbow_init spi_register_ret platform_register_ret k = (ret, k')
      /\ (ret = 0 <-> spi_register_ret = 0 /\ platform_register_ret = 0)
      /\ (ret = 0 ->
          registered k'
          = (registered k ++ [SpiDriver; PlatformDriver])%list
          /\ registered (rainbow_exit k') = registered k)
      /\ (ret <> 0 ->
          registered k' = registered k
          /\ ret = (if spi_register_ret =? 0 then platform_register_ret
                    else spi_register_ret)).
Proof.
  intros s p k Hs Hp. unfold rainbow_init.
  destruct (Z.eqb_spec s 0) as [->|Hne]; cbn [negb].
  2: { do 2 eexists. split; [reflexivity|].
       repeat split; try tauto; try contradiction. }
  destruct (Z.eqb_spec p 0) as [->|Hne]; cbn [negb].
  2: { do 2 eexists. split; [reflexivity|].
       repeat split; try tauto; try contradiction.
       now apply unregister_registered. }
  do 2 eexists. split; [reflexivity|].
  repeat split; try tauto; try contradiction.
  - cbn [register registered]. now rewrite <- app_assoc.
  - unfold rainbow_exit, unregister, register. cbn [registered].
    rewrite !filter_app.
    rewrite (filter_keep SpiDriver) by exact Hs.
    rewrite (filter_same SpiDriver).
    rewrite (filter_other SpiDriver) by reflexivity.
    rewrite (filter_same PlatformDriver).
    cbn [filter]. rewrite !app_nil_r. now apply filter_keep.
Qed.

Lemma probe_then_remove_restores_witness :
  Setup.registered
    (snd (rainbow_hat_platform_driver_remove
            (snd (rainbow_hat_platform_driver_probe probe_ok kernel_fresh))))
  = [].
Proof.
  apply (proj2 (probe_then_remove_restores probe_ok kernel_fresh
                  (fun H => H) (fun H => H) (fun H => H))).
  reflexivity.
Defined.

Lemma rainbow_init_all_or_nothing_witness :
  exists (ret : Z) (k' : kernel),
    rainbow_init 0 (- EBUSY) kernel_fresh = (ret, k')
    /\ (ret = 0 <-> 0 = 0 /\ - EBUSY = 0)
    /\ (ret = 0 ->
        registered k'
        = (registered kernel_fresh ++ [SpiDriver; PlatformDriver])%list
        /\ registered (rainbow_exit k') = registered kernel_fresh)
    /\ (ret <> 0 ->
        registered k' = registered kernel_fresh
        /\ ret = (if 0 =? 0 then - EBUSY else 0)).
Proof.
  exact (rainbow_init_all_or_nothing 0 (- EBUSY) kernel_fresh
           (fun H => H) (fun H => H)).
Defined.

End SetupProperties.

(** ** The application: clock, beats and piano rounds *)

Module AppFacts.
Import CLib Errno RainbowHat Reference Encoding Sample RainbowHatFacts.
Import Metronome Sequencer Piano LibraryProperties.


(** With one colour, every position of a command gets that colour. *)
Lemma single_color_text (c : string) (n : Z) (ps : list Z) :
  command_text {| amount_colors := 1; colors := [c];
                  amount_pins := n; pins := ps |}
  = led_text 0 (firstn (Z.to_nat n) ps) (fun _ => c).
Proof.
  unfold command_text, listed_pins. cbn [amount_pins pins].
  apply led_text_ext. intros k Hk. unfold color_of, color_index.
  cbn [amount_colors amount_pins colors].
  change (1 =? 1) with true. cbn [orb].
  replace (Z.to_nat (Z.min k (1 - 1))) with 0%nat by lia. reflexivity.
Qed.

(** The command of a beat: pins, colour and size. *)
Lemma beat_command (beat : Z) (c1 c2 : string) :
  beat = 1 \/ beat = 2 \/ beat = 3 ->
  String.length c1 = 6%nat -> String.length c2 = 6%nat ->
  counts_ok (beat_arg beat c1 c2)
  /\ command_text (beat_arg beat c1 c2)
     = led_text 0
         (if beat =? 1 then PIN_NUMBERS
          else if beat =? 2 then [4; 5; 6] else [0; 1; 2])
         (fun _ => if beat =? 1 then c1 else c2)
  /\ strlen (command_text (beat_arg beat c1 c2)) < LED_ARRAY_SIZE.
Proof.
  intros Hb H1 H2.
  assert (Hsmall : forall c ps,
            String.length c = 6%nat -> Forall (fun p => 0 <= p < 7) ps ->
            (List.length ps <= 7)%nat ->
            strlen (led_text 0 ps (fun _ => c)) < LED_ARRAY_SIZE).
  { intros c ps Hc Hps Hl.
    pose proof (led_text_small c ps Hps Hc 0). unfold LED_ARRAY_SIZE. lia. }
  destruct Hb as [->|[->| ->]]; unfold beat_arg;
    cbn [Z.eqb Pos.eqb]; rewrite single_color_text;
    (split; [repeat split; vm_compute; discriminate|]);
    (split; [reflexivity|]);
    apply Hsmall; try assumption;
    try (cbn; lia); repeat constructor; lia.
Qed.

Lemma play_tone_open sw (d : rainbow_hat_dev) (freq : Z) (w : world) :
  0 <= buzzer_fd d ->
  play_tone sw (Live d) freq w
  = Some (0, log (EvWrite (buzzer_fd d) (ULong freq)) w).
Proof.
  intros Hfd. unfold play_tone.
  destruct (Z.geb_spec (buzzer_fd d) 0); [|lia].
  destruct (sw (trace w) (buzzer_fd d) (ULong freq) <? 0); reflexivity.
Qed.

End AppFacts.

Module AppProperties.
Import CLib Errno RainbowHat Reference Encoding Sample RainbowHatFacts.
Import Metronome Sequencer Piano LibraryProperties MetronomeProperties.
Import AppFacts LibraryInvariants.

(** X19.  For two clock readings with nanosecond fields in [0, 10^9) and
    so few seconds apart that a long of [bits] bits, 32 or more, holds the
    microseconds of one second more, no step of the macro elapsed_time_us
    (the product, the difference of the nanoseconds, the sum) leaves the
    range of that long, and its value is the whole microseconds between
    the readings, or one more: one more exactly when the nanosecond field
    of the second reading is the smaller one and the two differ by no
    multiple of 1000, the division of the negative difference truncating
    towards zero.  It is never negative when the second reading is not the
    earlier one. *)
Theorem elapsed_time_us_accuracy :
  forall (bits : Z) (start end_ : timespec),
    32 <= bits ->
    0 <= tv_nsec start < 1000000000 ->
    0 <= tv_nsec end_ < 1000000000 ->
    (Z.abs (tv_sec end_ - tv_sec start) + 1) * 1000000 <= 2 ^ (bits - 1) ->
    let ns := (tv_sec end_ - tv_sec start) * 1000000000
              + (tv_nsec end_ - tv_nsec start) in
    let rounds_up :=
      (tv_nsec end_ <? tv_nsec start)
      && negb ((tv_nsec start - tv_nsec end_) mod 1000 =? 0) in
    elapsed_time_us start end_ = ns / 1000 + (if rounds_up then 1 else 0)
    /\ (0 <= ns -> 0 <= elapsed_time_us start end_)
    /\ - 2 ^ (bits - 1) <= (tv_sec end_ - tv_sec start) * 1000000
       < 2 ^ (bits - 1)
    /\ - 2 ^ (bits - 1) <= tv_nsec end_ - tv_nsec start < 2 ^ (bits - 1)
    /\ - 2 ^ (bits - 1) <= elapsed_time_us start end_ < 2 ^ (bits - 1).
Proof.
  intros bits s e Hbits Hs He Hfit ns rounds_up.
  unfold elapsed_time_us. subst ns rounds_up.
  set (ds := tv_sec e - tv_sec s) in *.
  assert (HM : 2 ^ 31 <= 2 ^ (bits - 1))
    by (apply Z.pow_le_mono_r; lia).
  change (2 ^ 31) with 2147483648 in HM.
  set (M := 2 ^ (bits - 1)) in *.
  destruct (Z.ltb_spec (tv_nsec e) (tv_nsec s)) as [Hneg|Hpos]; cbn [andb].
  - set (dp := tv_nsec s - tv_nsec e) in *.
    replace (tv_nsec e - tv_nsec s) with (- dp) by (unfold dp; lia).
    assert (0 < dp < 1000000000) by (unfold dp; lia).
    rewrite Z.quot_opp_l by lia.
    rewrite Z.quot_div_nonneg by lia.
    pose proof (Z.div_mod dp 1000 ltac:(lia)) as D.
    pose proof (Z.mod_pos_bound dp 1000 ltac:(lia)) as B.
    assert (E : (ds * 1000000000 + - dp) / 1000
                = ds * 1000000 + (- dp) / 1000).
    { replace (ds * 1000000000 + - dp) with (ds * 1000000 * 1000 + - dp)
        by lia.
      rewrite Z.div_add_l by lia. reflexivity. }
    rewrite E.
    pose proof (Z.div_mod (- dp) 1000 ltac:(lia)) as D'.
    pose proof (Z.mod_pos_bound (- dp) 1000 ltac:(lia)) as B'.
    destruct (Z.eqb_spec (dp mod 1000) 0) as [H0|H0]; cbn [negb];
      (split; [lia|]); (split; [intros Hns; lia|]);
      repeat split; lia.
  - set (dn := tv_nsec e - tv_nsec s) in *.
    assert (0 <= dn < 1000000000) by (unfold dn; lia).
    rewrite Z.quot_div_nonneg by lia.
    pose proof (Z.div_mod dn 1000 ltac:(lia)) as D.
    pose proof (Z.mod_pos_bound dn 1000 ltac:(lia)) as B.
    assert (E : (ds * 1000000000 + dn) / 1000 = ds * 1000000 + dn / 1000).
    { replace (ds * 1000000000 + dn) with (ds * 1000000 * 1000 + dn) by lia.
      rewrite Z.div_add_l by lia. reflexivity. }
    rewrite E.
    split; [lia|]. split; [intros Hns; lia|].
    repeat split; lia.
Qed.

Lemma elapsed_time_us_accuracy_witness :
  32 <= 32
  /\ 0 <= 999999999 < 1000000000
  /\ 0 <= 0 < 1000000000
  /\ (Z.abs (1 - 0) + 1) * 1000000 <= 2 ^ (32 - 1)
  /\ elapsed_time_us {| tv_sec := 0; tv_nsec := 999999999 |}
                     {| tv_sec := 1; tv_nsec := 0 |} = 1
  /\ (1 * 1000000000 + (0 - 999999999)) / 1000 = 0.
Proof.
  assert (Hbits : 32 <= 32) by lia.
  assert (Hs : 0 <= 999999999 < 1000000000) by lia.
  assert (He : 0 <= 0 < 1000000000) by lia.
  assert (Hfit : (Z.abs (1 - 0) + 1) * 1000000 <= 2 ^ (32 - 1))
    by (vm_compute; discriminate).
  pose proof (elapsed_time_us_accuracy 32
                {| tv_sec := 0; tv_nsec := 999999999 |}
                {| tv_sec := 1; tv_nsec := 0 |} Hbits Hs He Hfit) as [E _].
  split; [exact Hbits|]. split; [exact Hs|]. split; [exact He|]. split; [exact Hfit|].
  split; [exact E | reflexivity].
Defined.



(** X21.  At 600 beats per minute and above (up to 1000) the beat
    duration is at most the 100000 microseconds for which the LEDs stay on.
    The clock readings around the LED operations being at least that far
    apart, no beat sleeps a second time, so that the metronome cannot keep
    such a tempo. *)
Theorem fast_tempo_leaves_no_pause :
  forall sw clock (d : rainbow_hat_dev) (bpm beat_us beat : Z)
         (c1 c2 : string) (w : world) (r : Z) (w' : world) (sleeps : list Z),
    600 <= bpm <= 1000 ->
    beat_duration_us bpm = Some beat_us ->
    (forall tr, (List.length (trace w) < List.length tr)%nat ->
                sleep_duration_us
                <= elapsed_time_us (clock (trace w)) (clock tr)) ->
    metronome_beat sw clock (Live d) beat_us beat c1 c2 w
    = Some (r, w', sleeps) ->
    beat_us <= sleep_duration_us
    /\ (sleeps = [] \/ sleeps = [sleep_duration_us]).
Proof.
  intros sw clock d bpm beat_us beat c1 c2 w r w' sleeps Hbpm Hbeat Hclock.
  rewrite beat_duration_is_quotient in Hbeat by lia.
  injection Hbeat as <-.
  assert (Hq : 60000000 / bpm <= sleep_duration_us).
  { unfold sleep_duration_us.
    apply Z.div_le_upper_bound; lia. }
  intros E. split; [exact Hq|].
  unfold metronome_beat in E.
  destruct (led_light_on sw (Live d) (beat_arg beat c1 c2) w)
    as [[on w1]|] eqn:Eon; [|discriminate].
  destruct (Z.ltb_spec on 0) as [Hneg|Hpos].
  { injection E as _ _ <-. left. reflexivity. }
  destruct (led_light_on_success_trace _ _ _ _ _ _ Eon Hpos) as [_ Htr1].
  destruct (led_light_off sw (Live d) w1) as [[off w2]|] eqn:Eoff;
    [|discriminate].
  unfold led_light_off in Eoff.
  destruct (Z.ltb_spec off 0) as [Hneg2|Hpos2].
  { injection E as _ _ <-. right. reflexivity. }
  destruct (led_light_on_success_trace _ _ _ _ _ _ Eoff Hpos2) as [_ Htr2].
  injection E as _ _ <-. right. f_equal.
  unfold beat_sleep, adjusted_sleep_duration_us.
  assert (Hlen : (List.length (trace w) < List.length (trace w2))%nat)
    by lia.
  specialize (Hclock (trace w2) Hlen).
  destruct (Z.gtb_spec
              (60000000 / bpm
               - elapsed_time_us (clock (trace w)) (clock (trace w2))) 0);
    [lia | reflexivity].
Qed.

Lemma fast_tempo_leaves_no_pause_witness :
  beat_duration_us 720 = Some 83333
  /\ metronome_beat write_accepts clock_by_calls (Live dev345) 83333 1
       "FF0000" "FF00FF" w0
     = Some (0,
             {| LED_ARRAY := all_black_text; err_buff := "";
                trace := [EvWrite 3
                            (Text (command_text
                                     (beat_arg 1 "FF0000" "FF00FF")));
                          EvWrite 3 (Text all_black_text)] |},
             [100000])
  /\ 83333 <= sleep_duration_us.
Proof.
  split; [vm_compute; reflexivity|]. split; [vm_compute; reflexivity|].
  refine (proj1 (fast_tempo_leaves_no_pause write_accepts clock_by_calls
                   dev345 720 83333 1 "FF0000" "FF00FF" w0 0 _ [100000]
                   _ _ _ _)).
  - lia.
  - vm_compute. reflexivity.
  - intros tr Htr. unfold clock_by_calls, elapsed_time_us, sleep_duration_us.
    cbn [tv_sec tv_nsec trace w0 List.length] in *.
    rewrite Z.quot_0_l by lia. lia.
  - vm_compute. reflexivity.
Defined.

(** X22.  One round of piano_simulation on a live handle with open button
    and buzzer descriptors, the read of the buttons having succeeded: the
    round reads the buttons once and writes one frequency to the buzzer,
    that of the first pressed button in the order A, B, C, or 0 when none
    is pressed, converted to an unsigned long; it then sleeps 10000
    microseconds and goes on, whatever the write to the buzzer was
    answered. *)
Theorem piano_round_tone :
  forall sw sr (ulong_bits : Z) (d : rainbow_hat_dev)
         (freq_a freq_b freq_c : Z) (btn0 : ascii) (w : world)
         (result : Z) (data : string),
    0 <= buttons_fd d -> 0 <= buzzer_fd d ->
    sr (trace w) (buttons_fd d) 3 = (result, data) -> 0 <= result ->
    let btn := first_pressed (state_at data 0) (state_at data 1)
                 (state_at data 2) in
    piano_round sw sr ulong_bits (Live d) freq_a freq_b freq_c btn0 w
    = Some (0, btn,
            log (EvWrite (buzzer_fd d)
                   (ULong (ulong_of_int ulong_bits
                             (tone_for freq_a freq_b freq_c btn))))
              (log (EvRead (buttons_fd d) 3) w),
            [10000]).
Proof.
  intros sw sr bits d fa fb fc btn0 w result data Hbfd Hzfd Hread Hres btn.
  pose proof (get_active_button_state sr d btn0 w result data
                Hbfd Hread Hres) as E.
  unfold piano_round. rewrite E. cbn [Z.ltb Z.compare]. fold btn.
  unfold round_tone, tone_for.
  destruct (first_pressed_name (state_at data 0) (state_at data 1)
              (state_at data 2)) as [H|[H|[H|H]]];
    fold btn in H; rewrite H; rewrite !play_tone_open by exact Hzfd;
    reflexivity.
Qed.

Lemma piano_round_tone_witness :
  piano_round write_busy read_two_bytes 64 (Live dev345) 262 330 392 "x" w0
  = Some (0, "B"%char,
          {| LED_ARRAY := ""; err_buff := "";
             trace := [EvRead 4 3; EvWrite 5 (ULong 330)] |},
          [10000]).
Proof.
  apply (piano_round_tone write_busy read_two_bytes 64 dev345 262 330 392
           "x" w0 2 "01"); try reflexivity; vm_compute; discriminate.
Defined.

End AppProperties.

(** ** Commands at the edge: refused, blank, followed by other bytes *)

Module EdgeProperties.
Import CLib Errno RainbowHat Reference Encoding Sample.
Import RainbowHatFacts DriverFacts CommandFacts AcceptedFacts TableFacts.
Import ColourFacts LibraryProperties BuzzerProperties AppFacts.
Import Sequencer Piano.

(** X23.  When rainbow_leds_write turns a command of the library away
    because of an entry it refuses, the well-formed entries before that one
    have already been stored: the answer is -EINVAL and no frame is sent,
    but the LED table holds their colours from then on. *)
Theorem rejected_command_partially_applied :
  forall (a : led_arg) (env : Driver.kenv) (sdev : Driver.rainbow_spi_dev)
         (good more : list Z) (bad : Z),
    strlen (command_text a) <= Driver.MAX_EXPECTED_INPUT_LENGTH ->
    listed_pins a = (good ++ bad :: more)%list ->
    (forall k, (k < List.length good)%nat ->
               entry_ok (nth k good 0) (color_of a (Z.of_nat k))) ->
    entry_refused bad (color_of a (Z.of_nat (List.length good))) ->
    Driver.kmalloc_ok env = true -> Driver.lock_interrupted env = false ->
    Driver.copy_from_user_ok env = true ->
    Driver.rainbow_leds_write env sdev (command_text a)
    = Some (- EINVAL,
            {| Driver.leds :=
                 apply_entries 0 good (color_of a) (Driver.leds sdev);
               Driver.spi := Driver.spi sdev;
               Driver.frames := Driver.frames sdev |}).
Proof.
  intros a env sdev good more bad Hlen Hpins Hgood Hbad Hk Hl Hc.
  assert (Hparse :
            Driver.parse_led_colors (Driver.leds sdev) (command_text a)
              (strlen (command_text a))
            = Some (- EINVAL,
                    apply_entries 0 good (color_of a) (Driver.leds sdev))).
  { unfold Driver.parse_led_colors, command_text. rewrite Hpins.
    apply (refused_entry_partial (color_of a) bad more good 0
             (Driver.leds sdev)
             (S (String.length
                   (led_text 0 (good ++ bad :: more) (color_of a)))));
      [lia | exact Hgood | exact Hbad
       | cbn [sep_len Z.gtb Z.compare skip]; lia]. }
  unfold Driver.rainbow_leds_write.
  destruct (Z.gtb_spec (strlen (command_text a))
              Driver.MAX_EXPECTED_INPUT_LENGTH); [lia|].
  rewrite Hk, Hl, Hc, Hparse. reflexivity.
Qed.

Lemma rejected_command_partially_applied_witness :
  Driver.rainbow_leds_write env_ok leds_dark "0:FF0000,7:FF0000"
  = Some (- EINVAL,
          {| Driver.leds :=
               {| Driver.r := 255; Driver.g := 0; Driver.b := 0 |}
               :: repeat {| Driver.r := 0; Driver.g := 0; Driver.b := 0 |} 6;
             Driver.spi := true; Driver.frames := [] |}).
Proof.
  refine (rejected_command_partially_applied zero_then_seven env_ok leds_dark
            [0] [] 7 _ eq_refl _ _ eq_refl eq_refl eq_refl).
  - vm_compute. discriminate.
  - intros k Hk. cbn [List.length] in Hk. assert (k = 0%nat) as -> by lia.
    repeat split; vm_compute; try reflexivity; discriminate.
  - left. unfold Driver.NUMBER_LEDS. lia.
Defined.

(** X24.  A write of no bytes, or of bytes that begin with NUL, is taken
    by rainbow_leds_write whatever follows the NUL: the table is left as it
    is, its frame is sent once more and the byte count is the answer. *)
Theorem blank_command_resends_table :
  forall (env : Driver.kenv) (sdev : Driver.rainbow_spi_dev) (buf : string),
    buf = "" \/ (exists t, buf = String Ascii.zero t) ->
    strlen buf <= Driver.MAX_EXPECTED_INPUT_LENGTH ->
    Driver.kmalloc_ok env = true -> Driver.lock_interrupted env = false ->
    Driver.copy_from_user_ok env = true -> Driver.spi sdev = true ->
    0 <= Driver.spi_sync_ret env ->
    Driver.rainbow_leds_write env sdev buf
    = Some (strlen buf,
            {| Driver.leds := Driver.leds sdev; Driver.spi := true;
               Driver.frames :=
                 (Driver.frames sdev
                  ++ [Driver.led_frame (Driver.leds sdev)])%list |}).
Proof.
  intros env sdev buf Hbuf Hlen Hk Hl Hc Hspi Hsync.
  assert (Hparse : Driver.parse_led_colors (Driver.leds sdev) buf (strlen buf)
                   = Some (0, Driver.leds sdev)).
  { unfold Driver.parse_led_colors. cbn [Driver.parse_led_loop].
    destruct Hbuf as [->|[t ->]].
    - reflexivity.
    - unfold char_at. cbn [String.get]. rewrite Ascii.eqb_refl.
      cbn [negb]. now rewrite andb_false_r. }
  unfold Driver.rainbow_leds_write, Driver.update_leds.
  destruct (Z.gtb_spec (strlen buf) Driver.MAX_EXPECTED_INPUT_LENGTH); [lia|].
  rewrite Hk, Hl, Hc, Hparse.
  cbn [negb Z.eqb Driver.spi Driver.leds Driver.frames].
  rewrite Hspi. cbn [negb].
  destruct (Z.ltb_spec (Driver.spi_sync_ret env) 0) as [|_]; [lia|].
  reflexivity.
Qed.

Lemma blank_command_resends_table_witness :
  Driver.rainbow_leds_write env_ok leds_grey (String Ascii.zero "1:FF0000")
  = Some (9,
          {| Driver.leds := Driver.leds leds_grey; Driver.spi := true;
             Driver.frames := [Driver.led_frame (Driver.leds leds_grey)] |}).
Proof.
  refine (blank_command_resends_table env_ok leds_grey
            (String Ascii.zero "1:FF0000") _ _ eq_refl eq_refl eq_refl
            eq_refl _).
  - right. eexists. reflexivity.
  - vm_compute. discriminate.
  - vm_compute. discriminate.
Defined.

(** X25.  Up to seven bytes that follow the last colour of a well-formed
    command, a final newline for one, change nothing as long as there is
    no comma among them (the whole then stays within 70 bytes):
    rainbow_leds_write stores the same entries, sends the frame and answers
    the full byte count. *)
Theorem trailing_bytes_ignored :
  forall (a : led_arg) (env : Driver.kenv) (sdev : Driver.rainbow_spi_dev)
         (junk : string),
    counts_ok a -> all_entries_ok a ->
    Driver.strchr_from junk "," = None -> strlen junk <= 7 ->
    Driver.kmalloc_ok env = true -> Driver.lock_interrupted env = false ->
    Driver.copy_from_user_ok env = true -> Driver.spi sdev = true ->
    0 <= Driver.spi_sync_ret env ->
    Driver.rainbow_leds_write env sdev (command_text a ++ junk)
    = Some (strlen (command_text a) + strlen junk,
            {| Driver.leds :=
                 apply_entries 0 (listed_pins a) (color_of a)
                   (Driver.leds sdev);
               Driver.spi := true;
               Driver.frames :=
                 (Driver.frames sdev
                  ++ [Driver.led_frame
                        (apply_entries 0 (listed_pins a) (color_of a)
                           (Driver.leds sdev))])%list |}).
Proof.
  intros a env sdev junk Hok Hall Hjunk Hjl Hk Hl Hcp Hspi Hsync.
  destruct (command_parsed_junk a (Driver.leds sdev) junk Hok Hall Hjunk)
    as [Hlen Hparse].
  unfold Driver.rainbow_leds_write, Driver.update_leds.
  rewrite <- strlen_app.
  destruct (Z.gtb_spec (strlen (command_text a ++ junk))
              Driver.MAX_EXPECTED_INPUT_LENGTH) as [Hbig|_].
  { rewrite strlen_app in Hbig.
    unfold Driver.MAX_EXPECTED_INPUT_LENGTH in Hbig. lia. }
  rewrite Hk, Hl, Hcp, Hparse.
  cbn [negb Z.eqb Driver.spi Driver.leds Driver.frames].
  rewrite Hspi. cbn [negb].
  destruct (Z.ltb_spec (Driver.spi_sync_ret env) 0) as [|_]; [lia|].
  reflexivity.
Qed.

Lemma trailing_bytes_ignored_witness :
  exists sdev' : Driver.rainbow_spi_dev,
    Driver.rainbow_leds_write env_ok leds_dark
      ("3:FF8000" ++ String "010" "")
    = Some (9, sdev')
    /\ nth_error (Driver.leds sdev') 3
       = Some {| Driver.r := 255; Driver.g := 128; Driver.b := 0 |}.
Proof.
  eexists. split.
  - refine (trailing_bytes_ignored (one_led 3 "FF8000") env_ok leds_dark
              (String "010" "") _ _ eq_refl _ eq_refl eq_refl eq_refl
              eq_refl _).
    + repeat split; vm_compute; discriminate.
    + intros k Hk.
      change (List.length (listed_pins (one_led 3 "FF8000"))) with 1%nat in Hk.
      assert (k = 0%nat) as -> by lia.
      repeat split; vm_compute; try reflexivity; discriminate.
    + vm_compute. discriminate.
    + vm_compute. discriminate.
  - reflexivity.
Defined.

(** X26.  rainbow_buzzer_write does not turn a frequency above
    1000000000 away: the period comes out as 0 and the PWM is configured
    with duty time 0 and period 0, then enabled when the configuration was
    accepted.  A negative [int] frequency of piano_simulation is such a
    frequency once it has been converted to an unsigned long of 32 bits or
    more. *)
Theorem out_of_range_frequency_gives_zero_period :
  forall (env : Driver.kenv) (g : Driver.rainbow_gpio_dev) (freq : Z),
    Driver.lock g = false -> Driver.copy_from_user_ok env = true ->
    1000000000 < freq ->
    Driver.rainbow_buzzer_write env g (Driver.sizeof_ulong env) freq
    = Some (if Driver.pwm_config_ret env =? 0
            then Driver.sizeof_ulong env else Driver.pwm_config_ret env,
            {| Driver.lock := false;
               Driver.pwm :=
                 (Driver.pwm g
                  ++ Driver.PwmConfig 0 0
                     :: (if Driver.pwm_config_ret env =? 0
                         then [Driver.PwmEnable] else []))%list |})
    /\ (forall bits f : Z,
          32 <= bits -> - 2 ^ 31 <= f < 0 ->
          1000000000 < ulong_of_int bits f).
Proof.
  intros env g freq Hlock Hcopy Hfreq. split.
  - unfold Driver.rainbow_buzzer_write, Driver.buzzer_trylock.
    rewrite Z.eqb_refl, Hlock. cbn [negb].
    unfold Driver.buzzer_locked, Driver.udiv. rewrite Hcopy. cbn [negb].
    destruct (Z.eqb_spec freq 0) as [|_]; [lia|].
    assert (E : 1000000000 / freq = 0) by (apply Z.div_small; lia).
    rewrite E. change (0 >? Driver.INT_MAX) with false.
    change (0 / 2) with 0. cbv iota.
    destruct (Driver.pwm_config_ret env =? 0);
      unfold Driver.set_lock, Driver.pwm_call;
      cbn [Driver.lock Driver.pwm];
      rewrite <- ?app_assoc; reflexivity.
  - intros bits f Hbits Hf. unfold ulong_of_int.
    assert (P : 2 ^ 32 <= 2 ^ bits) by (apply Z.pow_le_mono_r; lia).
    assert (E : f mod 2 ^ bits = f + 2 ^ bits).
    { symmetry. apply (Z.mod_unique f (2 ^ bits) (-1)); lia. }
    rewrite E. lia.
Qed.

Lemma out_of_range_frequency_gives_zero_period_witness :
  Driver.rainbow_buzzer_write env_ok buzzer_idle 8 (ulong_of_int 64 (-440))
  = Some (8, {| Driver.lock := false;
                Driver.pwm := [Driver.PwmConfig 0 0; Driver.PwmEnable] |}).
Proof.
  exact (proj1 (out_of_range_frequency_gives_zero_period env_ok buzzer_idle
                  (ulong_of_int 64 (-440)) eq_refl eq_refl eq_refl)).
Defined.

(** X27.  The command of each beat of the metronome, its colours being six
    hexadecimal digits, is taken by rainbow_leds_write (memory, mutex, copy
    and SPI transfer in order): one frame is sent, and in the table beat 1
    has set all seven LEDs, beat 2 the LEDs 4, 5, 6 and beat 3 the LEDs
    0, 1, 2 to the colour of the beat, the other LEDs keeping theirs. *)
Theorem beat_commands_reach_table :
  forall (beat : Z) (c1 c2 : string) (env : Driver.kenv)
         (sdev : Driver.rainbow_spi_dev),
    beat = 1 \/ beat = 2 \/ beat = 3 ->
    hex6 c1 = true -> hex6 c2 = true ->
    List.length (Driver.leds sdev) = Z.to_nat Driver.NUMBER_LEDS ->
    Driver.kmalloc_ok env = true -> Driver.lock_interrupted env = false ->
    Driver.copy_from_user_ok env = true -> Driver.spi sdev = true ->
    0 <= Driver.spi_sync_ret env ->
    exists sdev' : Driver.rainbow_spi_dev,
      Driver.rainbow_leds_write env sdev (command_text (beat_arg beat c1 c2))
      = Some (strlen (command_text (beat_arg beat c1 c2)), sdev')
      /\ List.length (Driver.frames sdev')
         = S (List.length (Driver.frames sdev))
      /\ forall i : nat,
           (i < 7)%nat ->
           nth_error (Driver.leds sdev') i
           = if (if beat =? 1 then true
                 else if beat =? 2 then (4 <=? i)%nat else (i <? 3)%nat)
             then Some (led_of_color (if beat =? 1 then c1 else c2))
             else nth_error (Driver.leds sdev) i.
Proof.
  intros beat c1 c2 env sdev Hb H1 H2 Hlen Hk Hl Hc Hspi Hsync.
  destruct (beat_command beat c1 c2 Hb (hex6_length _ H1) (hex6_length _ H2))
    as (Hok & _ & _).
  assert (Hall : all_entries_ok (beat_arg beat c1 c2)).
  { intros k Hk'.
    destruct Hb as [->|[->| ->]].
    - change (List.length (listed_pins (beat_arg 1 c1 c2))) with 7%nat in Hk'.
      destruct k as [|[|[|[|[|[|[|k]]]]]]]; try lia;
        (split; [split; vm_compute; try reflexivity; discriminate
                | exact H1]).
    - change (List.length (listed_pins (beat_arg 2 c1 c2))) with 3%nat in Hk'.
      destruct k as [|[|[|k]]]; try lia;
        (split; [split; vm_compute; try reflexivity; discriminate
                | exact H2]).
    - change (List.length (listed_pins (beat_arg 3 c1 c2))) with 3%nat in Hk'.
      destruct k as [|[|[|k]]]; try lia;
        (split; [split; vm_compute; try reflexivity; discriminate
                | exact H2]). }
  rewrite (command_written _ env sdev Hok Hall Hk Hl Hc Hspi Hsync).
  eexists. split; [reflexivity|]. cbn [Driver.frames Driver.leds].
  split; [rewrite length_app; cbn [List.length]; lia|].
  intros i Hi.
  destruct (Driver.leds sdev)
    as [|l0 [|l1 [|l2 [|l3 [|l4 [|l5 [|l6 [|l7 l]]]]]]]];
    try discriminate Hlen.
  destruct Hb as [->|[->| ->]];
    destruct i as [|[|[|[|[|[|[|i]]]]]]]; try lia; reflexivity.
Qed.

Lemma beat_commands_reach_table_witness :
  exists sdev' : Driver.rainbow_spi_dev,
    Driver.rainbow_leds_write env_ok leds_dark "4:FF00FF,5:FF00FF,6:FF00FF"
    = Some (26, sdev')
    /\ nth_error (Driver.leds sdev') 5
       = Some {| Driver.r := 255; Driver.g := 0; Driver.b := 255 |}
    /\ nth_error (Driver.leds sdev') 0
       = Some {| Driver.r := 0; Driver.g := 0; Driver.b := 0 |}.
Proof.
  assert (Hb : 2 = 1 \/ 2 = 2 \/ 2 = 3) by (right; left; reflexivity).
  assert (Hs : 0 <= Driver.spi_sync_ret env_ok) by (vm_compute; discriminate).
  destruct (beat_commands_reach_table 2 "FF0000" "FF00FF" env_ok leds_dark
              Hb eq_refl eq_refl eq_refl eq_refl eq_refl eq_refl eq_refl Hs)
    as (sdev' & E & _ & H).
  exists sdev'. split; [exact E|].
  split; [exact (H 5%nat ltac:(lia)) | exact (H 0%nat ltac:(lia))].
Defined.

End EdgeProperties.
